(** * Verification model of [cl/recap/mergers.py] (courtlistener)

    A shallow embedding of the docket-merging code: the case-name
    merge, the docket locator, the RECAP sequence numbers, the docket
    entry merge, the party and attorney reconciliation and the
    attachment page merge.  Database tables are lists of records, in
    primary-key order; a Django [get] becomes a lookup that returns one
    of [DoesNotExist], [MultipleObjectsReturned] or the single row. *)

From Stdlib Require Import Ascii String List Bool Arith Lia ZArith Sorting.Sorted.
Import ListNotations.
Open Scope string_scope.
Open Scope list_scope.

(** ** Python values *)

(** Truthiness of an optional string ([None], [""] are falsy). *)
Definition truthy (o : option string) : bool :=
  match o with
  | Some s => negb (String.eqb s "")
  | None => false
  end.

(** [==] on optional strings ([None == None] holds, as in Python and in
    Django's [IS NULL] lookups). *)
Definition opt_str_eqb (a b : option string) : bool :=
  match a, b with
  | Some x, Some y => String.eqb x y
  | None, None => true
  | _, _ => false
  end.

Definition opt_nat_eqb (a b : option nat) : bool :=
  match a, b with
  | Some x, Some y => Nat.eqb x y
  | None, None => true
  | _, _ => false
  end.

(** Outcome of a Django [QuerySet.get]. *)
Inductive get_result (A : Type) : Type :=
| DoesNotExist
| MultipleObjectsReturned
| Got (a : A).
Arguments DoesNotExist {A}.
Arguments MultipleObjectsReturned {A}.
Arguments Got {A} a.

Definition django_get {A} (p : A -> bool) (rows : list A) : get_result A :=
  match filter p rows with
  | [] => DoesNotExist
  | [a] => Got a
  | _ => MultipleObjectsReturned
  end.

(** [earliest] / [latest] on a field: the first row with the least
    (greatest) key, in table order.  The database leaves ties
    unspecified; the model breaks them by table order. *)
Fixpoint earliest_by {A} (key : A -> nat) (rows : list A) : option A :=
  match rows with
  | [] => None
  | a :: rest =>
      match earliest_by key rest with
      | Some b => if Nat.ltb (key b) (key a) then Some b else Some a
      | None => Some a
      end
  end.

Fixpoint latest_by {A} (key : A -> nat) (rows : list A) : option A :=
  match rows with
  | [] => None
  | a :: rest =>
      match latest_by key rest with
      | Some b => if Nat.ltb (key a) (key b) then Some b else Some a
      | None => Some a
      end
  end.

(** ** [update_case_names] *)
Module CaseNames.

Record docket := mkDocket {
  case_name : string;
  case_name_short : string
}.

Section UpdateCaseNames.

(** [CaseNameTweaker.make_case_name_short], from juriscraper. *)
Variable make_case_name_short : string -> string.

Definition uct : string := "Unknown Case Title".

Definition update_case_names (d : docket) (new_case_name : option string)
  : docket :=
  if negb (truthy new_case_name) then d
  else
    let n := match new_case_name with Some s => s | None => "" end in
    if String.eqb n uct && negb (String.eqb (case_name d) "") then d
    else {| case_name := n; case_name_short := make_case_name_short n |}.

End UpdateCaseNames.

(** The three kinds of case name of the docstring's matrix. *)
Inductive name_kind := Real | Placeholder | Blank.

Definition kind_of (o : option string) : name_kind :=
  match o with
  | None => Blank
  | Some s =>
      if String.eqb s "" then Blank
      else if String.eqb s uct then Placeholder else Real
  end.

(** The decision table as the spec words it: an incoming real name always
    wins, an incoming placeholder only over a blank, an incoming blank never. *)
Definition table_case_name (existing : string) (incoming : option string)
  : string :=
  match kind_of incoming, incoming with
  | Real, Some n => n
  | Placeholder, _ => if String.eqb existing "" then uct else existing
  | _, _ => existing
  end.

End CaseNames.

(** ** [find_docket_object] and [confirm_docket_number_core_lookup_match] *)
Module Locator.

Record docket := mkDocket {
  d_pk : nat;
  court_id : string;
  pacer_case_id : option string;
  docket_number : option string;
  docket_number_core : string;
  federal_defendant_number : option string;
  federal_dn_judge_initials_assigned : option string;
  federal_dn_judge_initials_referred : option string;
  date_created : nat
}.

(** The docket table. *)
Definition store := list docket.

(** The docket-number components passed to the lookup
    ([federal_defendant_number], [federal_dn_judge_initials_assigned],
    [federal_dn_judge_initials_referred]). *)
Record dn_components := mkComponents {
  c_defendant_number : option string;
  c_initials_assigned : option string;
  c_initials_referred : option string
}.

Definition no_components : dn_components := mkComponents None None None.

(** One keyword of a lookup's [kwargs]. *)
Inductive lookup_kw :=
| KPacerCaseId (v : option string)
| KCore (v : string)
| KDocketNumber (v : string).

Definition kw_matches (d : docket) (k : lookup_kw) : bool :=
  match k with
  | KPacerCaseId v => opt_str_eqb (pacer_case_id d) v
  | KCore v => String.eqb (docket_number_core d) v
  | KDocketNumber v => opt_str_eqb (docket_number d) (Some v)
  end.

Definition kwargs_match (court : string) (kw : list lookup_kw) (d : docket)
  : bool :=
  String.eqb (court_id d) court && forallb (kw_matches d) kw.

(** [kwargs.get("pacer_case_id") is None and kwargs.get("docket_number_core")] *)
Definition needs_core_confirmation (kw : list lookup_kw) : bool :=
  let pacer_none :=
    forallb (fun k => match k with
                      | KPacerCaseId (Some _) => false
                      | _ => true end) kw in
  let has_core :=
    existsb (fun k => match k with
                      | KCore v => negb (String.eqb v "")
                      | _ => false end) kw in
  pacer_none && has_core.

(** The comparison of a docket's component with an incoming one: only when
    both are truthy do they have to agree. *)
Definition component_conflicts (incoming existing : option string) : bool :=
  truthy incoming && truthy existing && negb (opt_str_eqb incoming existing).

(** [ds.filter] with [dn_lookup]: equality on the truthy incoming components. *)
Definition component_matches (incoming existing : option string) : bool :=
  if truthy incoming then opt_str_eqb existing incoming else true.

Definition dn_lookup_match (c : dn_components) (d : docket) : bool :=
  component_matches (c_defendant_number c) (federal_defendant_number d)
  && component_matches (c_initials_assigned c)
       (federal_dn_judge_initials_assigned d)
  && component_matches (c_initials_referred c)
       (federal_dn_judge_initials_referred d).

(** The lookup's outcome: an existing row, or the new unsaved
    [Docket(source=RECAP, pacer_case_id=..., court_id=...)]. *)
Inductive find_result :=
| Found (d : docket)
| NewDocket (court : string) (pacer_case_id : option string).

(** Read-only accesses to the docket table, in a state monad whose state
    is the table. *)
Definition M (A : Type) := store -> A * store.
Definition ret {A} (a : A) : M A := fun s => (a, s).
Definition bind {A B} (m : M A) (k : A -> M B) : M B :=
  fun s => let (a, s') := m s in k a s'.
Notation "x <- m ;; k" := (bind m (fun x => k))
  (at level 61, m at next level, right associativity).

(** [Docket.objects.filter(...)], evaluated. *)
Definition select (p : docket -> bool) : M (list docket) :=
  fun s => (filter p s, s).

Section Lookup.

(** [clean_docket_number] and [make_docket_number_core] live in
    [cl.lib.model_helpers], outside this file; they are parameters. *)
Variable clean_docket_number : option string -> string.
Variable make_docket_number_core : string -> string.

Definition confirm_docket_number_core_lookup_match (d : docket)
  (docket_number_in : string) (c : dn_components) : option docket :=
  if negb (String.eqb (clean_docket_number (docket_number d))
                      (clean_docket_number (Some docket_number_in)))
  then None
  else if component_conflicts (c_defendant_number c)
            (federal_defendant_number d)
          || component_conflicts (c_initials_assigned c)
               (federal_dn_judge_initials_assigned d)
          || component_conflicts (c_initials_referred c)
               (federal_dn_judge_initials_referred d)
  then None
  else Some d.

(** The lookups of decreasing specificity. *)
Definition lookups (pacer_case_id_in : option string) (docket_number_in : string)
  : list (list lookup_kw) :=
  let core := make_docket_number_core docket_number_in in
  let has_core := negb (String.eqb core "") in
  (if truthy pacer_case_id_in then
     (if has_core then
        [[KPacerCaseId pacer_case_id_in; KCore core];
         [KPacerCaseId None; KCore core]]
      else [])
     ++ [[KPacerCaseId pacer_case_id_in]]
   else [])
  ++ (if has_core && negb (truthy pacer_case_id_in) then
        [[KPacerCaseId None; KCore core]; [KCore core]]
      else if negb (String.eqb docket_number_in "")
              && negb (truthy pacer_case_id_in) then
        [[KPacerCaseId None; KDocketNumber docket_number_in]]
      else []).

(** One iteration of the [for kwargs in lookups] loop; [None] means the
    loop goes on to the next lookup. *)
Definition lookup_tier (court : string) (docket_number_in : string)
  (c : dn_components) (kw : list lookup_kw) : M (option docket) :=
  ds <- select (kwargs_match court kw) ;;
  match ds with
  | [] => ret None
  | [d] =>
      ret (if needs_core_confirmation kw
           then confirm_docket_number_core_lookup_match d docket_number_in c
           else Some d)
  | _ =>
      dnq <- select (fun d => kwargs_match court kw d && dn_lookup_match c d) ;;
      match dnq with
      | [d] => ret (Some d)
      | _ =>
          ret (match earliest_by date_created ds with
               | Some e =>
                   if needs_core_confirmation kw
                   then confirm_docket_number_core_lookup_match e
                          docket_number_in no_components
                   else Some e
               | None => None
               end)
      end
  end.

Fixpoint run_lookups (court : string) (docket_number_in : string)
  (c : dn_components) (lks : list (list lookup_kw)) : M (option docket) :=
  match lks with
  | [] => ret None
  | kw :: rest =>
      r <- lookup_tier court docket_number_in c kw ;;
      match r with
      | Some d => ret (Some d)
      | None => run_lookups court docket_number_in c rest
      end
  end.

(** [find_docket_object] (the [using] argument only selects a database
    replica; the model has one database). *)
Definition find_docket_object (court : string) (pacer_case_id_in : option string)
  (docket_number_in : string) (c : dn_components) : M find_result :=
  r <- run_lookups court docket_number_in c
         (lookups pacer_case_id_in docket_number_in) ;;
  match r with
  | Some d => ret (Found d)
  | None => ret (NewDocket court pacer_case_id_in)
  end.

End Lookup.

(** Modelled from the spec: [make_docket_number_core] ("a normalized form
    of the human-readable case number used for fuzzy matching across feeds
    that format it differently"), here the string of its digits. *)
Fixpoint digits_of (s : string) : string :=
  match s with
  | EmptyString => EmptyString
  | String ch rest =>
      if Nat.leb 48 (Ascii.nat_of_ascii ch)
         && Nat.leb (Ascii.nat_of_ascii ch) 57
      then String ch (digits_of rest) else digits_of rest
  end.

Definition make_docket_number_core (s : string) : string := digits_of s.

(** Modelled from the spec: [clean_docket_number], a normalisation of the
    raw docket number (the spec says no more); [None] becomes [""]. *)
Definition clean_docket_number (o : option string) : string :=
  match o with Some s => s | None => "" end.

End Locator.

(** ** Dates, times and the docket-entry dicts of the parser *)
Module Entry.

Record date := mkDate { year : nat; month : nat; day : nat }.

Definition date_eqb (a b : date) : bool :=
  Nat.eqb (year a) (year b) && Nat.eqb (month a) (month b)
  && Nat.eqb (day a) (day b).

(** [a < b] on dates. *)
Definition date_ltb (a b : date) : bool :=
  Nat.ltb (year a) (year b)
  || (Nat.eqb (year a) (year b)
      && (Nat.ltb (month a) (month b)
          || (Nat.eqb (month a) (month b) && Nat.ltb (day a) (day b)))).

(** A time of day, in seconds. *)
Definition time := nat.

(** A parsed [date_filed]: a [date] or a [datetime]. *)
Inductive filed :=
| FDate (d : date)
| FDateTime (d : date) (t : time).

(** Decimal digits and zero padding ([%0wd]). *)
Fixpoint nat_digits (fuel n : nat) (acc : string) : string :=
  match fuel with
  | 0 => acc
  | S f =>
      let acc' := String (Ascii.ascii_of_nat (48 + n mod 10)) acc in
      if Nat.ltb n 10 then acc' else nat_digits f (n / 10) acc'
  end.

Definition nat_to_string (n : nat) : string := nat_digits (S n) n "".

Fixpoint zeros (k : nat) : string :=
  match k with 0 => "" | S k' => String "0"%char (zeros k') end.

Definition zero_pad (w n : nat) : string :=
  let s := nat_to_string n in zeros (w - String.length s) ++ s.

(** [date.isoformat()] *)
Definition isoformat (d : date) : string :=
  zero_pad 4 (year d) ++ "-" ++ zero_pad 2 (month d) ++ "-"
  ++ zero_pad 2 (day d).

(** [make_recap_sequence_number]: ["%s.%03d" % (date_filed.isoformat(), i)] *)
Definition make_recap_sequence_number (d : date) (i : nat) : string :=
  isoformat d ++ "." ++ zero_pad 3 i.

(** A docket entry dict as produced by juriscraper (the keys the merge
    code reads). *)
Record entry_dict := mkEntry {
  document_number : option string;
  date_filed : option filed;
  description : option string;
  short_description : option string;
  pacer_seq_no : option string;
  pacer_doc_id : option string;
  recap_sequence_number : option string
}.

Definition set_recap_sequence_number (e : entry_dict) (s : string)
  : entry_dict :=
  {| document_number := document_number e; date_filed := date_filed e;
     description := description e; short_description := short_description e;
     pacer_seq_no := pacer_seq_no e; pacer_doc_id := pacer_doc_id e;
     recap_sequence_number := Some s |}.

Definition set_description (e : entry_dict) (s : option string)
  : entry_dict :=
  {| document_number := document_number e; date_filed := date_filed e;
     description := s; short_description := short_description e;
     pacer_seq_no := pacer_seq_no e; pacer_doc_id := pacer_doc_id e;
     recap_sequence_number := recap_sequence_number e |}.

(** Python's [int()] on a docket-entry number: [None] raises [TypeError],
    a string is stripped of surrounding blanks and read as an optionally
    signed run of decimal digits, otherwise [ValueError] ([None] here).
    (Python also accepts [_] between digits; not modelled.) *)
Definition is_blank (c : Ascii.ascii) : bool :=
  match Ascii.nat_of_ascii c with
  | 32 | 9 | 10 | 11 | 12 | 13 => true
  | _ => false
  end.

Fixpoint strip_left (s : string) : string :=
  match s with
  | String c r => if is_blank c then strip_left r else s
  | EmptyString => EmptyString
  end.

Definition rev_string (s : string) : string :=
  string_of_list_ascii (rev (list_ascii_of_string s)).

Definition strip (s : string) : string :=
  rev_string (strip_left (rev_string (strip_left s))).

Fixpoint read_digits (s : string) (acc : nat) : option nat :=
  match s with
  | EmptyString => Some acc
  | String c r =>
      let k := Ascii.nat_of_ascii c in
      if Nat.leb 48 k && Nat.leb k 57 then read_digits r (acc * 10 + (k - 48))
      else None
  end.

Definition read_unsigned (s : string) : option nat :=
  match s with
  | EmptyString => None
  | _ => read_digits s 0
  end.

Definition py_int (o : option string) : option BinInt.Z :=
  match o with
  | None => None
  | Some s =>
      match strip s with
      | String c r =>
          if Ascii.eqb c "-"%char then
            option_map (fun n => BinInt.Z.opp (BinInt.Z.of_nat n)) (read_unsigned r)
          else if Ascii.eqb c "+"%char then
            option_map BinInt.Z.of_nat (read_unsigned r)
          else option_map BinInt.Z.of_nat (read_unsigned (String c r))
      | EmptyString => None
      end
  end.

Section Localize.

(** Conversion of a [datetime] to the court's local date and time. *)
Variable to_court_local : string -> date -> time -> date * time.

(** Modelled from the spec: [localize_date_and_time(court_id, date_filed)]
    of [cl.lib.timezone_helpers] ("court id for timezone normalization"):
    a [datetime] is normalised to the court's timezone and split in date
    and time; a plain [date] is returned with no time. *)
Definition localize_date_and_time (court : string) (o : option filed)
  : option date * option time :=
  match o with
  | Some (FDate d) => (Some d, None)
  | Some (FDateTime d t) =>
      let (d', t') := to_court_local court d t in (Some d', Some t')
  | None => (None, None)
  end.

End Localize.

End Entry.

(** ** [get_order_of_docket] and [calculate_recap_sequence_numbers] *)
Module Sequence.
Import Entry.

(** Modelled from the spec ("scan adjacent pairs"):
    [cl.lib.utils.previous_and_next], the [(previous, item, next)]
    triples of a list, with [None] before the first and after the last. *)
Fixpoint previous_and_next {A} (prev : option A) (l : list A)
  : list (option A * A * option A) :=
  match l with
  | [] => []
  | x :: rest => (prev, x, hd_error rest) :: previous_and_next (Some x) rest
  end.

Inductive order := Asc | Desc.

(** The [for] loop of [get_order_of_docket]; a failing [int()] (also
    [None["document_number"]] at the end) is a [continue]. *)
Fixpoint scan_order (triples : list (option entry_dict * entry_dict * option entry_dict))
  : option order :=
  match triples with
  | [] => None
  | (_, de, nxt) :: rest =>
      match py_int (document_number de),
            match nxt with Some n => py_int (document_number n) | None => None end
      with
      | Some cur, Some nx =>
          if Z.eqb cur nx then scan_order rest
          else if Z.ltb cur nx then Some Asc else Some Desc
      | _, _ => scan_order rest
      end
  end.

Definition get_order_of_docket (entries : list entry_dict) : option order :=
  scan_order (previous_and_next None entries).

Section Assign.

Variable to_court_local : string -> date -> time -> date * time.

(** The assignment loop; [prev] is the previous dict, already annotated,
    with its [recap_sequence_index].  [None] is the [AttributeError] of
    [None.isoformat()] on an entry without a date. *)
Fixpoint assign_sequence (court : string) (prev : option (entry_dict * nat))
  (l : list entry_dict) : option (list entry_dict) :=
  match l with
  | [] => Some []
  | de :: rest =>
      let cur := fst (localize_date_and_time to_court_local court (date_filed de)) in
      let idx :=
        match prev with
        | Some (p, i) =>
            let pd := fst (localize_date_and_time to_court_local court (date_filed p)) in
            match cur, pd with
            | Some c, Some q => if date_eqb c q then S i else 1
            | None, None => S i
            | _, _ => 1
            end
        | None => 1
        end in
      match cur with
      | None => None
      | Some c =>
          let de' := set_recap_sequence_number de (make_recap_sequence_number c idx) in
          match assign_sequence court (Some (de', idx)) rest with
          | Some rest' => Some (de' :: rest')
          | None => None
          end
      end
  end.

(** [calculate_recap_sequence_numbers]: the list is reversed in place when
    it is descending; the result is the annotated list, in its new order. *)
Definition calculate_recap_sequence_numbers (entries : list entry_dict)
  (court : string) : option (list entry_dict) :=
  let entries' :=
    match get_order_of_docket entries with
    | Some Desc => rev entries
    | _ => entries
    end in
  assign_sequence court None entries'.

End Assign.

End Sequence.

(** ** [add_docket_entries] and the docket-entry lookups *)
Module Entries.
Import Entry.

Record docket_entry := mkDE {
  de_pk : nat;
  de_docket : nat;
  entry_number : option string;
  pacer_sequence_number : option string;
  de_date_filed : option date;
  time_filed : option time;
  de_description : string;
  de_recap_sequence_number : string;
  de_date_created : nat
}.

(** The docket being merged (the in-memory object). *)
Record docket := mkDocket {
  d_pk : nat;
  d_court_id : string;
  d_date_last_filing : option date
}.

Section Merge.

(** The document table, which this part of the model treats abstractly:
    the descriptions of an entry's documents (read by the unnumbered-entry
    lookup), the cascade that deletes an entry's documents with it, and
    the document half of the loop body of [add_docket_entries] (the
    [RECAPDocument] lookup, creation and update, the tags, and the nested
    [merge_attachment_page_data]), which either lets the loop go on with
    an updated document table or raises ([None]).  None of it writes the
    docket's [date_last_filing] or the docket entries. *)
Variable docs : Type.
Variable rd_descriptions : docs -> nat -> list string.
Variable delete_entry_docs : docs -> nat -> docs.
Variable rd_part : docs -> docket -> entry_dict -> docket_entry -> bool -> option docs.

(** [normalize_long_description]: its two [re.sub] rewrites of the long
    description. *)
Variable normalize_description : string -> string.

Variable to_court_local : string -> date -> time -> date * time.

Record store := mkStore {
  entries : list docket_entry;
  documents : docs;
  (** the docket's [date_last_filing] column *)
  last_filing : option date;
  next_pk : nat
}.

Definition with_entries (s : store) (es : list docket_entry) : store :=
  mkStore es (documents s) (last_filing s) (next_pk s).

(** Deleting entries, with their documents. *)
Definition delete_entries (s : store) (p : docket_entry -> bool) : store :=
  mkStore (filter (fun e => negb (p e)) (entries s))
    (fold_left (fun ds e => delete_entry_docs ds (de_pk e))
       (filter p (entries s)) (documents s))
    (last_filing s) (next_pk s).

(** [de.save()]: update the row with that primary key, or insert it. *)
Definition save_entry (s : store) (e : docket_entry) : store :=
  if existsb (fun x => Nat.eqb (de_pk x) (de_pk e)) (entries s)
  then with_entries s (map (fun x => if Nat.eqb (de_pk x) (de_pk e) then e else x)
                         (entries s))
  else with_entries s (entries s ++ [e]).

(** A new, not yet saved [DocketEntry] with its primary key reserved. *)
Definition new_entry (s : store) (d : docket) (num seq : option string)
  : docket_entry * store :=
  (mkDE (next_pk s) (d_pk d) num seq None None "" "" (next_pk s),
   mkStore (entries s) (documents s) (last_filing s) (S (next_pk s))).

Definition pk_is (e : docket_entry) (x : docket_entry) : bool :=
  Nat.eqb (de_pk x) (de_pk e).

(** [add_create_docket_entry_transaction], for a numbered entry; [None] is
    the logged "multiple docket entries" failure. *)
Definition add_create_docket_entry_transaction (s : store) (d : docket)
  (de_in : entry_dict) : option (docket_entry * bool * store) :=
  let num := document_number de_in in
  let seq := pacer_seq_no de_in in
  let base (x : docket_entry) :=
    Nat.eqb (de_docket x) (d_pk d) && opt_str_eqb (entry_number x) num in
  let params (x : docket_entry) :=
    base x && match seq with
              | Some _ => opt_str_eqb (pacer_sequence_number x) seq
              | None => true
              end in
  let is_null (x : docket_entry) := base x && opt_str_eqb (pacer_sequence_number x) None in
  let null_rows := filter is_null (entries s) in
  let adopt_null (s : store) :=
    match latest_by de_date_created null_rows with
    | Some e => Some (e, false, delete_entries s (fun x => is_null x && negb (pk_is e x)))
    | None => None
    end in
  let create (s : store) :=
    let (e, s') := new_entry s d num seq in Some (e, true, save_entry s' e) in
  match django_get params (entries s) with
  | Got e => Some (e, false, s)
  | DoesNotExist =>
      match seq, null_rows with
      | Some _, _ :: _ => adopt_null s
      | _, _ => create s
      end
  | MultipleObjectsReturned =>
      match seq with
      | None => None
      | Some _ =>
          match django_get params (entries s) with
          | Got e => Some (e, false, delete_entries s is_null)
          | DoesNotExist =>
              match null_rows with
              | _ :: _ => adopt_null s
              | [] => create s
              end
          | MultipleObjectsReturned =>
              match latest_by de_date_created (filter params (entries s)) with
              | Some e =>
                  let s1 := delete_entries s (fun x => params x && negb (pk_is e x)) in
                  Some (e, false, delete_entries s1 is_null)
              | None => None
              end
          end
      end
  end.

(** The date a [date_filed] lookup compares a [DateField] with. *)
Definition filed_day (f : filed) : date :=
  match f with FDate d => d | FDateTime d _ => d end.

(** Number of rows the unnumbered-entry query returns for one entry: the
    [Q(recap_documents__description=...)] alternative joins the entry's
    documents (a left join), one row per document. *)
Definition unnumbered_rows (ds : docs) (de_in : entry_dict) (e : docket_entry) : nat :=
  let desc_ok :=
    match description de_in with
    | Some x => truthy (Some x) && String.eqb (de_description e) x
    | None => false
    end in
  match short_description de_in with
  | Some sd =>
      if truthy (Some sd) then
        match rd_descriptions ds (de_pk e) with
        | [] => if desc_ok then 1 else 0
        | rds => length (filter (fun r => desc_ok || String.eqb r sd) rds)
        end
      else if truthy (description de_in) then (if desc_ok then 1 else 0) else 1
  | None => if truthy (description de_in) then (if desc_ok then 1 else 0) else 1
  end.

(** [merge_unnumbered_docket_entries] over the matched entries [des]. *)
Definition merge_unnumbered_docket_entries (s : store) (des : list docket_entry)
  (de_in : entry_dict) : option (docket_entry * store) :=
  let in_des (x : docket_entry) := existsb (pk_is x) des in
  let long_ok (x : docket_entry) :=
    (match description de_in with
     | Some t => String.eqb (de_description x) t
     | None => false
     end) || String.eqb (de_description x) "" in
  let matched := filter long_ok des in
  match matched with
  | _ :: _ =>
      match earliest_by de_date_created matched with
      | Some w => Some (w, delete_entries s (fun x => in_des x && long_ok x && negb (pk_is w x)))
      | None => None
      end
  | [] =>
      match earliest_by de_date_created des with
      | Some w => Some (w, delete_entries s (fun x => in_des x && negb (pk_is w x)))
      | None => None
      end
  end.

(** [get_or_make_docket_entry]; it also returns the entry dict, whose
    description the unnumbered path normalises in place. *)
Definition get_or_make_docket_entry (s : store) (d : docket) (de_in : entry_dict)
  : option (docket_entry * bool * store * entry_dict) :=
  if truthy (document_number de_in) then
    match add_create_docket_entry_transaction s d de_in with
    | Some (e, created, s') => Some (e, created, s', de_in)
    | None => None
    end
  else
    let de_in' :=
      match description de_in with
      | Some x => if truthy (Some x) then set_description de_in (Some (normalize_description x))
                  else de_in
      | None => de_in
      end in
    let candidate (x : docket_entry) :=
      Nat.eqb (de_docket x) (d_pk d)
      && match date_filed de_in' with
         | Some f => match de_date_filed x with
                     | Some y => date_eqb y (filed_day f)
                     | None => false
                     end
         | None => match de_date_filed x with None => true | Some _ => false end
         end
      && opt_str_eqb (entry_number x) (document_number de_in') in
    let des := filter (fun x => candidate x
                                && Nat.ltb 0 (unnumbered_rows (documents s) de_in' x))
                 (entries s) in
    let count := list_sum (map (unnumbered_rows (documents s) de_in') (filter candidate (entries s))) in
    match count with
    | 0 =>
        let (e, s') := new_entry s d (document_number de_in') None in
        Some (e, true, s', de_in')
    | 1 =>
        match des with
        | e :: _ => Some (e, false, s, de_in')
        | [] => None
        end
    | _ =>
        match merge_unnumbered_docket_entries s des de_in' with
        | Some (e, s') => Some (e, false, s', de_in')
        | None => None
        end
    end.

(** The field updates of the loop body. *)
Definition update_entry_fields (court : string) (e : docket_entry) (de_in : entry_dict)
  : docket_entry :=
  let '(dt, tm) := localize_date_and_time to_court_local court (date_filed de_in) in
  let new_time :=
    match tm with
    | None =>
        let same := match de_date_filed e, date_filed de_in with
                    | Some x, Some (FDate y) => date_eqb x y
                    | None, None => true
                    | _, _ => false
                    end in
        if same then time_filed e else None
    | Some t => Some t
    end in
  mkDE (de_pk e) (de_docket e) (entry_number e)
    (if truthy (pacer_seq_no de_in) then pacer_seq_no de_in else pacer_sequence_number e)
    dt new_time
    (match description de_in with
     | Some x => if truthy (Some x) then x else de_description e
     | None => de_description e
     end)
    (match recap_sequence_number de_in with Some r => r | None => "" end)
    (de_date_created e).

(** The loop of [add_docket_entries].  The returned entries are paired
    with their [de_created] flag; [known] is [known_filing_dates]. *)
Fixpoint entries_loop (s : store) (d : docket) (do_not_update_existing : bool)
  (l : list entry_dict) (returned : list (docket_entry * bool))
  (known : list (option date)) (content_updated : bool)
  : option (list (docket_entry * bool) * list (option date) * bool * store * bool) :=
  match l with
  | [] => Some (returned, known, content_updated, s, false)
  | de_in :: rest =>
      match get_or_make_docket_entry s d de_in with
      | None => entries_loop s d do_not_update_existing rest returned known content_updated
      | Some (e0, created, s1, de_in') =>
          let e := update_entry_fields (d_court_id d) e0 de_in' in
          let returned' := returned ++ [(e, created)] in
          if do_not_update_existing && negb created then
            (* early [return]: the last flag marks it *)
            Some (returned', known, content_updated, s1, true)
          else
            let s2 := save_entry s1 e in
            let known' := if created then known ++ [de_date_filed e] else known in
            let cu := content_updated || created in
            match rd_part (documents s2) d de_in' e created with
            | None => None
            | Some ds =>
                entries_loop (mkStore (entries s2) ds (last_filing s2) (next_pk s2))
                  d do_not_update_existing rest returned' known' cu
            end
      end
  end.

Definition max_date (a b : date) : date := if date_ltb a b then b else a.

(** [max(set(filter(None, known_filing_dates)))], when not empty. *)
Fixpoint max_known (l : list (option date)) : option date :=
  match l with
  | [] => None
  | None :: rest => max_known rest
  | Some x :: rest =>
      match max_known rest with
      | Some y => Some (max_date x y)
      | None => Some x
      end
  end.

(** [add_docket_entries]: [None] is a propagated exception; otherwise the
    returned entries (with their created flags), [content_updated] and the
    final tables. *)
Definition add_docket_entries (s : store) (d : docket) (l : list entry_dict)
  (do_not_update_existing : bool)
  : option (list (docket_entry * bool) * bool * store) :=
  let l1 := filter (fun x => match date_filed x with Some _ => true | None => false end) l in
  match Sequence.calculate_recap_sequence_numbers to_court_local l1 (d_court_id d) with
  | None => None
  | Some l2 =>
      match entries_loop s d do_not_update_existing l2 [] [d_date_last_filing d] false with
      | None => None
      | Some (returned, known, cu, s', true) => Some (returned, cu, s')
      | Some (returned, known, cu, s', false) =>
          match max_known known with
          | Some m => Some (returned, cu, mkStore (entries s') (documents s') (Some m) (next_pk s'))
          | None => Some (returned, cu, s')
          end
      end
  end.

End Merge.

End Entries.

(** ** [add_parties_and_attorneys] and [disassociate_extraneous_entities] *)
Module Parties.
Import Entry.

(** [Role.role] *)
Inductive role_kind :=
| ATTORNEY_LEAD | ATTORNEY_TO_BE_NOTICED | ATTORNEY_IN_SEARCH | PRO_HAC_VICE
| SELF_TERMINATED | TERMINATED | SUSPENDED | INACTIVE | DISBARRED | UNKNOWN.

Definition role_kind_eqb (a b : role_kind) : bool :=
  match a, b with
  | ATTORNEY_LEAD, ATTORNEY_LEAD | ATTORNEY_TO_BE_NOTICED, ATTORNEY_TO_BE_NOTICED
  | ATTORNEY_IN_SEARCH, ATTORNEY_IN_SEARCH | PRO_HAC_VICE, PRO_HAC_VICE
  | SELF_TERMINATED, SELF_TERMINATED | TERMINATED, TERMINATED
  | SUSPENDED, SUSPENDED | INACTIVE, INACTIVE | DISBARRED, DISBARRED
  | UNKNOWN, UNKNOWN => true
  | _, _ => false
  end.

Definition is_terminated_role (r : role_kind) : bool :=
  role_kind_eqb r TERMINATED || role_kind_eqb r SELF_TERMINATED.

Definition opt_date_eqb (a b : option date) : bool :=
  match a, b with
  | Some x, Some y => date_eqb x y
  | None, None => true
  | _, _ => false
  end.

(** A normalised role dict: [role], [date_action], [role_raw]. *)
Record role_dict := mkRoleDict {
  rd_role : role_kind;
  rd_date_action : option date;
  rd_role_raw : option string
}.

Definition role_dict_eqb (a b : role_dict) : bool :=
  role_kind_eqb (rd_role a) (rd_role b)
  && opt_date_eqb (rd_date_action a) (rd_date_action b)
  && opt_str_eqb (rd_role_raw a) (rd_role_raw b).

(** Attorney and party dicts from juriscraper. *)
Record atty_in := mkAtty {
  a_name : string;
  a_contact : string;
  a_roles : list string
}.

Record party_in := mkParty {
  p_name : string;
  p_type : string;
  p_extra_info : option string;
  p_date_terminated : option date;
  (** [criminal_data]'s highest offense levels, when present *)
  p_criminal_levels : option (string * string);
  p_attorneys : list atty_in
}.

(** The same dicts after [normalize_attorney_roles]. *)
Record atty_norm := mkAttyN {
  an_name : string;
  an_contact : string;
  an_roles : list role_dict
}.

Record party_norm := mkPartyN {
  pn_name : string;
  pn_type : string;
  pn_extra_info : option string;
  pn_date_terminated : option date;
  pn_criminal_levels : option (string * string);
  pn_attorneys : list atty_norm
}.

(** Rows. *)
Record party := mkP { party_pk : nat; party_name : string; party_date_created : nat }.
Record attorney := mkA { atty_pk : nat; atty_name : string; atty_contact_raw : string;
                         atty_email : string; atty_phone : string; atty_fax : string;
                         atty_date_created : nat }.

(** The contact details [normalize_attorney_contact] extracts; [None] is
    its empty (falsy) dict. *)
Record atty_info := mkAttyInfo { ai_email : string; ai_phone : string; ai_fax : string }.
Record party_type := mkPT {
  pt_pk : nat; pt_docket : nat; pt_party : nat; pt_name : string;
  pt_extra_info : string; pt_date_terminated : option date;
  pt_highest_offense_level_opening : string;
  pt_highest_offense_level_terminated : string
}.
Record role := mkR {
  role_pk : nat; role_attorney : nat; role_party : nat; role_docket : nat;
  role_role : role_kind; role_date_action : option date; role_raw : option string
}.

Record store := mkStore {
  parties : list party;
  attorneys : list attorney;
  party_types : list party_type;
  roles : list role;
  next_pk : nat
}.

Definition set_parties s l := mkStore l (attorneys s) (party_types s) (roles s) (next_pk s).
Definition set_attorneys s l := mkStore (parties s) l (party_types s) (roles s) (next_pk s).
Definition set_party_types s l := mkStore (parties s) (attorneys s) l (roles s) (next_pk s).
Definition set_roles s l := mkStore (parties s) (attorneys s) (party_types s) l (next_pk s).
Definition bump s := mkStore (parties s) (attorneys s) (party_types s) (roles s) (S (next_pk s)).

Definition mem (x : nat) (l : list nat) : bool := existsb (Nat.eqb x) l.

(** Modelled from the spec: [remove_duplicate_dicts] of [cl.lib.utils]
    ("exact duplicate (role, date) pairs removed"); the spec fixes no
    order, the model keeps the first of equal dicts. *)
Fixpoint dedup_from (seen : list role_dict) (l : list role_dict) : list role_dict :=
  match l with
  | [] => []
  | x :: rest =>
      if existsb (role_dict_eqb x) seen then dedup_from seen rest
      else x :: dedup_from (x :: seen) rest
  end.

Definition remove_duplicate_dicts (l : list role_dict) : list role_dict :=
  dedup_from [] l.

Section Reconcile.

(** [normalize_attorney_role] of [cl.lib.pacer]: a free-text role to a
    role dict. *)
Variable normalize_attorney_role : string -> role_dict.

(** [normalize_attorney_contact(contact, fallback_name=name)] of
    [cl.lib.pacer], the attorney-info half of its result. *)
Variable normalize_attorney_contact : string -> string -> option atty_info.

Definition normalize_attorney_roles (ps : list party_in) : list party_norm :=
  map (fun p =>
         mkPartyN (p_name p) (p_type p) (p_extra_info p) (p_date_terminated p)
           (p_criminal_levels p)
           (map (fun a => mkAttyN (a_name a) (a_contact a)
                            (remove_duplicate_dicts (map normalize_attorney_role (a_roles a))))
              (p_attorneys p)))
    ps.

(** [add_attorney]: find or create the attorney among those with a role
    on the docket, update and save its contact details when the incoming
    contact is non-empty and normalises to some details, then replace its
    roles for this party and docket.  (Its organisation goes to tables
    the model leaves out.) *)
Definition add_attorney (s : store) (atty : atty_norm) (p d : nat) : nat * store :=
  let atty_info := normalize_attorney_contact (an_contact atty) (an_name atty) in
  let on_docket (a : attorney) :=
    String.eqb (atty_name a) (an_name atty)
    && existsb (fun r => Nat.eqb (role_attorney r) (atty_pk a) && Nat.eqb (role_docket r) d)
         (roles s) in
  let '(a, s1) :=
    match filter on_docket (attorneys s) with
    | [] =>
        let a := mkA (next_pk s) (an_name atty) (an_contact atty) "" "" "" (next_pk s) in
        (a, bump (set_attorneys s (attorneys s ++ [a])))
    | [a] => (a, s)
    | l => match earliest_by atty_date_created l with
           | Some a => (a, s)
           | None => (mkA 0 "" "" "" "" "" 0, s)
           end
    end in
  let '(a, s1) :=
    if negb (String.eqb (an_contact atty) "") then
      match atty_info with
      | Some info =>
          let a' := mkA (atty_pk a) (atty_name a) (an_contact atty)
                      (ai_email info) (ai_phone info) (ai_fax info) (atty_date_created a) in
          (a', set_attorneys s1 (map (fun y => if Nat.eqb (atty_pk y) (atty_pk a) then a' else y)
                                   (attorneys s1)))
      | None => (a, s1)
      end
    else (a, s1) in
  let rs := match an_roles atty with
            | [] => [mkRoleDict UNKNOWN None None]
            | l => l
            end in
  let kept := filter (fun r => negb (Nat.eqb (role_attorney r) (atty_pk a)
                                      && Nat.eqb (role_party r) p
                                      && Nat.eqb (role_docket r) d))
                (roles s1) in
  let fix mk (n : nat) (l : list role_dict) : list role :=
    match l with
    | [] => []
    | x :: t => mkR n (atty_pk a) p d (rd_role x) (rd_date_action x) (rd_role_raw x)
                  :: mk (S n) t
    end in
  let created := mk (next_pk s1) rs in
  (atty_pk a,
   mkStore (parties s1) (attorneys s1) (party_types s1) (kept ++ created)
     (next_pk s1 + length rs)).

(** The per-party body of the [for party in local_parties] loop. *)
Definition add_party (s : store) (d : nat) (pin : party_norm) : nat * list nat * store :=
  let on_docket (p : party) :=
    String.eqb (party_name p) (pn_name pin)
    && existsb (fun pt => Nat.eqb (pt_party pt) (party_pk p) && Nat.eqb (pt_docket pt) d)
         (party_types s) in
  let '(p, s1) :=
    match filter on_docket (parties s) with
    | [] =>
        let p := mkP (next_pk s) (pn_name pin) (next_pk s) in
        (p, bump (set_parties s (parties s ++ [p])))
    | [p] => (p, s)
    | l => match earliest_by party_date_created l with
           | Some p => (p, s)
           | None => (mkP 0 "" 0, s)
           end
    end in
  let extra := match pn_extra_info pin with Some x => x | None => "" end in
  let upd (pt : party_type) :=
    mkPT (pt_pk pt) (pt_docket pt) (pt_party pt) (pt_name pt) extra
      (pn_date_terminated pin)
      (match pn_criminal_levels pin with
       | Some (o, _) => o | None => pt_highest_offense_level_opening pt end)
      (match pn_criminal_levels pin with
       | Some (_, t) => t | None => pt_highest_offense_level_terminated pt end) in
  let sel (pt : party_type) :=
    Nat.eqb (pt_party pt) (party_pk p) && Nat.eqb (pt_docket pt) d
    && String.eqb (pt_name pt) (pn_type pin) in
  let s2 :=
    if existsb sel (party_types s1)
    then set_party_types s1 (map (fun pt => if sel pt then upd pt else pt) (party_types s1))
    else
      let pt := upd (mkPT (next_pk s1) d (party_pk p) (pn_type pin) "" None "" "") in
      bump (set_party_types s1 (party_types s1 ++ [pt])) in
  let '(attys, s3) :=
    fold_left (fun acc a => let '(ids, st) := acc in
                            let '(id, st') := add_attorney st a (party_pk p) d in
                            (ids ++ [id], st'))
      (pn_attorneys pin) ([], s2) in
  (party_pk p, attys, s3).

(** [check_json_for_terminated_entities] *)
Definition check_json_for_terminated_entities (ps : list party_norm) : bool :=
  existsb (fun p =>
             match pn_date_terminated p with Some _ => true | None => false end
             || existsb (fun a => existsb (fun r => is_terminated_role (rd_role r)) (an_roles a))
                  (pn_attorneys p))
    ps.

(** [get_terminated_entities]: parties of the docket with a terminated
    party type on it, and the attorneys of the docket's parties with a
    terminated role on the docket.  An attorney of a party is one with a
    role for that party (the prefetch's M2M filter makes its own join, so
    on any docket) and a role on the docket. *)
Definition docket_party_ids (s : store) (d : nat) : list nat :=
  map party_pk (filter (fun p => existsb (fun pt => Nat.eqb (pt_party pt) (party_pk p)
                                                   && Nat.eqb (pt_docket pt) d)
                                   (party_types s))
                  (parties s)).

Definition terminated_party_ids (s : store) (d : nat) : list nat :=
  filter (fun p => existsb (fun pt => Nat.eqb (pt_party pt) p && Nat.eqb (pt_docket pt) d
                                      && match pt_date_terminated pt with
                                         | Some _ => true | None => false end)
                     (party_types s))
    (docket_party_ids s d).

Definition terminated_attorney_ids (s : store) (d : nat) : list nat :=
  let dp := docket_party_ids s d in
  map atty_pk
    (filter (fun a =>
               existsb (fun r => Nat.eqb (role_attorney r) (atty_pk a)
                                 && mem (role_party r) dp) (roles s)
               && existsb (fun r => Nat.eqb (role_attorney r) (atty_pk a)
                                    && Nat.eqb (role_docket r) d) (roles s)
               && existsb (fun r => Nat.eqb (role_attorney r) (atty_pk a)
                                    && Nat.eqb (role_docket r) d
                                    && is_terminated_role (role_role r)) (roles s))
       (attorneys s)).

(** [disassociate_extraneous_entities] *)
Definition disassociate_extraneous_entities (s : store) (d : nat) (ps : list party_norm)
  (parties_to_preserve attorneys_to_preserve : list nat) : store :=
  let '(pp, ap, tp) :=
    if check_json_for_terminated_entities ps then (parties_to_preserve, attorneys_to_preserve, [])
    else
      let tp := terminated_party_ids s d in
      let ta := terminated_attorney_ids s d in
      match tp, ta with
      | [], [] => (parties_to_preserve, attorneys_to_preserve, tp)
      | _, _ => (parties_to_preserve ++ tp, attorneys_to_preserve ++ ta, tp)
      end in
  let s1 := set_party_types s (filter (fun pt => negb (Nat.eqb (pt_docket pt) d)
                                                 || mem (pt_party pt) pp) (party_types s)) in
  set_roles s1 (filter (fun r => negb (Nat.eqb (role_docket r) d)
                                 || mem (role_attorney r) ap || mem (role_party r) tp)
                  (roles s1)).

(** [add_parties_and_attorneys]; [None] for the parties stands for a
    Python [None]. *)
Definition add_parties_and_attorneys (s : store) (d : nat) (ps : option (list party_in))
  : store :=
  match ps with
  | None | Some [] => s
  | Some ps =>
      let local := normalize_attorney_roles ps in
      let '(up, ua, s') :=
        fold_left (fun acc party =>
                     let '(up, ua, st) := acc in
                     let '(pid, aids, st') := add_party st d party in
                     (up ++ [pid], ua ++ aids, st'))
          local ([], [], s) in
      disassociate_extraneous_entities s' d local up ua
  end.

End Reconcile.

End Parties.

(** ** [merge_attachment_page_data] *)
Module Attachments.

Inductive doc_type := PACER_DOCUMENT | ATTACHMENT.

Definition doc_type_eqb (a b : doc_type) : bool :=
  match a, b with
  | PACER_DOCUMENT, PACER_DOCUMENT | ATTACHMENT, ATTACHMENT => true
  | _, _ => false
  end.

Record rd := mkRD {
  rd_pk : nat;
  rd_entry : nat;
  document_type : doc_type;
  attachment_number : option nat;
  pacer_doc_id : string;
  document_number : string;
  description : string;
  page_count : option nat;
  file_size : option nat;
  is_available : bool;
  filepath_local : string;
  acms_document_guid : option string;
  rd_date_created : nat
}.

(** The docket an entry belongs to: its court and [pacer_case_id]. *)
Record entry_info := mkEI { ei_entry : nat; ei_court : string; ei_case : option string }.

Record store := mkStore {
  rds : list rd;
  entry_dockets : list entry_info;
  next_pk : nat
}.

(** Exceptions that leave the function. *)
Inductive error := EDoesNotExist | EMultipleObjectsReturned | EAttributeError
                 | EKeyError | EValueError.

Inductive result (A : Type) := Ok (a : A) | Err (e : error).
Arguments Ok {A} a.
Arguments Err {A} e.

(** A parsed attachment dict; each key is [None] when absent, [Some None]
    when it holds Python [None]. *)
Record att_dict := mkAtt {
  at_attachment_number : option (option nat);
  at_pacer_doc_id : option (option string);
  at_page_count : option (option nat);
  at_description : option (option string);
  at_file_size_bytes : option (option nat);
  at_file_size_str : option (option string);
  at_acms_document_guid : option (option string)
}.

(** [dict.get(key)] *)
Definition get {A} (o : option (option A)) : option A :=
  match o with Some (Some x) => Some x | _ => None end.

Definition set_rd_type (r : rd) (t : doc_type) (n : option nat) : rd :=
  mkRD (rd_pk r) (rd_entry r) t n (pacer_doc_id r) (document_number r) (description r)
    (page_count r) (file_size r) (is_available r) (filepath_local r)
    (acms_document_guid r) (rd_date_created r).

Definition set_rd_description (r : rd) (x : string) : rd :=
  mkRD (rd_pk r) (rd_entry r) (document_type r) (attachment_number r) (pacer_doc_id r)
    (document_number r) x (page_count r) (file_size r) (is_available r)
    (filepath_local r) (acms_document_guid r) (rd_date_created r).

Definition set_rd_pacer_doc_id (r : rd) (x : string) : rd :=
  mkRD (rd_pk r) (rd_entry r) (document_type r) (attachment_number r) x
    (document_number r) (description r) (page_count r) (file_size r) (is_available r)
    (filepath_local r) (acms_document_guid r) (rd_date_created r).

Definition set_rd_document_number (r : rd) (x : string) : rd :=
  mkRD (rd_pk r) (rd_entry r) (document_type r) (attachment_number r) (pacer_doc_id r)
    x (description r) (page_count r) (file_size r) (is_available r)
    (filepath_local r) (acms_document_guid r) (rd_date_created r).

Definition set_rd_page_count (r : rd) (x : option nat) : rd :=
  mkRD (rd_pk r) (rd_entry r) (document_type r) (attachment_number r) (pacer_doc_id r)
    (document_number r) (description r) x (file_size r) (is_available r)
    (filepath_local r) (acms_document_guid r) (rd_date_created r).

Definition set_rd_file_size (r : rd) (x : option nat) : rd :=
  mkRD (rd_pk r) (rd_entry r) (document_type r) (attachment_number r) (pacer_doc_id r)
    (document_number r) (description r) (page_count r) x (is_available r)
    (filepath_local r) (acms_document_guid r) (rd_date_created r).

Definition set_rd_guid (r : rd) (x : option string) : rd :=
  mkRD (rd_pk r) (rd_entry r) (document_type r) (attachment_number r) (pacer_doc_id r)
    (document_number r) (description r) (page_count r) (file_size r) (is_available r)
    (filepath_local r) x (rd_date_created r).

(** [rd.save()]: update the row with that primary key, or insert it. *)
Definition save_rd (s : store) (r : rd) : store :=
  if existsb (fun x => Nat.eqb (rd_pk x) (rd_pk r)) (rds s)
  then mkStore (map (fun x => if Nat.eqb (rd_pk x) (rd_pk r) then r else x) (rds s))
         (entry_dockets s) (next_pk s)
  else mkStore (rds s ++ [r]) (entry_dockets s) (next_pk s).

Definition delete_rds (s : store) (p : rd -> bool) : store :=
  mkStore (filter (fun x => negb (p x)) (rds s)) (entry_dockets s) (next_pk s).

(** A new, unsaved [RECAPDocument], its primary key reserved. *)
Definition new_rd (s : store) (entry : nat) (t : doc_type) (n : option nat)
  (pacer docnum desc : string) (guid : option string) : rd * store :=
  (mkRD (next_pk s) entry t n pacer docnum desc None None false "" guid (next_pk s),
   mkStore (rds s) (entry_dockets s) (S (next_pk s))).

(** [docket_entry__docket__court] and [docket_entry__docket__pacer_case_id]. *)
Definition entry_in_case (s : store) (court : string) (case : option string) (e : nat) : bool :=
  existsb (fun ei => Nat.eqb (ei_entry ei) e && String.eqb (ei_court ei) court
                     && (if truthy case then opt_str_eqb (ei_case ei) case else true))
    (entry_dockets s).

(** The main-document lookup [params]. *)
Definition main_params (s : store) (court : string) (case : option string) (pacer : string)
  (r : rd) : bool :=
  String.eqb (pacer_doc_id r) pacer && entry_in_case s court case (rd_entry r).

Definition has_pdf (r : rd) : bool :=
  is_available r && negb (String.eqb (filepath_local r) "").

(** [keep_latest_rd_document] on the rows selected by [p]. *)
Definition keep_latest_rd_document (s : store) (p : rd -> bool) : result (rd * store) :=
  let rows := filter p (rds s) in
  let pick := match filter has_pdf rows with
              | [] => latest_by rd_date_created rows
              | l => latest_by rd_date_created l
              end in
  match pick with
  | Some r => Ok (r, delete_rds s (fun x => p x && negb (Nat.eqb (rd_pk x) (rd_pk r))))
  | None => Err EDoesNotExist
  end.

Definition clean_duplicate_documents := keep_latest_rd_document.

(** [queryset.afirst()] on a queryset ordered by [lt]: the first row in
    that order, ties kept in table order; [None] on an empty queryset. *)
Fixpoint first_by {A} (lt : A -> A -> bool) (l : list A) : option A :=
  match l with
  | [] => None
  | x :: rest =>
      match first_by lt rest with
      | None => Some x
      | Some y => if lt y x then Some y else Some x
      end
  end.

Section Merge.

(** [ais_appellate_court], [is_long_appellate_document_number] and
    [convert_size_to_bytes] (whose [ValueError] is [None]). *)
Variable ais_appellate_court : string -> bool.
Variable is_long_appellate_document_number : string -> bool.
Variable convert_size_to_bytes : string -> option nat.

(** The default ordering of [RECAPDocument] (its [Meta.ordering], defined
    outside this file), which [afirst()] follows: [rd_ordering_lt a b] when
    [a] comes strictly before [b]. *)
Variable rd_ordering_lt : rd -> rd -> bool.

(** The [attachment.get("attachment_number", 0) != 0] promotion of the
    fallback lookup. *)
Definition fallback_promote (m : rd) (a : att_dict) : rd * string :=
  match at_attachment_number a with
  | None | Some (Some 0) => (m, "")
  | Some n => (set_rd_type m ATTACHMENT n, description m)
  end.

(** The [for attachment in attachment_dicts] search of the
    [DoesNotExist] handler; [Ok None] is "not found". *)
Fixpoint fallback_search (s : store) (court : string) (case : option string)
  (cur : string) (atts : list att_dict) : result (option (rd * string * store)) :=
  match atts with
  | [] => Ok None
  | a :: rest =>
      let cur' := match at_pacer_doc_id a with
                  | Some (Some p) => if truthy (Some p) then p else cur
                  | _ => cur
                  end in
      let found (m : rd) (s : store) :=
        let '(m', mig) := fallback_promote m a in
        Ok (Some (m', mig, save_rd s m')) in
      match django_get (main_params s court case cur') (rds s) with
      | Got m => found m s
      | MultipleObjectsReturned =>
          if truthy case then
            match clean_duplicate_documents s (main_params s court case cur') with
            | Ok (_, s1) =>
                match django_get (main_params s1 court case cur') (rds s1) with
                | Got m => found m s1
                | DoesNotExist => Err EDoesNotExist
                | MultipleObjectsReturned => Err EMultipleObjectsReturned
                end
            | Err e => Err e
            end
          else Err EMultipleObjectsReturned
      | DoesNotExist => fallback_search s court case cur' rest
      end
  end.

(** The [try]/[except] that resolves the main document: the main
    document, the documents created so far, and the tables. *)
Definition resolve_main_rd (s : store) (court : string) (case : option string)
  (pacer : string) (atts : list att_dict) (is_acms : bool)
  : result (rd * list rd * store) :=
  if is_acms then
    match first_by rd_ordering_lt (filter (main_params s court case pacer) (rds s)) with
    | Some m => Ok (m, [], s)
    | None => Err EAttributeError
    end
  else
    match django_get (main_params s court case pacer) (rds s) with
    | Got m => Ok (m, [], s)
    | MultipleObjectsReturned =>
        if truthy case then
          match clean_duplicate_documents s (main_params s court case pacer) with
          | Ok (_, s1) =>
              match django_get (main_params s1 court case pacer) (rds s1) with
              | Got m => Ok (m, [], s1)
              | DoesNotExist => Err EDoesNotExist
              | MultipleObjectsReturned => Err EMultipleObjectsReturned
              end
          | Err e => Err e
          end
        else Err EMultipleObjectsReturned
    | DoesNotExist =>
        match fallback_search s court case pacer atts with
        | Err e => Err e
        | Ok None => Err EDoesNotExist
        | Ok (Some (m, mig, s1)) =>
            let '(r, s2) := new_rd s1 (rd_entry m) PACER_DOCUMENT None pacer
                              (document_number m) mig None in
            Ok (m, [r], save_rd s2 r)
        end
    end.

(** The two [continue] checks at the top of the attachment loop. *)
Definition skip_attachment (a : att_dict) : bool :=
  negb (match get (at_attachment_number a) with Some _ => true | None => false end
        && truthy (get (at_pacer_doc_id a)))
  || (match at_page_count a with Some None => true | _ => false end
      && match get (at_attachment_number a) with Some 0 => false | _ => true end).

(** [old_main_rd]'s description, or [""]. *)
Definition migrated_main_description (s : store) (de : nat) : string :=
  match django_get (fun r => Nat.eqb (rd_entry r) de
                             && doc_type_eqb (document_type r) PACER_DOCUMENT) (rds s) with
  | Got o => description o
  | _ => ""
  end.

Record loop_state := mkLS {
  ls_store : store;
  ls_main : rd;            (** the in-memory [main_rd] *)
  ls_main_to_att : bool;
  ls_affected : list rd;
  ls_created : list rd
}.

(** The field updates after the lookup: description, [pacer_doc_id],
    appellate document number, page count and file size. *)
Definition update_fields (r : rd) (d : option string) (a : att_dict)
  (court pacer docnum : string) : rd :=
  let r1 := if truthy d && doc_type_eqb (document_type r) ATTACHMENT
            then set_rd_description r (match d with Some x => x | None => "" end)
            else r in
  let r2 := match get (at_pacer_doc_id a) with
            | Some p => if truthy (Some p) then set_rd_pacer_doc_id r1 p else r1
            | None => r1
            end in
  let r3 := if ais_appellate_court court && is_long_appellate_document_number docnum
            then set_rd_document_number r2 pacer else r2 in
  let r4 := match page_count r3, get (at_page_count a) with
            | None, Some (S k) => set_rd_page_count r3 (Some (S k))
            | _, _ => r3
            end in
  match get (at_file_size_bytes a) with
  | Some b => set_rd_file_size r4 (Some b)
  | None =>
      match file_size r4, get (at_file_size_str a) with
      | None, Some fs =>
          if truthy (Some fs) then
            match convert_size_to_bytes fs with
            | Some b => set_rd_file_size r4 (Some b)
            | None => r4
            end
          else r4
      | _, _ => r4
      end
  end.

(** [rds_affected.append(rd)], the updates, and the save.  [alias] says
    whether [r] is the [main_rd] object itself. *)
Definition finish_attachment (st : loop_state) (r : rd) (alias created : bool)
  (a : att_dict) (court pacer docnum : string) : result loop_state :=
  match at_description a with
  | None => Err EKeyError
  | Some d =>
      let r5 := update_fields r d a court pacer docnum in
      Ok (mkLS (save_rd (ls_store st) r5)
            (if alias then r5 else ls_main st)
            (ls_main_to_att st)
            (ls_affected st ++ [r5])
            (if created then ls_created st ++ [r5] else ls_created st))
  end.

(** One attachment that passed the checks, number [n], id [p]. *)
Definition process_attachment (st : loop_state) (a : att_dict) (n : nat) (p : string)
  (de : nat) (court pacer docnum : string) : result loop_state :=
  let s := ls_store st in
  let m := ls_main st in
  let guid_ok (r : rd) :=
    match at_acms_document_guid a with
    | Some g => opt_str_eqb (acms_document_guid r) g
    | None => true
    end in
  if ais_appellate_court court && String.eqb p (pacer_doc_id m)
     && negb (ls_main_to_att st) then
    let m1 := set_rd_type m ATTACHMENT (Some n) in
    let m2 := match at_acms_document_guid a with
              | Some g => set_rd_guid m1 g
              | None => m1
              end in
    finish_attachment (mkLS s m2 true (ls_affected st) (ls_created st)) m2 true false
      a court pacer docnum
  else
    let params (r : rd) :=
      Nat.eqb (rd_entry r) de && String.eqb (document_number r) docnum
      && (if Nat.eqb n 0 then doc_type_eqb (document_type r) PACER_DOCUMENT
          else opt_nat_eqb (attachment_number r) (Some n)
               && doc_type_eqb (document_type r) ATTACHMENT)
      && guid_ok r in
    match django_get params (rds s) with
    | Got r => finish_attachment st r false false a court pacer docnum
    | MultipleObjectsReturned => Err EMultipleObjectsReturned
    | DoesNotExist =>
        let doc_id_params (r : rd) :=
          Nat.eqb (rd_entry r) de
          && (if ais_appellate_court court && is_long_appellate_document_number docnum
              then true else String.eqb (document_number r) docnum)
          && guid_ok r && String.eqb (pacer_doc_id r) p in
        match django_get doc_id_params (rds s) with
        | Got r =>
            let r' := if Nat.eqb n 0
                      then set_rd_type (set_rd_description r (migrated_main_description s de))
                             PACER_DOCUMENT None
                      else set_rd_type r ATTACHMENT (Some n) in
            finish_attachment st r' false false a court pacer docnum
        | MultipleObjectsReturned => Err EMultipleObjectsReturned
        | DoesNotExist =>
            let '(r, s1) :=
              new_rd s de (if Nat.eqb n 0 then PACER_DOCUMENT else ATTACHMENT)
                (if Nat.eqb n 0 then None else Some n) "" docnum
                (if Nat.eqb n 0 then migrated_main_description s de else "")
                (match at_acms_document_guid a with Some g => g | None => None end) in
            finish_attachment (mkLS s1 m (ls_main_to_att st) (ls_affected st) (ls_created st))
              r false true a court pacer docnum
        end
    end.

Fixpoint attachment_loop (st : loop_state) (atts : list att_dict) (de : nat)
  (court pacer docnum : string) : result loop_state :=
  match atts with
  | [] => Ok st
  | a :: rest =>
      if skip_attachment a then attachment_loop st rest de court pacer docnum
      else
        match get (at_attachment_number a), get (at_pacer_doc_id a) with
        | Some n, Some p =>
            match process_attachment st a n p de court pacer docnum with
            | Ok st' => attachment_loop st' rest de court pacer docnum
            | Err e => Err e
            end
        | _, _ => attachment_loop st rest de court pacer docnum
        end
  end.

(** [clean_duplicate_attachment_entries] *)
Definition dupe_doc_ids (s : store) (de : nat) : list string :=
  let rows := filter (fun r => Nat.eqb (rd_entry r) de) (rds s) in
  filter (fun p => Nat.ltb 1 (length (filter (fun r => String.eqb (pacer_doc_id r) p) rows)))
    (map pacer_doc_id rows).

Definition in_dupes (s : store) (de : nat) (r : rd) : bool :=
  Nat.eqb (rd_entry r) de && existsb (String.eqb (pacer_doc_id r)) (dupe_doc_ids s de).

(** The first pass: every dupe whose id is an attachment's id but whose
    number differs is deleted; deleting the same object a second time
    raises [ValueError] (Django clears its [pk]). *)
Fixpoint delete_mismatched (s : store) (dupe : rd) (deleted : bool) (atts : list att_dict)
  : result (store * bool) :=
  match atts with
  | [] => Ok (s, deleted)
  | a :: rest =>
      match at_attachment_number a, at_pacer_doc_id a with
      | Some n, Some p =>
          if opt_str_eqb (Some (pacer_doc_id dupe)) p
             && negb (opt_nat_eqb (attachment_number dupe) n) then
            if deleted then Err EValueError
            else delete_mismatched (delete_rds s (fun x => Nat.eqb (rd_pk x) (rd_pk dupe)))
                   dupe true rest
          else delete_mismatched s dupe deleted rest
      | _, _ => Err EKeyError
      end
  end.

Fixpoint first_pass (s : store) (dupes : list rd) (atts : list att_dict) : result store :=
  match dupes with
  | [] => Ok s
  | d :: rest =>
      match delete_mismatched s d false atts with
      | Ok (s', _) => first_pass s' rest atts
      | Err e => Err e
      end
  end.

Fixpoint second_pass (s : store) (de : nat) (dupes : list rd) : result store :=
  match dupes with
  | [] => Ok s
  | d :: rest =>
      match keep_latest_rd_document s
              (fun x => Nat.eqb (rd_entry x) de && String.eqb (pacer_doc_id x) (pacer_doc_id d)) with
      | Ok (_, s') => second_pass s' de rest
      | Err e => Err e
      end
  end.

Definition clean_duplicate_attachment_entries (s : store) (de : nat) (atts : list att_dict)
  : result store :=
  match dupe_doc_ids s de with
  | [] => Ok s
  | _ =>
      match first_pass s (filter (in_dupes s de) (rds s)) atts with
      | Err e => Err e
      | Ok s1 =>
          match dupe_doc_ids s1 de with
          | [] => Ok s1
          | _ => second_pass s1 de (filter (in_dupes s1 de) (rds s1))
          end
      end
  end.

(** [merge_attachment_page_data].  The archived page, the upload flag of
    [mark_ia_upload_needed] and [process_orphan_documents] write outside
    the document table and are left out.  The result is the affected
    documents, the entry, and the tables. *)
Definition merge_attachment_page_data (s : store) (court : string) (case : option string)
  (pacer : string) (document_number_in : option string) (atts : list att_dict)
  (debug is_acms : bool) : result (list rd * nat * store) :=
  match resolve_main_rd s court case pacer atts is_acms with
  | Err e => Err e
  | Ok (m, created, s1) =>
      let de := rd_entry m in
      let docnum := match document_number_in with
                    | Some x => x
                    | None => document_number m
                    end in
      if debug then Ok ([], de, s1)
      else
        match attachment_loop (mkLS s1 m false created created) atts de court pacer docnum with
        | Err e => Err e
        | Ok st =>
            if is_acms then Ok (ls_affected st, de, ls_store st)
            else
              match clean_duplicate_attachment_entries (ls_store st) de atts with
              | Ok s2 => Ok (ls_affected st, de, s2)
              | Err e => Err e
              end
        end
  end.

End Merge.

End Attachments.

(** ** [add_claims_to_docket], [add_claim_history_entry] and
    [add_tags_to_objs] *)
Module Claims.

(** A juriscraper dict of string values: [d[k]] is [dict_index] (no value
    is a [KeyError]), [d.get(k)] is [dict_get] and [d.get(k, v)] is
    [dict_get_or]. *)
Definition dict := list (string * option string).

Fixpoint dict_index (k : string) (m : dict) : option (option string) :=
  match m with
  | [] => None
  | (k', v) :: rest => if String.eqb k k' then Some v else dict_index k rest
  end.

Definition dict_get (k : string) (m : dict) : option string :=
  match dict_index k m with Some v => v | None => None end.

Definition dict_get_or (k : string) (m : dict) (dflt : option string)
  : option string :=
  match dict_index k m with Some v => v | None => dflt end.

(** Python's [a or b]. *)
Definition py_or (a b : option string) : option string :=
  if truthy a then a else b.

(** [obj.save()] on a table kept as a list: update the row with that
    primary key, or insert it. *)
Definition upsert {A} (pk : A -> nat) (l : list A) (x : A) : list A :=
  if existsb (fun y => Nat.eqb (pk y) (pk x)) l
  then map (fun y => if Nat.eqb (pk y) (pk x) then x else y) l
  else l ++ [x].

Record tag := mkTag { tag_pk : nat; tag_name : string }.

(** The fields of a [Claim] that the merge writes. *)
Record claim_data := mkClaimData {
  date_claim_modified : option string;
  date_original_entered : option string;
  date_original_filed : option string;
  date_last_amendment_entered : option string;
  date_last_amendment_filed : option string;
  creditor_details : option string;
  creditor_id : option string;
  status : option string;
  entered_by : option string;
  filed_by : option string;
  amount_claimed : option string;
  unsecured_claimed : option string;
  secured_claimed : option string;
  priority_claimed : option string;
  description : option string;
  remarks : option string
}.

Record claim := mkClaim {
  claim_pk : nat;
  claim_docket : nat;
  claim_number : option string;
  claim_fields : claim_data
}.

Inductive claim_document_type := DOCKET_ENTRY | CLAIM_ENTRY.

Definition claim_document_type_eqb (a b : claim_document_type) : bool :=
  match a, b with
  | DOCKET_ENTRY, DOCKET_ENTRY | CLAIM_ENTRY, CLAIM_ENTRY => true
  | _, _ => false
  end.

Record claim_history := mkHistory {
  ch_pk : nat;
  ch_claim : nat;
  ch_claim_document_type : claim_document_type;
  ch_date_filed : option string;
  ch_pacer_case_id : option string;
  ch_document_number : option string;
  ch_pacer_doc_id : option string;
  ch_claim_doc_id : option string;
  ch_attachment_number : option string;
  ch_pacer_dm_id : option string;
  ch_pacer_seq_no : option string;
  ch_description : option string
}.

(** A claim dict from juriscraper: its string keys, and its ["history"]
    list ([None] when the key is missing). *)
Record claim_in := mkClaimIn {
  claim_dict : dict;
  claim_history_in : option (list dict)
}.

Section Merge.

(** The tag-object link tables, written only by [Tag.tag_object] (a model
    method, outside this file). *)
Variable links : Type.
Variable tag_object : tag -> claim -> links -> links.

(** The field defaults of a new [Claim] and of a new [ClaimHistory] row
    (of the latter, only the fields that [get_or_create] does not set are
    read). *)
Variable claim_default : claim_data.
Variable history_default : claim_history.

Record store := mkStore {
  tags : list tag;
  claims : list claim;
  histories : list claim_history;
  tag_links : links;
  next_tag : nat;
  next_claim : nat;
  next_history : nat
}.

(** [Tag.objects.aget_or_create(name=tag_name)] *)
Definition tag_get_or_create (s : store) (name : string) : option (tag * store) :=
  match django_get (fun t => String.eqb (tag_name t) name) (tags s) with
  | Got t => Some (t, s)
  | DoesNotExist =>
      let t := mkTag (next_tag s) name in
      Some (t, mkStore (tags s ++ [t]) (claims s) (histories s) (tag_links s)
                 (S (next_tag s)) (next_claim s) (next_history s))
  | MultipleObjectsReturned => None
  end.

(** The first loop of [add_tags_to_objs]. *)
Fixpoint get_or_create_tags (names : list string) (s : store)
  : option (list tag * store) :=
  match names with
  | [] => Some ([], s)
  | n :: rest =>
      match tag_get_or_create s n with
      | None => None
      | Some (t, s1) =>
          match get_or_create_tags rest s1 with
          | None => None
          | Some (ts, s2) => Some (t :: ts, s2)
          end
      end
  end.

(** The nested loop [for tag in tags: for obj in objs: tag.tag_object(obj)]. *)
Definition tag_all (ts : list tag) (objs : list claim) (l : links) : links :=
  fold_left (fun acc t => fold_left (fun acc' o => tag_object t o acc') objs acc) ts l.

Definition add_tags_to_objs (tag_names : option (list string)) (objs : list claim)
  (s : store) : option (list tag * store) :=
  match tag_names with
  | None => Some ([], s)
  | Some names =>
      match get_or_create_tags names s with
      | None => None
      | Some (ts, s1) =>
          Some (ts, mkStore (tags s1) (claims s1) (histories s1)
                      (tag_all ts objs (tag_links s1))
                      (next_tag s1) (next_claim s1) (next_history s1))
      end
  end.

Definition with_histories (s : store) (hs : list claim_history) : store :=
  mkStore (tags s) (claims s) hs (tag_links s) (next_tag s) (next_claim s)
    (next_history s).

(** [ClaimHistory.objects.get_or_create] with the lookup [p]: [fresh] is the row
    [create] inserts, given its primary key. *)
Definition history_get_or_create (s : store) (p : claim_history -> bool)
  (fresh : nat -> claim_history) : option (claim_history * store) :=
  match django_get p (histories s) with
  | Got r => Some (r, s)
  | DoesNotExist =>
      let r := fresh (next_history s) in
      Some (r, mkStore (tags s) (claims s) (histories s ++ [r]) (tag_links s)
                 (next_tag s) (next_claim s) (S (next_history s)))
  | MultipleObjectsReturned => None
  end.

(** A new [ClaimHistory] row with its lookup fields set. *)
Definition new_history (pk claim_pk : nat) (ty : claim_document_type)
  (date_filed pacer_case_id document_number pacer_doc_id claim_doc_id
   attachment_number : option string) : claim_history :=
  mkHistory pk claim_pk ty date_filed pacer_case_id document_number
    pacer_doc_id claim_doc_id attachment_number
    (ch_pacer_dm_id history_default) (ch_pacer_seq_no history_default)
    (ch_description history_default).

Definition set_history_fields (r : claim_history)
  (pacer_dm_id pacer_seq_no description : option string) : claim_history :=
  mkHistory (ch_pk r) (ch_claim r) (ch_claim_document_type r) (ch_date_filed r)
    (ch_pacer_case_id r) (ch_document_number r) (ch_pacer_doc_id r)
    (ch_claim_doc_id r) (ch_attachment_number r) pacer_dm_id pacer_seq_no
    description.

Definition save_history (s : store) (r : claim_history) : store :=
  with_histories s (upsert ch_pk (histories s) r).

(** [add_claim_history_entry(new_history, claim)]; [None] is a
    [KeyError] or the [MultipleObjectsReturned] of [get_or_create]. *)
Definition add_claim_history_entry (s : store) (h : dict) (c : claim)
  : option store :=
  match dict_index "document_number" h with
  | None => None
  | Some None => Some s
  | Some (Some num) =>
      match dict_index "type" h, dict_index "date_filed" h with
      | Some history_type, Some date_filed =>
          let pacer_case_id := dict_get_or "pacer_case_id" h (Some "") in
          let common (x : claim_history) :=
            Nat.eqb (ch_claim x) (claim_pk c)
            && opt_str_eqb (ch_date_filed x) date_filed
            && opt_str_eqb (ch_pacer_case_id x) pacer_case_id
            && opt_str_eqb (ch_document_number x) (Some num) in
          if opt_str_eqb history_type (Some "docket_entry") then
            let pacer_doc_id := dict_get_or "pacer_doc_id" h (Some "") in
            let p (x : claim_history) :=
              claim_document_type_eqb (ch_claim_document_type x) DOCKET_ENTRY
              && opt_str_eqb (ch_pacer_doc_id x) pacer_doc_id && common x in
            match history_get_or_create s p
                    (fun pk => new_history pk (claim_pk c) DOCKET_ENTRY date_filed
                                 pacer_case_id (Some num) pacer_doc_id
                                 (ch_claim_doc_id history_default)
                                 (ch_attachment_number history_default)) with
            | None => None
            | Some (r, s1) =>
                Some (save_history s1
                        (set_history_fields r
                           (py_or (dict_get "pacer_dm_id" h) (ch_pacer_dm_id r))
                           (dict_get "pacer_seq_no" h)
                           (py_or (dict_get "description" h) (ch_description r))))
            end
          else
            match dict_index "id" h, dict_index "attachment_number" h with
            | Some claim_doc_id, Some attachment_number =>
                let p (x : claim_history) :=
                  claim_document_type_eqb (ch_claim_document_type x) CLAIM_ENTRY
                  && opt_str_eqb (ch_claim_doc_id x) claim_doc_id
                  && opt_str_eqb (ch_attachment_number x) attachment_number
                  && common x in
                match history_get_or_create s p
                        (fun pk => new_history pk (claim_pk c) CLAIM_ENTRY date_filed
                                     pacer_case_id (Some num)
                                     (ch_pacer_doc_id history_default)
                                     claim_doc_id attachment_number) with
                | None => None
                | Some (r, s1) =>
                    Some (save_history s1
                            (set_history_fields r (ch_pacer_dm_id r)
                               (ch_pacer_seq_no r)
                               (py_or (dict_get "description" h) (ch_description r))))
                end
            | _, _ => None
            end
      | _, _ => None
      end
  end.

(** [for new_history in new_claim["history"]: add_claim_history_entry(...)] *)
Fixpoint add_history_entries (c : claim) (hs : list dict) (s : store)
  : option store :=
  match hs with
  | [] => Some s
  | h :: rest =>
      match add_claim_history_entry s h c with
      | None => None
      | Some s1 => add_history_entries c rest s1
      end
  end.

(** The sixteen [db_claim.f = new_claim.get("f") or db_claim.f]. *)
Definition merge_claim_data (nc : dict) (old : claim_data) : claim_data :=
  {| date_claim_modified :=
       py_or (dict_get "date_claim_modified" nc) (date_claim_modified old);
     date_original_entered :=
       py_or (dict_get "date_original_entered" nc) (date_original_entered old);
     date_original_filed :=
       py_or (dict_get "date_original_filed" nc) (date_original_filed old);
     date_last_amendment_entered :=
       py_or (dict_get "date_last_amendment_entered" nc)
         (date_last_amendment_entered old);
     date_last_amendment_filed :=
       py_or (dict_get "date_last_amendment_filed" nc)
         (date_last_amendment_filed old);
     creditor_details :=
       py_or (dict_get "creditor_details" nc) (creditor_details old);
     creditor_id := py_or (dict_get "creditor_id" nc) (creditor_id old);
     status := py_or (dict_get "status" nc) (status old);
     entered_by := py_or (dict_get "entered_by" nc) (entered_by old);
     filed_by := py_or (dict_get "filed_by" nc) (filed_by old);
     amount_claimed := py_or (dict_get "amount_claimed" nc) (amount_claimed old);
     unsecured_claimed :=
       py_or (dict_get "unsecured_claimed" nc) (unsecured_claimed old);
     secured_claimed := py_or (dict_get "secured_claimed" nc) (secured_claimed old);
     priority_claimed :=
       py_or (dict_get "priority_claimed" nc) (priority_claimed old);
     description := py_or (dict_get "description" nc) (description old);
     remarks := py_or (dict_get "remarks" nc) (remarks old) |}.

(** [Claim.objects.get_or_create(docket=d, claim_number=claim_number)] *)
Definition claim_get_or_create (s : store) (d : nat) (num : option string)
  : option (claim * store) :=
  match django_get (fun c => Nat.eqb (claim_docket c) d
                             && opt_str_eqb (claim_number c) num) (claims s) with
  | Got c => Some (c, s)
  | DoesNotExist =>
      let c := mkClaim (next_claim s) d num claim_default in
      Some (c, mkStore (tags s) (claims s ++ [c]) (histories s) (tag_links s)
                 (next_tag s) (S (next_claim s)) (next_history s))
  | MultipleObjectsReturned => None
  end.

Definition save_claim (s : store) (c : claim) : store :=
  mkStore (tags s) (upsert claim_pk (claims s) c) (histories s) (tag_links s)
    (next_tag s) (next_claim s) (next_history s).

(** The loop of [add_claims_to_docket]. *)
Fixpoint add_claims_loop (d : nat) (tag_names : option (list string))
  (new_claims : list claim_in) (s : store) : option store :=
  match new_claims with
  | [] => Some s
  | nc :: rest =>
      match dict_index "claim_number" (claim_dict nc) with
      | None => None
      | Some num =>
          match claim_get_or_create s d num with
          | None => None
          | Some (c0, s1) =>
              let c := mkClaim (claim_pk c0) (claim_docket c0) (claim_number c0)
                         (merge_claim_data (claim_dict nc) (claim_fields c0)) in
              match add_tags_to_objs tag_names [c] (save_claim s1 c) with
              | None => None
              | Some (_, s3) =>
                  match claim_history_in nc with
                  | None => None
                  | Some hs =>
                      match add_history_entries c hs s3 with
                      | None => None
                      | Some s4 => add_claims_loop d tag_names rest s4
                      end
                  end
              end
          end
      end
  end.

(** [add_claims_to_docket(d, new_claims, tag_names)], on the docket with
    primary key [d].  It runs in [transaction.atomic]: on [None] (an
    exception) nothing it wrote is kept. *)
Definition add_claims_to_docket (s : store) (d : nat) (new_claims : list claim_in)
  (tag_names : option (list string)) : option store :=
  add_claims_loop d tag_names new_claims s.

End Merge.

End Claims.

(** ** [add_bankruptcy_data_to_docket] *)
Module Bankruptcy.
Import Claims.

(** A [BankruptcyInformation] row, one-to-one with its docket: the
    attributes it holds as a dict of strings. *)
Record bankr := mkBankr { bi_docket : nat; bi_fields : dict }.

(** [setattr(obj, k, v)]: the attribute [k] takes the value [v]. *)
Definition set_attr (k : string) (v : option string) (m : dict) : dict :=
  if existsb (fun kv => String.eqb (fst kv) k) m
  then map (fun kv => if String.eqb (fst kv) k then (k, v) else kv) m
  else m ++ [(k, v)].

Section Merge.

(** [cl.recap.constants.bankruptcy_data_fields], and the attributes of a
    fresh [BankruptcyInformation]. *)
Variable bankruptcy_data_fields : list string.
Variable bankr_default : dict.

(** [d.bankruptcy_information]; [None] is [DoesNotExist].  The
    one-to-one key on the docket keeps one row per docket. *)
Definition bankruptcy_information (s : list bankr) (d : nat) : option bankr :=
  find (fun b => Nat.eqb (bi_docket b) d) s.

(** [bankr_data.save()]: update the docket's row or insert it. *)
Definition save_bankr (s : list bankr) (b : bankr) : list bankr :=
  upsert bi_docket s b.

(** The loop over [bankruptcy_data_fields]: [(do_save, bankr_data)]. *)
Definition bankr_loop (metadata : dict) (fields : list string)
  (acc : bool * bankr) : bool * bankr :=
  fold_left
    (fun (acc : bool * bankr) (field : string) =>
       let (do_save, b) := acc in
       if truthy (dict_get field metadata)
       then (true, mkBankr (bi_docket b)
                     (set_attr field (dict_get field metadata) (bi_fields b)))
       else (do_save, b))
    fields acc.

(** [add_bankruptcy_data_to_docket(d, metadata)], on the docket with
    primary key [d]; the result is the [BankruptcyInformation] table. *)
Definition add_bankruptcy_data_to_docket (s : list bankr) (d : nat)
  (metadata : dict) : list bankr :=
  let bankr_data :=
    match bankruptcy_information s d with
    | Some b => b
    | None => mkBankr d bankr_default
    end in
  let (do_save, bankr_data) :=
    bankr_loop metadata bankruptcy_data_fields (false, bankr_data) in
  if do_save then save_bankr s bankr_data else s.

End Merge.

End Bankruptcy.

(** * Properties *)

(** ** Case names *)
Module CaseNamesFacts.
Import CaseNames.

Example update_case_names_uct_keeps_real :
  case_name (update_case_names (fun x => x) (mkDocket "Foo v. Bar" "Foo") (Some uct))
  = "Foo v. Bar".
Proof. reflexivity. Qed.

(** Claim C1.  For every docket and every incoming case name,
    [update_case_names] yields the case name of the 3x3 table on
    (existing, incoming) in {real name, "Unknown Case Title", blank}: an
    incoming real name replaces the existing name, the placeholder only
    replaces a blank, and a blank (or [None]) never overwrites. *)
Theorem update_case_names_follows_table :
  forall (make_case_name_short : string -> string) (d : docket) (incoming : option string),
    case_name (update_case_names make_case_name_short d incoming)
    = table_case_name (case_name d) incoming.
Proof.
  intros mcs [cn cns] [n|]; unfold update_case_names, table_case_name, kind_of; simpl.
  - destruct (String.eqb n "") eqn:Hb.
    + reflexivity.
    + simpl. destruct (String.eqb n uct) eqn:Hu.
      * apply String.eqb_eq in Hu. subst n.
        destruct (String.eqb cn "") eqn:Hc; simpl.
        -- apply String.eqb_eq in Hc. subst. reflexivity.
        -- reflexivity.
      * reflexivity.
  - reflexivity.
Qed.

End CaseNamesFacts.

(** ** The docket locator *)
Module LocatorFacts.
Import Locator.

(** A computation of the locator monad that only reads the table. *)
Definition read_only {A} (m : M A) : Prop := forall s, snd (m s) = s.

Lemma read_only_ret {A} (a : A) : read_only (ret a).
Proof. intros s. reflexivity. Qed.

Lemma read_only_select p : read_only (select p).
Proof. intros s. reflexivity. Qed.

Lemma read_only_bind {A B} (m : M A) (k : A -> M B) :
  read_only m -> (forall a, read_only (k a)) -> read_only (bind m k).
Proof.
  intros Hm Hk s. unfold bind.
  specialize (Hm s). destruct (m s) as [a s'] eqn:E. simpl in Hm. subst s'.
  apply Hk.
Qed.

Lemma lookup_tier_read_only clean court dn c kw :
  read_only (lookup_tier clean court dn c kw).
Proof.
  unfold lookup_tier. apply read_only_bind; [apply read_only_select|].
  intros [|d [|d' ds]].
  - apply read_only_ret.
  - apply read_only_ret.
  - apply read_only_bind; [apply read_only_select|].
    intros [|e [|e' es]]; apply read_only_ret.
Qed.

Lemma run_lookups_read_only clean court dn c lks :
  read_only (run_lookups clean court dn c lks).
Proof.
  induction lks as [|kw rest IH]; simpl.
  - apply read_only_ret.
  - apply read_only_bind.
    + apply lookup_tier_read_only.
    + intros [d|]; [apply read_only_ret | exact IH].
Qed.

Lemma find_docket_object_read_only clean mk court pacer dn c :
  read_only (find_docket_object clean mk court pacer dn c).
Proof.
  unfold find_docket_object. apply read_only_bind.
  - apply run_lookups_read_only.
  - intros [d|]; apply read_only_ret.
Qed.

(** Claim C2.  [find_docket_object] is idempotent: for every court id,
    pacer case id, docket number and docket-number components, two calls
    in succession on the same docket table give the same result (the same
    docket row, or the same new unsaved docket) and leave the table as it
    was.  This holds for any [clean_docket_number] and
    [make_docket_number_core]. *)
Theorem find_docket_object_idempotent :
  forall (clean_docket_number : option string -> string)
         (make_docket_number_core : string -> string)
         (court : string) (pacer_case_id_in : option string)
         (docket_number_in : string) (c : dn_components) (s : store),
    let m := find_docket_object clean_docket_number make_docket_number_core
               court pacer_case_id_in docket_number_in c in
    let (r1, s1) := m s in
    let (r2, s2) := m s1 in
    r1 = r2 /\ s1 = s /\ s2 = s.
Proof.
  intros clean mk court pacer dn c s m.
  pose proof (find_docket_object_read_only clean mk court pacer dn c s) as H1.
  fold m in H1.
  destruct (m s) as [r1 s1] eqn:E1. simpl in H1. subst s1.
  rewrite E1. auto.
Qed.

(** Two dockets of one court with the same docket-number core and no pacer
    case id, created at times 10 and 20, with defendant numbers 1 and 2. *)
Definition cx_docket_number : string := "1:20-cr-00001".

Definition cx_old : docket :=
  mkDocket 1 "cand" None (Some cx_docket_number)
    (make_docket_number_core cx_docket_number) (Some "1") None None 10.

Definition cx_new : docket :=
  mkDocket 2 "cand" None (Some cx_docket_number)
    (make_docket_number_core cx_docket_number) (Some "2") None None 20.

Lemma earliest_by_some {A} (key : A -> nat) (a : A) l :
  exists e, earliest_by key (a :: l) = Some e.
Proof.
  simpl. destruct (earliest_by key l) as [b|].
  - destruct (Nat.ltb (key b) (key a)); eauto.
  - eauto.
Qed.

Lemma earliest_by_spec {A} (key : A -> nat) (l : list A) e :
  earliest_by key l = Some e -> In e l /\ forall d, In d l -> key e <= key d.
Proof.
  revert e. induction l as [|a rest IH]; intros e H; simpl in H; [discriminate|].
  destruct (earliest_by key rest) as [b|] eqn:Eb.
  - destruct (IH b eq_refl) as [Hin Hmin].
    destruct (Nat.ltb (key b) (key a)) eqn:Hlt; injection H as <-.
    + apply Nat.ltb_lt in Hlt. split; [right; exact Hin|].
      intros d [<-|Hd]; [lia | apply Hmin; exact Hd].
    + apply Nat.ltb_ge in Hlt. split; [left; reflexivity|].
      intros d [<-|Hd]; [lia|]. specialize (Hmin d Hd). lia.
  - injection H as <-. split; [left; reflexivity|].
    intros d [<-|Hd]; [lia|].
    destruct rest as [|r rest']; [contradiction|].
    destruct (earliest_by_some key r rest') as [x Hx]. congruence.
Qed.

(** Narrowing wins over age, whatever the normalisers are: with a
    defendant number that singles out the newer docket, the lookup returns
    the newer docket. *)
Lemma narrowing_selects_newer_docket :
  forall (clean : option string -> string) (mk : string -> string),
    mk cx_docket_number = make_docket_number_core cx_docket_number ->
    fst (find_docket_object clean mk "cand" None cx_docket_number
           (mkComponents (Some "2") None None) [cx_old; cx_new])
    = Found cx_new.
Proof.
  intros clean mk Hmk.
  unfold find_docket_object, lookups. rewrite Hmk. vm_compute. reflexivity.
Qed.

(** Claim C3, counterexample.  Two dockets of court ["cand"] with the same
    docket-number core and no pacer case id, the older one created at 10
    with defendant number 1, the newer one at 20 with defendant number 2.
    A lookup without a pacer case id for defendant number 2 returns the
    newer docket: the narrowing by components comes before the age rule. *)
Lemma find_docket_object_returns_newer_cx :
  date_created cx_old < date_created cx_new
  /\ docket_number_core cx_old = docket_number_core cx_new
  /\ pacer_case_id cx_old = None /\ pacer_case_id cx_new = None
  /\ fst (find_docket_object clean_docket_number make_docket_number_core
            "cand" None cx_docket_number (mkComponents (Some "2") None None)
            [cx_old; cx_new])
     = Found cx_new.
Proof. split; [simpl; lia|]. vm_compute. repeat split. Qed.

(** Claim C3, amended.  (1) When a lookup tier returns at least two
    dockets and the narrowing by the incoming docket-number components does
    not leave exactly one, the tier takes a docket [e] of the tier with the
    least creation date; in a tier with a docket-number core and no pacer
    case id it keeps [e] only if [confirm_docket_number_core_lookup_match]
    accepts it (the same cleaned docket number), otherwise the next tier is
    tried.  (2) In particular, for two dockets with the same court and
    non-empty docket-number core and no pacer case id, created at different
    times, a lookup without a pacer case id whose components do not single
    out exactly one of them returns the older one, provided its cleaned
    docket number is the incoming one. *)
Theorem find_docket_object_oldest_when_ambiguous :
  forall (clean : option string -> string) (mk : string -> string)
         (court dn : string) (c : dn_components) (s : store),
    (forall kw,
        2 <= length (filter (kwargs_match court kw) s) ->
        length (filter (fun d => kwargs_match court kw d && dn_lookup_match c d) s) <> 1 ->
        exists e,
          In e (filter (kwargs_match court kw) s)
          /\ (forall d, In d (filter (kwargs_match court kw) s) ->
                        date_created e <= date_created d)
          /\ fst (lookup_tier clean court dn c kw s)
             = if needs_core_confirmation kw
               then confirm_docket_number_core_lookup_match clean e dn no_components
               else Some e)
    /\
    (forall old new,
        mk dn <> "" ->
        (filter (kwargs_match court [KPacerCaseId None; KCore (mk dn)]) s = [old; new]
         \/ filter (kwargs_match court [KPacerCaseId None; KCore (mk dn)]) s = [new; old]) ->
        date_created old < date_created new ->
        length (filter (fun d => kwargs_match court [KPacerCaseId None; KCore (mk dn)] d
                                 && dn_lookup_match c d) s) <> 1 ->
        clean (docket_number old) = clean (Some dn) ->
        fst (find_docket_object clean mk court None dn c s) = Found old).
Proof.
  intros clean mk court dn c s. split.
  - intros kw H2 Hn.
    unfold lookup_tier, bind, select, ret.
    destruct (filter (kwargs_match court kw) s) as [|d0 [|d1 ds]] eqn:E;
      simpl in H2; try lia.
    destruct (earliest_by_some date_created d0 (d1 :: ds)) as [e He].
    destruct (earliest_by_spec date_created _ e He) as [Hin Hmin].
    exists e. split; [exact Hin|]. split; [exact Hmin|].
    destruct (filter (fun d => kwargs_match court kw d && dn_lookup_match c d) s)
      as [|x [|y l]] eqn:F; simpl in Hn; try lia; cbn -[earliest_by];
      rewrite He; reflexivity.
  - intros old new Hcore Hs Hlt Hn Hclean.
    unfold find_docket_object, lookups.
    assert (Hc : String.eqb (mk dn) "" = false) by (apply String.eqb_neq; exact Hcore).
    simpl truthy. rewrite Hc. simpl.
    unfold bind at 1. simpl run_lookups.
    unfold bind at 1, lookup_tier, bind, select, ret.
    assert (Hconf : confirm_docket_number_core_lookup_match clean old dn no_components
                    = Some old).
    { unfold confirm_docket_number_core_lookup_match. rewrite Hclean, String.eqb_refl.
      reflexivity. }
    assert (Hneeds : needs_core_confirmation [KPacerCaseId None; KCore (mk dn)] = true).
    { unfold needs_core_confirmation. simpl. rewrite Hc. reflexivity. }
    assert (Hearly : earliest_by date_created
                       (filter (kwargs_match court [KPacerCaseId None; KCore (mk dn)]) s)
                     = Some old).
    { destruct Hs as [Hs|Hs]; rewrite Hs; simpl.
      - assert (Nat.ltb (date_created new) (date_created old) = false)
          by (apply Nat.ltb_ge; lia). rewrite H. reflexivity.
      - assert (Nat.ltb (date_created old) (date_created new) = true)
          by (apply Nat.ltb_lt; lia). rewrite H. reflexivity. }
    destruct (filter (kwargs_match court [KPacerCaseId None; KCore (mk dn)]) s)
      as [|d0 [|d1 ds]] eqn:E;
      [destruct Hs as [Hs|Hs]; discriminate | destruct Hs as [Hs|Hs]; discriminate |].
    destruct (filter (fun d => kwargs_match court [KPacerCaseId None; KCore (mk dn)] d
                               && dn_lookup_match c d) s)
      as [|x [|y l]] eqn:F; simpl in Hn; try lia;
      rewrite Hearly, Hneeds, Hconf; reflexivity.
Qed.

(** Claim C3, witness: the two dockets above, looked up with no components. *)
Lemma find_docket_object_oldest_when_ambiguous_witness :
  fst (find_docket_object clean_docket_number make_docket_number_core
         "cand" None cx_docket_number no_components [cx_old; cx_new])
  = Found cx_old.
Proof.
  destruct (find_docket_object_oldest_when_ambiguous clean_docket_number
              make_docket_number_core "cand" cx_docket_number no_components
              [cx_old; cx_new]) as [_ HB].
  apply (HB cx_old cx_new).
  - vm_compute. discriminate.
  - left. vm_compute. reflexivity.
  - simpl. lia.
  - vm_compute. discriminate.
  - reflexivity.
Defined.

Lemma lookup_tier_some_in clean court dn c kw s d :
  fst (lookup_tier clean court dn c kw s) = Some d -> In d s /\ court_id d = court.
Proof.
  assert (Hsel : forall x, In x (filter (kwargs_match court kw) s) ->
                 In x s /\ court_id x = court).
  { intros x Hx. apply filter_In in Hx. destruct Hx as [Hx Hm].
    unfold kwargs_match in Hm. apply andb_true_iff in Hm. destruct Hm as [Hm _].
    apply String.eqb_eq in Hm. split; assumption. }
  assert (Hconf : forall x y dn' c', confirm_docket_number_core_lookup_match clean x dn' c'
                                      = Some y -> x = y).
  { intros x y dn' c'. unfold confirm_docket_number_core_lookup_match.
    destruct (negb _); [discriminate|]. destruct (_ || _ || _); [discriminate|].
    intros H. injection H as H. exact H. }
  unfold lookup_tier, bind, select, ret. simpl.
  destruct (filter (kwargs_match court kw) s) as [|d0 [|d1 ds]] eqn:E; cbn -[earliest_by].
  - discriminate.
  - intros H. apply Hsel.
    destruct (needs_core_confirmation kw).
    + apply Hconf in H. subst. left. reflexivity.
    + injection H as <-. left. reflexivity.
  - destruct (filter (fun x => kwargs_match court kw x && dn_lookup_match c x) s)
      as [|x [|y l]] eqn:F; cbn -[earliest_by].
    2: { intros H. injection H as <-.
         assert (Hx : In x (filter (fun x => kwargs_match court kw x && dn_lookup_match c x) s))
           by (rewrite F; left; reflexivity).
         apply filter_In in Hx. destruct Hx as [Hx Hm]. apply andb_true_iff in Hm.
         apply Hsel. rewrite <- E. apply filter_In. split; [exact Hx|apply Hm]. }
    all: destruct (earliest_by date_created (d0 :: d1 :: ds)) as [e|] eqn:Ee;
      [|discriminate];
      destruct (earliest_by_spec _ _ _ Ee) as [Hin _];
      intros H; destruct (needs_core_confirmation kw);
      [apply Hconf in H; subst; apply Hsel; exact Hin
      |injection H as <-; apply Hsel; exact Hin].
Qed.

Lemma run_lookups_some_in clean court dn c lks s d :
  fst (run_lookups clean court dn c lks s) = Some d -> In d s /\ court_id d = court.
Proof.
  induction lks as [|kw rest IH]; simpl; [discriminate|].
  unfold bind. pose proof (lookup_tier_read_only clean court dn c kw s) as Hro.
  pose proof (lookup_tier_some_in clean court dn c kw s) as Hin.
  destruct (lookup_tier clean court dn c kw s) as [r s'] eqn:E. simpl in Hro, Hin. subst s'.
  destruct r as [d'|]; [|exact IH].
  simpl. intros H. injection H as <-. apply Hin. reflexivity.
Qed.

(** [find_docket_object] returns an existing docket only from the table
    and only of the court asked for. *)
Theorem find_docket_object_found_in_court clean mk court pacer dn c s d :
  fst (find_docket_object clean mk court pacer dn c s) = Found d ->
  In d s /\ court_id d = court.
Proof.
  unfold find_docket_object, bind.
  pose proof (run_lookups_read_only clean court dn c (lookups mk pacer dn) s) as Hro.
  pose proof (run_lookups_some_in clean court dn c (lookups mk pacer dn) s) as Hin.
  destruct (run_lookups clean court dn c (lookups mk pacer dn) s) as [r s'].
  simpl in Hro, Hin. subst s'.
  destruct r as [d'|]; simpl; intros H; [|discriminate].
  injection H as <-. apply Hin. reflexivity.
Qed.

Lemma run_lookups_app_some clean court dn c l1 kw l2 s :
  (exists d, fst (lookup_tier clean court dn c kw s) = Some d) ->
  exists d, fst (run_lookups clean court dn c (l1 ++ kw :: l2) s) = Some d.
Proof.
  intros Hk. induction l1 as [|k l1 IH]; simpl.
  - unfold bind. destruct Hk as [d Hd].
    destruct (lookup_tier clean court dn c kw s) as [r s']. simpl in Hd. subst r.
    exists d. reflexivity.
  - unfold bind. pose proof (lookup_tier_read_only clean court dn c k s) as Hro.
    destruct (lookup_tier clean court dn c k s) as [r s'] eqn:E. simpl in Hro. subst s'.
    destruct r as [d|]; [exists d; reflexivity|exact IH].
Qed.

Lemma opt_str_eqb_refl o : opt_str_eqb o o = true.
Proof. destruct o; simpl; [apply String.eqb_refl|reflexivity]. Qed.

(** With a pacer case id, [find_docket_object] never makes a new docket
    when a docket of the court with that pacer case id exists. *)
Theorem find_docket_object_existing_case clean mk court pacer dn c s d0 :
  truthy pacer = true -> In d0 s -> court_id d0 = court -> pacer_case_id d0 = pacer ->
  exists d, fst (find_docket_object clean mk court pacer dn c s) = Found d.
Proof.
  intros Ht Hd0 Hc Hp.
  assert (Hk : exists d, fst (lookup_tier clean court dn c [KPacerCaseId pacer] s) = Some d).
  { assert (Hm : kwargs_match court [KPacerCaseId pacer] d0 = true).
    { unfold kwargs_match. simpl. rewrite Hc, Hp, String.eqb_refl, opt_str_eqb_refl.
      reflexivity. }
    assert (Hin : In d0 (filter (kwargs_match court [KPacerCaseId pacer]) s))
      by (apply filter_In; split; assumption).
    assert (Hn : needs_core_confirmation [KPacerCaseId pacer] = false).
    { unfold needs_core_confirmation. destruct pacer; [reflexivity|discriminate]. }
    unfold lookup_tier, bind, select, ret. cbn -[earliest_by].
    destruct (filter (kwargs_match court [KPacerCaseId pacer]) s) as [|x [|y l]];
      [destruct Hin|rewrite Hn; exists x; reflexivity|].
    destruct (filter (fun d => kwargs_match court [KPacerCaseId pacer] d && dn_lookup_match c d) s)
      as [|u [|v w]]; cbn -[earliest_by];
      try (exists u; reflexivity);
      destruct (earliest_by_some date_created x (y :: l)) as [e He]; rewrite He, Hn;
      exists e; reflexivity. }
  unfold find_docket_object, lookups. rewrite Ht. simpl negb.
  rewrite !andb_false_r.
  destruct (negb (String.eqb (mk dn) "")).
  - destruct (run_lookups_app_some clean court dn c
                ([KPacerCaseId pacer; KCore (mk dn)] :: [[KPacerCaseId None; KCore (mk dn)]])
                [KPacerCaseId pacer] [] s Hk) as [d Hd].
    unfold bind. simpl app in Hd |- *.
    destruct (run_lookups _ _ _ _ _ s) as [r s']. simpl in Hd. subst r.
    exists d. reflexivity.
  - destruct (run_lookups_app_some clean court dn c [] [KPacerCaseId pacer] [] s Hk)
      as [d Hd].
    unfold bind. simpl app in Hd |- *.
    destruct (run_lookups _ _ _ _ _ s) as [r s']. simpl in Hd. subst r.
    exists d. reflexivity.
Qed.

(** A docket of court ["cand"] with pacer case id ["100"]. *)
Definition cx_case_docket : docket :=
  mkDocket 3 "cand" (Some "100") (Some "1:21-cv-00002")
    (make_docket_number_core "1:21-cv-00002") None None None 30.

Lemma find_docket_object_found_in_court_witness :
  In cx_old [cx_old; cx_new] /\ court_id cx_old = "cand".
Proof.
  apply (find_docket_object_found_in_court clean_docket_number make_docket_number_core
           "cand" None cx_docket_number no_components [cx_old; cx_new] cx_old).
  vm_compute. reflexivity.
Defined.

Lemma find_docket_object_existing_case_witness :
  exists d, fst (find_docket_object clean_docket_number make_docket_number_core "cand"
                   (Some "100") "2:99-cv-00009" no_components [cx_old; cx_case_docket])
            = Found d.
Proof.
  apply (find_docket_object_existing_case clean_docket_number make_docket_number_core
           "cand" (Some "100") "2:99-cv-00009" no_components [cx_old; cx_case_docket]
           cx_case_docket).
  - reflexivity.
  - right. left. reflexivity.
  - reflexivity.
  - reflexivity.
Defined.

End LocatorFacts.

(** ** RECAP sequence numbers *)
Module SequenceFacts.
Import Entry Sequence.

Lemma date_eqb_refl d : date_eqb d d = true.
Proof. unfold date_eqb. rewrite !Nat.eqb_refl. reflexivity. Qed.

Lemma date_eqb_sym a b : date_eqb a b = date_eqb b a.
Proof.
  unfold date_eqb. rewrite (Nat.eqb_sym (year a)), (Nat.eqb_sym (month a)),
    (Nat.eqb_sym (day a)). reflexivity.
Qed.

(** Claim C6.  For dicts [e1], [e2], [e3] in received order, with
    document numbers [None], [None], ["1"] and filing dates [D1], [D1],
    [D2] (two distinct dates), the order scan finds no comparable pair
    (so the list is taken as ascending and not reversed), and
    [calculate_recap_sequence_numbers] numbers them [D1.001], [D1.002],
    [D2.001]. *)
Theorem recap_sequence_numbers_example :
  forall (to_court_local : string -> date -> time -> date * time)
         (court : string) (D1 D2 : date) (e1 e2 e3 : entry_dict),
    date_eqb D1 D2 = false ->
    document_number e1 = None -> date_filed e1 = Some (FDate D1) ->
    document_number e2 = None -> date_filed e2 = Some (FDate D1) ->
    document_number e3 = Some "1" -> date_filed e3 = Some (FDate D2) ->
    get_order_of_docket [e1; e2; e3] = None
    /\ option_map (map recap_sequence_number)
         (calculate_recap_sequence_numbers to_court_local [e1; e2; e3] court)
       = Some [Some (isoformat D1 ++ ".001")%string;
               Some (isoformat D1 ++ ".002")%string;
               Some (isoformat D2 ++ ".001")%string].
Proof.
  intros tz court D1 D2 e1 e2 e3 H12 N1 F1 N2 F2 N3 F3.
  assert (Hord : get_order_of_docket [e1; e2; e3] = None).
  { unfold get_order_of_docket. simpl. rewrite N1, N2, N3. reflexivity. }
  split; [exact Hord|].
  unfold calculate_recap_sequence_numbers. rewrite Hord. simpl.
  rewrite F1, F2, F3. simpl.
  rewrite date_eqb_refl. rewrite date_eqb_sym, H12. reflexivity.
Qed.

(** Claim C6, witness: 2014-01-01, 2014-01-01, 2014-01-02. *)
Lemma recap_sequence_numbers_example_witness :
  get_order_of_docket
    [mkEntry None (Some (FDate (mkDate 2014 1 1))) None None None None None;
     mkEntry None (Some (FDate (mkDate 2014 1 1))) None None None None None;
     mkEntry (Some "1") (Some (FDate (mkDate 2014 1 2))) None None None None None]
  = None
  /\ option_map (map recap_sequence_number)
       (calculate_recap_sequence_numbers (fun _ d t => (d, t))
          [mkEntry None (Some (FDate (mkDate 2014 1 1))) None None None None None;
           mkEntry None (Some (FDate (mkDate 2014 1 1))) None None None None None;
           mkEntry (Some "1") (Some (FDate (mkDate 2014 1 2))) None None None None None]
          "cand")
     = Some [Some "2014-01-01.001"; Some "2014-01-01.002"; Some "2014-01-02.001"].
Proof.
  apply (recap_sequence_numbers_example (fun _ d t => (d, t)) "cand"
           (mkDate 2014 1 1) (mkDate 2014 1 2)); reflexivity.
Defined.

End SequenceFacts.

(** ** Parties and attorneys *)
Module PartiesFacts.
Import Entry Parties.

Section Contact.

(** The contact normaliser [add_attorney] calls ([cl.lib.pacer]). *)
Variable normalize_attorney_contact : string -> string -> option atty_info.

(** Claim C10.  On a falsy party list ([None] or the empty list)
    [add_parties_and_attorneys] returns at once: the store, and with it
    every PartyType and Role row of every docket, is unchanged. *)
Theorem add_parties_and_attorneys_empty_noop :
  forall (normalize_attorney_role : string -> role_dict) (s : store) (d : nat),
    add_parties_and_attorneys normalize_attorney_role normalize_attorney_contact s d None = s
    /\ add_parties_and_attorneys normalize_attorney_role normalize_attorney_contact s d (Some []) = s.
Proof. intros. split; reflexivity. Qed.

Lemma negb_role_key r a p d :
  role_attorney r <> a \/ role_party r <> p \/ role_docket r <> d ->
  negb (Nat.eqb (role_attorney r) a && Nat.eqb (role_party r) p
        && Nat.eqb (role_docket r) d) = true.
Proof.
  intros [H|[H|H]]; apply Nat.eqb_neq in H; rewrite H;
    repeat match goal with |- context [Nat.eqb ?x ?y] => destruct (Nat.eqb x y) end;
    reflexivity.
Qed.

(** [a] carries the primary key and the name of a row of [l]. *)
Definition atty_old (l : list attorney) (a : attorney) : Prop :=
  exists y, In y l /\ atty_pk y = atty_pk a /\ atty_name y = atty_name a.

(** Every row of [l0] is still in [l1], or has been rewritten in place:
    a row of [l1] under its primary key carries a name of [names], and
    the key and name of a row of [l0] or a key from [n0] on. *)
Definition atty_kept (names : list string) (n0 : nat) (l0 l1 : list attorney) : Prop :=
  forall x, In x l0 -> In x l1 \/ exists y, In y l1 /\ atty_pk y = atty_pk x
    /\ In (atty_name y) names /\ (atty_old l0 y \/ n0 <= atty_pk y).

Lemma atty_old_in l x : In x l -> atty_old l x.
Proof. intros H. exists x. repeat split; [exact H]. Qed.

Lemma atty_old_trans l0 l1 n0 x :
  atty_old l1 x -> (forall y, In y l1 -> atty_old l0 y \/ n0 <= atty_pk y) ->
  atty_old l0 x \/ n0 <= atty_pk x.
Proof.
  intros (y & Hy & E1 & E2) H. destruct (H y Hy) as [(z & Hz & F1 & F2)|Hn].
  - left. exists z. split; [exact Hz|split; congruence].
  - right. lia.
Qed.

Lemma atty_kept_refl names n l : atty_kept names n l l.
Proof. intros x Hx. left. exact Hx. Qed.

Lemma atty_kept_le names n0 n1 l0 l1 :
  n0 <= n1 -> atty_kept names n1 l0 l1 -> atty_kept names n0 l0 l1.
Proof.
  intros Hn H x Hx. destruct (H x Hx) as [H'|(y & Hy & E & Hna & Ho)]; [left; exact H'|].
  right. exists y. repeat split; try assumption. destruct Ho as [Ho|Ho]; [left; exact Ho|right; lia].
Qed.

(** A row of [l1] with a name of [N1] survives a later pass under its key. *)
Lemma atty_kept_row N1 N2 n0 n1 l0 l1 l2 x :
  atty_kept N2 n1 l1 l2 -> In x l1 -> In (atty_name x) N1 ->
  (atty_old l0 x \/ n0 <= atty_pk x) ->
  (forall y, In y l1 -> atty_old l0 y \/ n0 <= atty_pk y) -> n0 <= n1 ->
  exists y, In y l2 /\ atty_pk y = atty_pk x /\ In (atty_name y) (N1 ++ N2)
    /\ (atty_old l0 y \/ n0 <= atty_pk y).
Proof.
  intros Hk Hx Hn Ho Hl Hle. destruct (Hk x Hx) as [H2|(y & Hy & E & Hny & Hoy)].
  - exists x. repeat split; try assumption. apply in_or_app. left. exact Hn.
  - exists y. repeat split; try assumption; [apply in_or_app; right; exact Hny|].
    destruct Hoy as [Hoy|Hoy]; [exact (atty_old_trans l0 l1 n0 y Hoy Hl)|right; lia].
Qed.

Lemma atty_kept_trans N1 N2 n0 n1 l0 l1 l2 :
  atty_kept N1 n0 l0 l1 -> atty_kept N2 n1 l1 l2 ->
  (forall y, In y l1 -> atty_old l0 y \/ n0 <= atty_pk y) -> n0 <= n1 ->
  atty_kept (N1 ++ N2) n0 l0 l2.
Proof.
  intros H1 H2 Hl Hle x Hx. destruct (H1 x Hx) as [Hx1|(y & Hy & E & Hny & Hoy)].
  - destruct (H2 x Hx1) as [Hx2|(y & Hy & E & Hny & Hoy)]; [left; exact Hx2|].
    right. exists y. repeat split; try assumption; [apply in_or_app; right; exact Hny|].
    destruct Hoy as [Hoy|Hoy]; [exact (atty_old_trans l0 l1 n0 y Hoy Hl)|right; lia].
  - right. destruct (atty_kept_row N1 N2 n0 n1 l0 l1 l2 y H2 Hy Hny Hoy Hl Hle)
      as (z & Hz & Ez & Hnz & Hoz).
    exists z. repeat split; try assumption. congruence.
Qed.

Lemma atty_kept_pk names n l0 l1 :
  atty_kept names n l0 l1 ->
  forall x, In x l0 -> exists y, In y l1 /\ atty_pk y = atty_pk x.
Proof.
  intros H x Hx. destruct (H x Hx) as [H'|(y & Hy & E & _)]; [exists x; split; [exact H'|reflexivity]|].
  exists y. split; assumption.
Qed.

(** [add_attorney] in its three stages: picking the attorney row, the
    contact update, and the roles. *)
Definition atty_pick (s : store) (atty : atty_norm) (d : nat) : attorney * store :=
  let on_docket (a : attorney) :=
    String.eqb (atty_name a) (an_name atty)
    && existsb (fun r => Nat.eqb (role_attorney r) (atty_pk a) && Nat.eqb (role_docket r) d)
         (roles s) in
  match filter on_docket (attorneys s) with
  | [] =>
      let a := mkA (next_pk s) (an_name atty) (an_contact atty) "" "" "" (next_pk s) in
      (a, bump (set_attorneys s (attorneys s ++ [a])))
  | [a] => (a, s)
  | l => match earliest_by atty_date_created l with
         | Some a => (a, s)
         | None => (mkA 0 "" "" "" "" "" 0, s)
         end
  end.

Definition atty_update (atty : atty_norm) (a : attorney) (s1 : store) : attorney * store :=
  if negb (String.eqb (an_contact atty) "") then
    match normalize_attorney_contact (an_contact atty) (an_name atty) with
    | Some info =>
        let a' := mkA (atty_pk a) (atty_name a) (an_contact atty)
                    (ai_email info) (ai_phone info) (ai_fax info) (atty_date_created a) in
        (a', set_attorneys s1 (map (fun y => if Nat.eqb (atty_pk y) (atty_pk a) then a' else y)
                                 (attorneys s1)))
    | None => (a, s1)
    end
  else (a, s1).

Definition atty_roles (atty : atty_norm) (a : attorney) (s1 : store) (p d : nat) : nat * store :=
  let rs := match an_roles atty with
            | [] => [mkRoleDict UNKNOWN None None]
            | l => l
            end in
  let kept := filter (fun r => negb (Nat.eqb (role_attorney r) (atty_pk a)
                                      && Nat.eqb (role_party r) p
                                      && Nat.eqb (role_docket r) d))
                (roles s1) in
  let fix mk (n : nat) (l : list role_dict) : list role :=
    match l with
    | [] => []
    | x :: t => mkR n (atty_pk a) p d (rd_role x) (rd_date_action x) (rd_role_raw x)
                  :: mk (S n) t
    end in
  let created := mk (next_pk s1) rs in
  (atty_pk a,
   mkStore (parties s1) (attorneys s1) (party_types s1) (kept ++ created)
     (next_pk s1 + length rs)).

Lemma add_attorney_split s atty p d :
  add_attorney normalize_attorney_contact s atty p d =
  let '(a, s1) := atty_pick s atty d in
  let '(a, s1) := atty_update atty a s1 in
  atty_roles atty a s1 p d.
Proof. reflexivity. Qed.

Lemma atty_pick_spec s atty d a s1 :
  atty_pick s atty d = (a, s1) ->
  atty_name a = an_name atty /\ In a (attorneys s1)
  /\ (In a (attorneys s) \/ atty_pk a = next_pk s)
  /\ parties s1 = parties s /\ party_types s1 = party_types s /\ roles s1 = roles s
  /\ incl (attorneys s) (attorneys s1)
  /\ (forall x, In x (attorneys s1) -> In x (attorneys s) \/ atty_pk x = next_pk s)
  /\ next_pk s <= next_pk s1.
Proof.
  intros H. unfold atty_pick in H.
  destruct (filter _ (attorneys s)) as [|x [|y l]] eqn:F.
  - injection H as <- <-. cbn -[filter].
    repeat split; try reflexivity.
    + apply in_or_app. right. left. reflexivity.
    + right. reflexivity.
    + intros z Hz. apply in_or_app. left. exact Hz.
    + intros z Hz. apply in_app_or in Hz. destruct Hz as [Hz|[<-|[]]]; [left; exact Hz|right; reflexivity].
    + lia.
  - injection H as <- <-.
    assert (Hx : In x (filter (fun a => String.eqb (atty_name a) (an_name atty)
       && existsb (fun r => Nat.eqb (role_attorney r) (atty_pk a) && Nat.eqb (role_docket r) d)
            (roles s)) (attorneys s))) by (rewrite F; left; reflexivity).
    apply filter_In in Hx. destruct Hx as [Hx Hn].
    apply andb_true_iff in Hn. destruct Hn as [Hn _]. apply String.eqb_eq in Hn.
    repeat split; try assumption; try reflexivity.
    + left. exact Hx.
    + intros z Hz. exact Hz.
    + intros z Hz. left. exact Hz.
  - destruct (LocatorFacts.earliest_by_some atty_date_created x (y :: l)) as [e He].
    rewrite He in H. injection H as <- <-.
    destruct (LocatorFacts.earliest_by_spec _ _ _ He) as [Hin _].
    rewrite <- F in Hin. apply filter_In in Hin. destruct Hin as [Hx Hn].
    apply andb_true_iff in Hn. destruct Hn as [Hn _]. apply String.eqb_eq in Hn.
    repeat split; try assumption; try reflexivity.
    + left. exact Hx.
    + intros z Hz. exact Hz.
    + intros z Hz. left. exact Hz.
Qed.

Lemma atty_update_spec atty a s1 a' s2 :
  In a (attorneys s1) -> atty_update atty a s1 = (a', s2) ->
  atty_pk a' = atty_pk a /\ atty_name a' = atty_name a /\ In a' (attorneys s2)
  /\ parties s2 = parties s1 /\ party_types s2 = party_types s1 /\ roles s2 = roles s1
  /\ next_pk s2 = next_pk s1
  /\ (forall x, In x (attorneys s1) -> In x (attorneys s2) \/ atty_pk x = atty_pk a)
  /\ (forall x, In x (attorneys s2) -> In x (attorneys s1) \/ x = a').
Proof.
  intros Ha H. unfold atty_update in H.
  destruct (negb (String.eqb (an_contact atty) "")).
  2: { injection H as <- <-. repeat split; try assumption; intros x Hx; left; exact Hx. }
  destruct (normalize_attorney_contact (an_contact atty) (an_name atty)) as [info|].
  2: { injection H as <- <-. repeat split; try assumption; intros x Hx; left; exact Hx. }
  injection H as <- <-. cbn [set_attorneys attorneys parties party_types roles next_pk].
  repeat split; try reflexivity.
  - apply in_map_iff. exists a. rewrite Nat.eqb_refl. split; [reflexivity|exact Ha].
  - intros x Hx. destruct (Nat.eqb_spec (atty_pk x) (atty_pk a)) as [E|E]; [right; exact E|].
    left. apply in_map_iff. exists x. apply Nat.eqb_neq in E. rewrite E. split; [reflexivity|exact Hx].
  - intros x Hx. apply in_map_iff in Hx. destruct Hx as (y & <- & Hy).
    destruct (Nat.eqb (atty_pk y) (atty_pk a)); [right; reflexivity|left; exact Hy].
Qed.

Lemma atty_roles_spec atty a s1 p d id s' :
  atty_roles atty a s1 p d = (id, s') ->
  id = atty_pk a /\ parties s' = parties s1 /\ party_types s' = party_types s1
  /\ attorneys s' = attorneys s1 /\ next_pk s1 <= next_pk s'
  /\ (forall r, In r (roles s1) ->
        role_attorney r <> id \/ role_party r <> p \/ role_docket r <> d ->
        In r (roles s')).
Proof.
  intros H. unfold atty_roles in H. injection H as <- <-. cbn.
  repeat split; try reflexivity; [lia|].
  intros r Hr Hk. apply in_or_app. left. apply filter_In. split; [exact Hr|].
  apply negb_role_key. exact Hk.
Qed.

(** [add_attorney] picks an attorney row named as the incoming one (found
    or fresh) and may rewrite that row in place; it deletes no attorney
    row, and deletes only roles of that attorney for this party on this
    docket. *)
Lemma add_attorney_spec s atty p d id s' :
  add_attorney normalize_attorney_contact s atty p d = (id, s') ->
  exists a, atty_pk a = id /\ atty_name a = an_name atty /\ In a (attorneys s')
    /\ (atty_old (attorneys s) a \/ atty_pk a = next_pk s)
    /\ parties s' = parties s /\ party_types s' = party_types s
    /\ atty_kept [an_name atty] (next_pk s) (attorneys s) (attorneys s')
    /\ (forall x, In x (attorneys s') -> atty_old (attorneys s) x \/ atty_pk x = next_pk s)
    /\ next_pk s <= next_pk s'
    /\ (forall r, In r (roles s) ->
          role_attorney r <> id \/ role_party r <> p \/ role_docket r <> d ->
          In r (roles s')).
Proof.
  rewrite add_attorney_split. intros H.
  destruct (atty_pick s atty d) as [a s1] eqn:P.
  destruct (atty_pick_spec _ _ _ _ _ P)
    as (Pn & Pin & Pold & Pp & Ppt & Pr & Pinc & Pnew & Pnext).
  destruct (atty_update atty a s1) as [a' s2] eqn:U.
  destruct (atty_update_spec _ _ _ _ _ Pin U)
    as (Uk & Un & Uin & Up & Upt & Ur & Unext & Ukeep & Unew).
  destruct (atty_roles_spec _ _ _ _ _ _ _ H) as (-> & Rp & Rpt & Ra & Rnext & Rroles).
  assert (Hold' : atty_old (attorneys s) a' \/ atty_pk a' = next_pk s).
  { destruct Pold as [Po|Po]; [left; exists a; repeat split; [exact Po|congruence|congruence]|].
    right. congruence. }
  exists a'. split; [reflexivity|]. split; [rewrite Un; exact Pn|].
  repeat split.
  - rewrite Ra. exact Uin.
  - exact Hold'.
  - congruence.
  - congruence.
  - intros x Hx. rewrite Ra. destruct (Ukeep x (Pinc x Hx)) as [H2|E]; [left; exact H2|].
    right. exists a'. repeat split.
    + exact Uin.
    + congruence.
    + left. rewrite Un. symmetry. exact Pn.
    + destruct Hold' as [Ho|Ho]; [left; exact Ho|right; lia].
  - intros x Hx. rewrite Ra in Hx. destruct (Unew x Hx) as [Hx1| ->]; [|exact Hold'].
    destruct (Pnew x Hx1) as [Hx0|E]; [left; apply atty_old_in; exact Hx0|right; exact E].
  - lia.
  - intros r Hr Hk. apply Rroles; [rewrite Ur, Pr; exact Hr|exact Hk].
Qed.

Definition attorney_step (p d : nat) (acc : list nat * store) (a : atty_norm) :=
  let '(ids, st) := acc in
  let '(id, st') := add_attorney normalize_attorney_contact st a p d in
  (ids ++ [id], st').

Lemma attorney_loop_spec p d atts : forall ids0 st0 ids st1,
  fold_left (attorney_step p d) atts (ids0, st0) = (ids, st1) ->
  exists new, ids = ids0 ++ new
    /\ parties st1 = parties st0 /\ party_types st1 = party_types st0
    /\ atty_kept (map an_name atts) (next_pk st0) (attorneys st0) (attorneys st1)
    /\ (forall x, In x (attorneys st1) -> atty_old (attorneys st0) x \/ next_pk st0 <= atty_pk x)
    /\ next_pk st0 <= next_pk st1
    /\ (forall id, In id new -> exists a, In a (attorneys st1) /\ atty_pk a = id
          /\ In (atty_name a) (map an_name atts)
          /\ (atty_old (attorneys st0) a \/ next_pk st0 <= atty_pk a))
    /\ (forall r, In r (roles st0) ->
          role_party r <> p \/ role_docket r <> d \/ ~ In (role_attorney r) new ->
          In r (roles st1)).
Proof.
  induction atts as [|a rest IH]; intros ids0 st0 ids st1 H.
  - simpl in H. injection H as <- <-. exists []. rewrite app_nil_r.
    repeat split; try reflexivity.
    + apply atty_kept_refl.
    + intros z Hz. left. apply atty_old_in. exact Hz.
    + intros id [].
    + intros r Hr _. exact Hr.
  - simpl in H.
    destruct (add_attorney normalize_attorney_contact st0 a p d) as [id st'] eqn:A.
    destruct (add_attorney_spec _ _ _ _ _ _ A)
      as (x & Hid & Hname & Hin & Hold & Hp & Hpt & Hkept & Hnew & Hnext & Hroles).
    destruct (IH _ _ _ _ H)
      as (new & -> & Hp' & Hpt' & Hkept' & Hnew' & Hnext' & Hids' & Hroles').
    assert (Hl : forall y, In y (attorneys st') ->
                   atty_old (attorneys st0) y \/ next_pk st0 <= atty_pk y).
    { intros y Hy. destruct (Hnew y Hy) as [Ho|Ho]; [left; exact Ho|right; lia]. }
    exists (id :: new). rewrite <- app_assoc. repeat split.
    + congruence.
    + congruence.
    + exact (atty_kept_trans [an_name a] (map an_name rest) _ _ _ _ _ Hkept Hkept' Hl Hnext).
    + intros z Hz. destruct (Hnew' z Hz) as [Hz'|Hz']; [|right; lia].
      exact (atty_old_trans _ _ _ z Hz' Hl).
    + lia.
    + intros i [<-|Hi].
      * destruct (atty_kept_row [an_name a] (map an_name rest) (next_pk st0) (next_pk st')
                    _ _ _ x Hkept' Hin ltac:(left; symmetry; exact Hname)
                    ltac:(destruct Hold as [Ho|Ho]; [left; exact Ho|right; lia]) Hl Hnext)
          as (y & Hy & Ey & Hny & Hoy).
        exists y. repeat split; try assumption. congruence.
      * destruct (Hids' i Hi) as (y & Hy & Hyk & Hyn & Hyo).
        exists y. repeat split; try assumption.
        -- right. exact Hyn.
        -- destruct Hyo as [Ho|Ho]; [exact (atty_old_trans _ _ _ y Ho Hl)|right; lia].
    + intros r Hr Hk. apply Hroles'.
      * apply Hroles; [exact Hr|].
        destruct Hk as [Hk|[Hk|Hk]]; [right; left; exact Hk|right; right; exact Hk|].
        left. intros E. apply Hk. left. symmetry. exact E.
      * destruct Hk as [Hk|[Hk|Hk]]; [left; exact Hk|right; left; exact Hk|].
        right. right. intros E. apply Hk. right. exact E.
Qed.

(** [add_party] in its two halves: picking the party row, then updating
    its party type and adding its attorneys. *)
Definition party_pick (s : store) (d : nat) (pin : party_norm) : party * store :=
  let on_docket (p : party) :=
    String.eqb (party_name p) (pn_name pin)
    && existsb (fun pt => Nat.eqb (pt_party pt) (party_pk p) && Nat.eqb (pt_docket pt) d)
         (party_types s) in
  match filter on_docket (parties s) with
  | [] =>
      let p := mkP (next_pk s) (pn_name pin) (next_pk s) in
      (p, bump (set_parties s (parties s ++ [p])))
  | [p] => (p, s)
  | l => match earliest_by party_date_created l with
         | Some p => (p, s)
         | None => (mkP 0 "" 0, s)
         end
  end.

Definition party_finish (s1 : store) (p : party) (d : nat) (pin : party_norm)
  : nat * list nat * store :=
  let extra := match pn_extra_info pin with Some x => x | None => "" end in
  let upd (pt : party_type) :=
    mkPT (pt_pk pt) (pt_docket pt) (pt_party pt) (pt_name pt) extra
      (pn_date_terminated pin)
      (match pn_criminal_levels pin with
       | Some (o, _) => o | None => pt_highest_offense_level_opening pt end)
      (match pn_criminal_levels pin with
       | Some (_, t) => t | None => pt_highest_offense_level_terminated pt end) in
  let sel (pt : party_type) :=
    Nat.eqb (pt_party pt) (party_pk p) && Nat.eqb (pt_docket pt) d
    && String.eqb (pt_name pt) (pn_type pin) in
  let s2 :=
    if existsb sel (party_types s1)
    then set_party_types s1 (map (fun pt => if sel pt then upd pt else pt) (party_types s1))
    else
      let pt := upd (mkPT (next_pk s1) d (party_pk p) (pn_type pin) "" None "" "") in
      bump (set_party_types s1 (party_types s1 ++ [pt])) in
  let '(attys, s3) :=
    fold_left (fun acc a => let '(ids, st) := acc in
                            let '(id, st') := add_attorney normalize_attorney_contact st a (party_pk p) d in
                            (ids ++ [id], st'))
      (pn_attorneys pin) ([], s2) in
  (party_pk p, attys, s3).

Lemma add_party_split s d pin :
  add_party normalize_attorney_contact s d pin = let '(p, s1) := party_pick s d pin in party_finish s1 p d pin.
Proof. reflexivity. Qed.

Lemma party_pick_spec s d pin p s1 :
  party_pick s d pin = (p, s1) ->
  party_name p = pn_name pin /\ In p (parties s1)
  /\ (In p (parties s) \/ party_pk p = next_pk s)
  /\ incl (parties s) (parties s1)
  /\ (forall x, In x (parties s1) -> In x (parties s) \/ party_pk x = next_pk s)
  /\ attorneys s1 = attorneys s /\ party_types s1 = party_types s /\ roles s1 = roles s
  /\ next_pk s <= next_pk s1.
Proof.
  intros H. unfold party_pick in H.
  destruct (filter _ (parties s)) as [|x [|y l]] eqn:F.
  - injection H as <- <-. cbn -[filter].
    repeat split; try reflexivity.
    + apply in_or_app. right. left. reflexivity.
    + right. reflexivity.
    + intros z Hz. apply in_or_app. left. exact Hz.
    + intros z Hz. apply in_app_or in Hz. destruct Hz as [Hz|[<-|[]]]; [left; exact Hz|right; reflexivity].
    + lia.
  - injection H as <- <-.
    assert (Hx : In x (filter (fun p => String.eqb (party_name p) (pn_name pin)
       && existsb (fun pt => Nat.eqb (pt_party pt) (party_pk p) && Nat.eqb (pt_docket pt) d)
            (party_types s)) (parties s))) by (rewrite F; left; reflexivity).
    apply filter_In in Hx. destruct Hx as [Hx Hn].
    apply andb_true_iff in Hn. destruct Hn as [Hn _]. apply String.eqb_eq in Hn.
    repeat split; try assumption; try reflexivity.
    + left. exact Hx.
    + intros z Hz. exact Hz.
    + intros z Hz. left. exact Hz.
  - destruct (LocatorFacts.earliest_by_some party_date_created x (y :: l)) as [e He].
    rewrite He in H. injection H as <- <-.
    destruct (LocatorFacts.earliest_by_spec _ _ _ He) as [Hin _].
    rewrite <- F in Hin. apply filter_In in Hin. destruct Hin as [Hx Hn].
    apply andb_true_iff in Hn. destruct Hn as [Hn _]. apply String.eqb_eq in Hn.
    repeat split; try assumption; try reflexivity.
    + left. exact Hx.
    + intros z Hz. exact Hz.
    + intros z Hz. left. exact Hz.
Qed.

Lemma party_finish_spec s1 p d pin pid aids s' :
  party_finish s1 p d pin = (pid, aids, s') ->
  pid = party_pk p /\ parties s' = parties s1
  /\ atty_kept (map an_name (pn_attorneys pin)) (next_pk s1) (attorneys s1) (attorneys s')
  /\ (forall x, In x (attorneys s') -> atty_old (attorneys s1) x \/ next_pk s1 <= atty_pk x)
  /\ next_pk s1 <= next_pk s'
  /\ (forall id, In id aids -> exists a, In a (attorneys s') /\ atty_pk a = id
        /\ In (atty_name a) (map an_name (pn_attorneys pin))
        /\ (atty_old (attorneys s1) a \/ next_pk s1 <= atty_pk a))
  /\ (forall pt, In pt (party_types s1) -> pt_party pt <> pid -> In pt (party_types s'))
  /\ (forall pt, In pt (party_types s1) -> exists pt', In pt' (party_types s')
        /\ pt_party pt' = pt_party pt /\ pt_docket pt' = pt_docket pt)
  /\ (forall r, In r (roles s1) ->
        role_party r <> pid \/ role_docket r <> d \/ ~ In (role_attorney r) aids ->
        In r (roles s')).
Proof.
  intros H. unfold party_finish in H. cbv zeta in H.
  set (upd := fun pt => mkPT (pt_pk pt) (pt_docket pt) (pt_party pt) (pt_name pt)
      (match pn_extra_info pin with Some x => x | None => "" end)
      (pn_date_terminated pin)
      (match pn_criminal_levels pin with
       | Some (o, _) => o | None => pt_highest_offense_level_opening pt end)
      (match pn_criminal_levels pin with
       | Some (_, t) => t | None => pt_highest_offense_level_terminated pt end)) in H.
  set (sel := fun pt => Nat.eqb (pt_party pt) (party_pk p) && Nat.eqb (pt_docket pt) d
      && String.eqb (pt_name pt) (pn_type pin)) in H.
  set (s2 := if existsb sel (party_types s1) then _ else _) in H.
  assert (Hs2 : parties s2 = parties s1 /\ attorneys s2 = attorneys s1
     /\ roles s2 = roles s1 /\ next_pk s1 <= next_pk s2
     /\ (forall pt, In pt (party_types s1) -> pt_party pt <> party_pk p ->
           In pt (party_types s2))
     /\ (forall pt, In pt (party_types s1) -> exists pt', In pt' (party_types s2)
           /\ pt_party pt' = pt_party pt /\ pt_docket pt' = pt_docket pt)).
  { unfold s2. destruct (existsb sel (party_types s1));
      cbn [set_party_types bump parties attorneys roles next_pk party_types].
    - repeat split; try reflexivity.
      + intros pt Hpt Hne. apply in_map_iff. exists pt. split; [|exact Hpt].
        apply Nat.eqb_neq in Hne. rewrite Hne. reflexivity.
      + intros pt Hpt. eexists. split.
        * apply in_map. exact Hpt.
        * cbn beta.
          destruct (Nat.eqb (pt_party pt) (party_pk p) && Nat.eqb (pt_docket pt) d
                    && String.eqb (pt_name pt) (pn_type pin)); split; reflexivity.
    - repeat split; try reflexivity; try lia.
      + intros pt Hpt _. apply in_or_app. left. exact Hpt.
      + intros pt Hpt. exists pt. split; [apply in_or_app; left; exact Hpt|].
        split; reflexivity. }
  destruct Hs2 as (Hp2 & Ha2 & Hr2 & Hn2 & Hpt2 & Hex2).
  destruct (fold_left _ (pn_attorneys pin) ([], s2)) as [attys s3] eqn:Fo.
  injection H as <- -> ->.
  destruct (attorney_loop_spec (party_pk p) d (pn_attorneys pin) [] s2 aids s' Fo)
    as (new & -> & Hp3 & Hpt3 & Hinc3 & Hnew3 & Hnext3 & Hids3 & Hroles3).
  simpl. repeat split.
  - congruence.
  - rewrite <- Ha2. exact (atty_kept_le _ _ _ _ _ Hn2 Hinc3).
  - intros z Hz. rewrite <- Ha2. destruct (Hnew3 z Hz) as [H'|H']; [left; exact H'|right; lia].
  - lia.
  - intros i Hi. destruct (Hids3 i Hi) as (a & Ha & Hak & Han & Hao).
    exists a. rewrite <- Ha2. repeat split; try assumption.
    destruct Hao as [Hao|Hao]; [left; exact Hao|right; lia].
  - intros pt Hpt Hne. rewrite Hpt3. apply Hpt2; assumption.
  - intros pt Hpt. rewrite Hpt3. apply Hex2. exact Hpt.
  - intros r Hr Hk. apply Hroles3; [rewrite Hr2; exact Hr|exact Hk].
Qed.

Lemma add_party_spec s d pin pid aids s' :
  add_party normalize_attorney_contact s d pin = (pid, aids, s') ->
  exists p, party_pk p = pid /\ party_name p = pn_name pin /\ In p (parties s')
  /\ (In p (parties s) \/ next_pk s <= party_pk p)
  /\ incl (parties s) (parties s')
  /\ (forall x, In x (parties s') -> In x (parties s) \/ next_pk s <= party_pk x)
  /\ atty_kept (map an_name (pn_attorneys pin)) (next_pk s) (attorneys s) (attorneys s')
  /\ (forall x, In x (attorneys s') -> atty_old (attorneys s) x \/ next_pk s <= atty_pk x)
  /\ next_pk s <= next_pk s'
  /\ (forall id, In id aids -> exists a, In a (attorneys s') /\ atty_pk a = id
        /\ In (atty_name a) (map an_name (pn_attorneys pin))
        /\ (atty_old (attorneys s) a \/ next_pk s <= atty_pk a))
  /\ (forall pt, In pt (party_types s) -> pt_party pt <> pid -> In pt (party_types s'))
  /\ (forall pt, In pt (party_types s) -> exists pt', In pt' (party_types s')
        /\ pt_party pt' = pt_party pt /\ pt_docket pt' = pt_docket pt)
  /\ (forall r, In r (roles s) ->
        role_party r <> pid \/ role_docket r <> d \/ ~ In (role_attorney r) aids ->
        In r (roles s')).
Proof.
  intros H. rewrite add_party_split in H.
  destruct (party_pick s d pin) as [p s1] eqn:Pk.
  destruct (party_pick_spec _ _ _ _ _ Pk)
    as (Hn & Hin & Hold & Hinc & Hnew & Ha1 & Hpt1 & Hr1 & Hnext1).
  destruct (party_finish_spec _ _ _ _ _ _ _ H)
    as (-> & Hp2 & Hinc2 & Hnew2 & Hnext2 & Hids2 & Hpt2 & Hex2 & Hroles2).
  exists p. repeat split; try assumption.
  - rewrite Hp2. exact Hin.
  - destruct Hold as [Ho|Ho]; [left; exact Ho|right; lia].
  - intros z Hz. rewrite Hp2. apply Hinc. exact Hz.
  - intros z Hz. rewrite Hp2 in Hz. destruct (Hnew z Hz) as [Hz'|Hz']; [left; exact Hz'|right; lia].
  - rewrite <- Ha1. exact (atty_kept_le _ _ _ _ _ Hnext1 Hinc2).
  - intros z Hz. rewrite <- Ha1. destruct (Hnew2 z Hz) as [Hz'|Hz']; [left; exact Hz'|right; lia].
  - lia.
  - intros i Hi. destruct (Hids2 i Hi) as (a & Ha & Hak & Han & Hao).
    exists a. rewrite <- Ha1. repeat split; try assumption.
    destruct Hao as [Hao|Hao]; [left; exact Hao|right; lia].
  - intros pt Hpt Hne. apply Hpt2; [rewrite Hpt1; exact Hpt|exact Hne].
  - intros pt Hpt. apply Hex2. rewrite Hpt1. exact Hpt.
  - intros r Hr Hk. apply Hroles2; [rewrite Hr1; exact Hr|exact Hk].
Qed.

Definition party_step (d : nat) (acc : list nat * list nat * store) (pin : party_norm) :=
  let '(up, ua, st) := acc in
  let '(pid, aids, st') := add_party normalize_attorney_contact st d pin in
  (up ++ [pid], ua ++ aids, st').

Definition attorney_names (local : list party_norm) : list string :=
  flat_map (fun pin => map an_name (pn_attorneys pin)) local.

Lemma party_loop_spec d local : forall up0 ua0 st0 up ua st1,
  fold_left (party_step d) local (up0, ua0, st0) = (up, ua, st1) ->
  exists nup nua, up = up0 ++ nup /\ ua = ua0 ++ nua
  /\ incl (parties st0) (parties st1)
  /\ (forall x, In x (parties st1) -> In x (parties st0) \/ next_pk st0 <= party_pk x)
  /\ atty_kept (attorney_names local) (next_pk st0) (attorneys st0) (attorneys st1)
  /\ (forall x, In x (attorneys st1) -> atty_old (attorneys st0) x \/ next_pk st0 <= atty_pk x)
  /\ next_pk st0 <= next_pk st1
  /\ (forall id, In id nup -> exists p, In p (parties st1) /\ party_pk p = id
        /\ In (party_name p) (map pn_name local)
        /\ (In p (parties st0) \/ next_pk st0 <= party_pk p))
  /\ (forall id, In id nua -> exists a, In a (attorneys st1) /\ atty_pk a = id
        /\ In (atty_name a) (attorney_names local)
        /\ (atty_old (attorneys st0) a \/ next_pk st0 <= atty_pk a))
  /\ (forall pt, In pt (party_types st0) -> ~ In (pt_party pt) nup ->
        In pt (party_types st1))
  /\ (forall pt, In pt (party_types st0) -> exists pt', In pt' (party_types st1)
        /\ pt_party pt' = pt_party pt /\ pt_docket pt' = pt_docket pt)
  /\ (forall r, In r (roles st0) ->
        ~ In (role_party r) nup \/ role_docket r <> d \/ ~ In (role_attorney r) nua ->
        In r (roles st1)).
Proof.
  induction local as [|pin rest IH]; intros up0 ua0 st0 up ua st1 H.
  - simpl in H. injection H as <- <- <-. exists [], [].
    rewrite !app_nil_r. repeat split; try reflexivity.
    + intros z Hz. exact Hz.
    + intros z Hz. left. exact Hz.
    + apply atty_kept_refl.
    + intros z Hz. left. apply atty_old_in. exact Hz.
    + intros i [].
    + intros i [].
    + intros pt Hpt _. exact Hpt.
    + intros pt Hpt. exists pt. repeat split; [exact Hpt].
    + intros r Hr _. exact Hr.
  - simpl in H. destruct (add_party normalize_attorney_contact st0 d pin) as [[pid aids] st'] eqn:A.
    destruct (add_party_spec _ _ _ _ _ _ A)
      as (p & Hpk & Hpn & Hpin & Hpold & Hpinc & Hpnew & Hainc & Hanew & Hnext
          & Hids & Hpt & Hex & Hroles).
    destruct (IH _ _ _ _ _ _ H)
      as (nup & nua & -> & -> & Hpinc' & Hpnew' & Hainc' & Hanew' & Hnext'
          & Hups' & Hids' & Hpt' & Hex' & Hroles').
    assert (Hl : forall y, In y (attorneys st') ->
                   atty_old (attorneys st0) y \/ next_pk st0 <= atty_pk y).
    { intros y Hy. destruct (Hanew y Hy) as [Ho|Ho]; [left; exact Ho|right; lia]. }
    exists (pid :: nup), (aids ++ nua). rewrite <- !app_assoc. repeat split.
    + intros z Hz. apply Hpinc'. apply Hpinc. exact Hz.
    + intros z Hz. destruct (Hpnew' z Hz) as [Hz'|Hz']; [|right; lia].
      destruct (Hpnew z Hz') as [Hz''|Hz'']; [left; exact Hz''|right; lia].
    + exact (atty_kept_trans _ (attorney_names rest) _ _ _ _ _ Hainc Hainc' Hl Hnext).
    + intros z Hz. destruct (Hanew' z Hz) as [Hz'|Hz']; [|right; lia].
      exact (atty_old_trans _ _ _ z Hz' Hl).
    + lia.
    + intros i [<-|Hi].
      * exists p. repeat split.
        -- apply Hpinc'. exact Hpin.
        -- exact Hpk.
        -- left. symmetry. exact Hpn.
        -- exact Hpold.
      * destruct (Hups' i Hi) as (q & Hq & Hqk & Hqn & Hqo).
        exists q. repeat split; try assumption.
        -- right. exact Hqn.
        -- destruct Hqo as [Ho|Ho]; [|right; lia].
           destruct (Hpnew q Ho) as [Ho'|Ho']; [left; exact Ho'|right; lia].
    + intros i Hi. apply in_app_or in Hi. destruct Hi as [Hi|Hi].
      * destruct (Hids i Hi) as (a & Ha & Hak & Han & Hao).
        destruct (atty_kept_row _ (attorney_names rest) (next_pk st0) (next_pk st')
                    _ _ _ a Hainc' Ha Han Hao Hl Hnext) as (b & Hb & Eb & Hnb & Hob).
        exists b. repeat split; try assumption. congruence.
      * destruct (Hids' i Hi) as (a & Ha & Hak & Han & Hao).
        exists a. repeat split; try assumption.
        -- unfold attorney_names. simpl. apply in_or_app. right. exact Han.
        -- destruct Hao as [Ho|Ho]; [exact (atty_old_trans _ _ _ a Ho Hl)|right; lia].
    + intros pt Hin Hni. apply Hpt'.
      * apply Hpt; [exact Hin|]. intros E. apply Hni. left. symmetry. exact E.
      * intros E. apply Hni. right. exact E.
    + intros pt Hin. destruct (Hex pt Hin) as (pt1 & H1 & E1 & F1).
      destruct (Hex' pt1 H1) as (pt2 & H2 & E2 & F2).
      exists pt2. repeat split; [exact H2|congruence|congruence].
    + intros r Hr Hk. apply Hroles'.
      * apply Hroles; [exact Hr|].
        destruct Hk as [Hk|[Hk|Hk]].
        -- left. intros E. apply Hk. left. symmetry. exact E.
        -- right. left. exact Hk.
        -- right. right. intros E. apply Hk. apply in_or_app. left. exact E.
      * destruct Hk as [Hk|[Hk|Hk]].
        -- left. intros E. apply Hk. right. exact E.
        -- right. left. exact Hk.
        -- right. right. intros E. apply Hk. apply in_or_app. right. exact E.
Qed.

Ltac breakb :=
  repeat match goal with
  | H : _ && _ = true |- _ => apply andb_true_iff in H; destruct H
  | H : Nat.eqb _ _ = true |- _ => apply Nat.eqb_eq in H
  end.

Lemma mem_In x l : mem x l = true <-> In x l.
Proof.
  unfold mem. rewrite existsb_exists. split.
  - intros (y & Hy & E). apply Nat.eqb_eq in E. subst. exact Hy.
  - intros H. exists x. split; [exact H|apply Nat.eqb_refl].
Qed.

Lemma nodup_map_inj {A} (f : A -> nat) l x y :
  NoDup (map f l) -> In x l -> In y l -> f x = f y -> x = y.
Proof.
  induction l as [|a l IH]; simpl; intros Hn Hx Hy E; [contradiction|].
  inversion Hn as [|? ? Hni Hn']; subst.
  destruct Hx as [<-|Hx], Hy as [<-|Hy]; try reflexivity.
  - exfalso. apply Hni. rewrite E. apply in_map. exact Hy.
  - exfalso. apply Hni. rewrite <- E. apply in_map. exact Hx.
  - apply IH; assumption.
Qed.

Lemma docket_party_ids_mono s t d :
  incl (parties s) (parties t) ->
  (forall pt, In pt (party_types s) -> exists pt', In pt' (party_types t)
     /\ pt_party pt' = pt_party pt /\ pt_docket pt' = pt_docket pt) ->
  forall x, In x (docket_party_ids s d) -> In x (docket_party_ids t d).
Proof.
  unfold docket_party_ids. intros Hinc Hex x Hx.
  apply in_map_iff in Hx. destruct Hx as (p & <- & Hp).
  apply filter_In in Hp. destruct Hp as [Hp Hb].
  apply existsb_exists in Hb. destruct Hb as (pt & Hpt & Hb). breakb.
  destruct (Hex pt Hpt) as (pt' & Hpt' & E1 & E2).
  apply in_map. apply filter_In. split; [apply Hinc; exact Hp|].
  apply existsb_exists. exists pt'. split; [exact Hpt'|].
  rewrite E1, E2, H, H0, !Nat.eqb_refl. reflexivity.
Qed.

Lemma disassociate_frame s d ps pp ap :
  let s' := disassociate_extraneous_entities s d ps pp ap in
  parties s' = parties s /\ attorneys s' = attorneys s.
Proof.
  unfold disassociate_extraneous_entities.
  destruct (if check_json_for_terminated_entities ps then _ else _) as [[x y] z].
  split; reflexivity.
Qed.

(** Without termination markers, and with a terminated party or attorney
    on the docket, the rows of those are all kept. *)
Lemma disassociate_no_markers s d ps pp ap :
  check_json_for_terminated_entities ps = false ->
  let s' := disassociate_extraneous_entities s d ps pp ap in
  (forall pt, In pt (party_types s) -> In (pt_party pt) (terminated_party_ids s d) ->
     In pt (party_types s'))
  /\ (forall r, In r (roles s) -> In (role_party r) (terminated_party_ids s d) ->
        In r (roles s'))
  /\ (forall r, In r (roles s) -> In (role_attorney r) (terminated_attorney_ids s d) ->
        In r (roles s')).
Proof.
  intros Hc. unfold disassociate_extraneous_entities. rewrite Hc.
  repeat split; intros x Hx Ht; revert Ht;
    destruct (terminated_party_ids s d) as [|t tl], (terminated_attorney_ids s d) as [|u ul];
    intros Ht; try contradiction; cbn [set_roles set_party_types roles party_types];
    apply filter_In; split; try exact Hx;
    apply orb_true_iff;
    match goal with
    | Ht : In (role_attorney _) _ |- _ => left; apply orb_true_iff; right
    | _ => right
    end;
    apply mem_In; try (apply in_or_app; right); exact Ht.
Qed.

(** With termination markers, a PartyType row left on the docket belongs
    to a preserved party, a Role row left on it to a preserved attorney. *)
Lemma disassociate_markers s d ps pp ap :
  check_json_for_terminated_entities ps = true ->
  let s' := disassociate_extraneous_entities s d ps pp ap in
  (forall pt, In pt (party_types s') -> pt_docket pt = d -> In (pt_party pt) pp)
  /\ (forall r, In r (roles s') -> role_docket r = d -> In (role_attorney r) ap).
Proof.
  intros Hc. unfold disassociate_extraneous_entities. rewrite Hc. simpl.
  split; intros x Hx Hd; apply filter_In in Hx; destruct Hx as [_ Hb];
    rewrite Hd, Nat.eqb_refl in Hb; simpl in Hb.
  - apply mem_In. exact Hb.
  - rewrite orb_false_r in Hb. apply mem_In. exact Hb.
Qed.

Definition input_attorney_names (ps : list party_in) : list string :=
  flat_map (fun p => map a_name (p_attorneys p)) ps.

Lemma normalize_names norm ps :
  map pn_name (normalize_attorney_roles norm ps) = map p_name ps
  /\ attorney_names (normalize_attorney_roles norm ps) = input_attorney_names ps.
Proof.
  induction ps as [|p ps [IH1 IH2]]; [split; reflexivity|].
  split; simpl; [rewrite IH1; reflexivity|].
  unfold attorney_names, input_attorney_names in *. simpl. rewrite IH2.
  rewrite map_map. reflexivity.
Qed.

(** A party row whose name is not in the list is never picked: the rows
    the loop picks carry an incoming name, or are fresh. *)
Lemma unpicked_party s st1 names nup P :
  NoDup (map party_pk (parties s)) ->
  (forall p, In p (parties s) -> party_pk p < next_pk s) ->
  In P (parties s) -> ~ In (party_name P) names ->
  (forall id, In id nup -> exists p, In p (parties st1) /\ party_pk p = id
     /\ In (party_name p) names /\ (In p (parties s) \/ next_pk s <= party_pk p)) ->
  ~ In (party_pk P) nup.
Proof.
  intros ND Hlt HP Hn Hids Hin.
  destruct (Hids _ Hin) as (q & _ & Hq & Hqn & [Ho|Ho]).
  - assert (E : q = P) by (apply (nodup_map_inj party_pk (parties s)); assumption).
    subst q. contradiction.
  - specialize (Hlt P HP). lia.
Qed.

Lemma unpicked_attorney s st1 names nua A :
  NoDup (map atty_pk (attorneys s)) ->
  (forall a, In a (attorneys s) -> atty_pk a < next_pk s) ->
  In A (attorneys s) -> ~ In (atty_name A) names ->
  (forall id, In id nua -> exists a, In a (attorneys st1) /\ atty_pk a = id
     /\ In (atty_name a) names /\ (atty_old (attorneys s) a \/ next_pk s <= atty_pk a)) ->
  ~ In (atty_pk A) nua.
Proof.
  intros ND Hlt HA Hn Hids Hin.
  destruct (Hids _ Hin) as (q & _ & Hq & Hqn & [(y & Hy & Ey & Fy)|Ho]).
  - assert (E : y = A) by (apply (nodup_map_inj atty_pk (attorneys s)); congruence).
    subst y. apply Hn. rewrite Fy. exact Hqn.
  - specialize (Hlt A HA). lia.
Qed.

(** Claim C5 (amended).  On a non-empty party list, with the store's
    primary keys distinct and below the next key:
    - no Party row is deleted;
    - without termination markers in the (normalised) list, every
      PartyType and Role row of a party that was terminated on the
      docket and whose name the list omits is kept, and so is every Role
      row of an attorney that was terminated on the docket and whose name
      the list omits;
    - with termination markers, a party whose name the list omits keeps
      no PartyType row on the docket, and a Role row of it on the docket
      survives exactly when its attorney carries a name from the list
      (such a row is not deleted). *)
Theorem add_parties_and_attorneys_reconcile norm s d ps :
  ps <> [] ->
  NoDup (map party_pk (parties s)) -> NoDup (map atty_pk (attorneys s)) ->
  (forall p, In p (parties s) -> party_pk p < next_pk s) ->
  (forall a, In a (attorneys s) -> atty_pk a < next_pk s) ->
  let s' := add_parties_and_attorneys norm normalize_attorney_contact s d (Some ps) in
  incl (parties s) (parties s')
  /\ (check_json_for_terminated_entities (normalize_attorney_roles norm ps) = false ->
      (forall P, In P (parties s) -> In (party_pk P) (terminated_party_ids s d) ->
         ~ In (party_name P) (map p_name ps) ->
         (forall pt, In pt (party_types s) -> pt_party pt = party_pk P ->
            In pt (party_types s'))
         /\ (forall r, In r (roles s) -> role_party r = party_pk P -> In r (roles s')))
      /\ (forall A, In A (attorneys s) -> In (atty_pk A) (terminated_attorney_ids s d) ->
            ~ In (atty_name A) (input_attorney_names ps) ->
            forall r, In r (roles s) -> role_attorney r = atty_pk A -> In r (roles s')))
  /\ (check_json_for_terminated_entities (normalize_attorney_roles norm ps) = true ->
      forall P, In P (parties s) -> ~ In (party_name P) (map p_name ps) ->
        (forall pt, In pt (party_types s') -> pt_docket pt = d -> pt_party pt <> party_pk P)
        /\ (forall r, In r (roles s') -> role_docket r = d -> role_party r = party_pk P ->
              exists a, In a (attorneys s') /\ atty_pk a = role_attorney r
                        /\ In (atty_name a) (input_attorney_names ps))).
Proof.
  intros Hne ND1 ND2 Hlt1 Hlt2 s'.
  destruct (normalize_names norm ps) as [N1 N2].
  unfold s', add_parties_and_attorneys. destruct ps as [|p0 ps0]; [contradiction|].
  cbv beta iota zeta.
  set (local := normalize_attorney_roles norm (p0 :: ps0)) in *.
  destruct (fold_left _ local ([], [], s)) as [[up ua] st1] eqn:Fo.
  destruct (party_loop_spec d local [] [] s up ua st1 Fo)
    as (nup & nua & Eup & Eua & Hpinc & Hpnew & Hainc & Hanew & Hnext
        & Hups & Hids & Hpt & Hex & Hroles).
  simpl in Eup, Eua. subst up ua.
  pose proof (disassociate_frame st1 d local nup nua) as Hf. cbv zeta in Hf.
  destruct Hf as [Fp Fa].
  split; [rewrite Fp; exact Hpinc|]. split.
  - intros Hc. pose proof (disassociate_no_markers st1 d local nup nua Hc) as HN.
    cbv zeta in HN. destruct HN as (K1 & K2 & K3). split.
    + intros P HP Ht Hn.
      assert (HnP : ~ In (party_pk P) nup).
      { apply (unpicked_party s st1 (map pn_name local)); try assumption.
        rewrite N1. exact Hn. }
      assert (Ht' : In (party_pk P) (terminated_party_ids st1 d)).
      { unfold terminated_party_ids in *. apply filter_In in Ht. destruct Ht as [Hdp Hb].
        apply filter_In. split.
        - exact (docket_party_ids_mono s st1 d Hpinc Hex _ Hdp).
        - apply existsb_exists in Hb. destruct Hb as (pt & Hpt0 & Hb).
          apply existsb_exists. exists pt. split; [|exact Hb].
          apply Hpt; [exact Hpt0|].
          apply andb_true_iff in Hb. destruct Hb as [Hb _].
          apply andb_true_iff in Hb. destruct Hb as [E _]. apply Nat.eqb_eq in E.
          rewrite E. exact HnP. }
      split.
      * intros pt Hpt0 E. apply K1; [|rewrite E; exact Ht'].
        apply Hpt; [exact Hpt0|rewrite E; exact HnP].
      * intros r Hr E. apply K2; [|rewrite E; exact Ht'].
        apply Hroles; [exact Hr|left; rewrite E; exact HnP].
    + intros A HA Ht Hn r Hr E.
      assert (HnA : ~ In (atty_pk A) nua).
      { apply (unpicked_attorney s st1 (attorney_names local)); try assumption.
        rewrite N2. exact Hn. }
      assert (Ht' : In (atty_pk A) (terminated_attorney_ids st1 d)).
      { unfold terminated_attorney_ids in *. apply in_map_iff in Ht.
        destruct Ht as (a' & Ea & Ha'). apply filter_In in Ha'. destruct Ha' as [Ha' Hb].
        destruct (atty_kept_pk _ _ _ _ Hainc a' Ha') as (y & Hy & Ey).
        apply in_map_iff. exists y. split; [rewrite Ey; exact Ea|].
        apply filter_In. split; [exact Hy|]. rewrite Ey.
        assert (Kr : forall r0, In r0 (roles s) ->
                  Nat.eqb (role_attorney r0) (atty_pk a') = true -> In r0 (roles st1)).
        { intros r0 Hr0 Eq. apply Nat.eqb_eq in Eq. apply Hroles; [exact Hr0|].
          right; right. rewrite Eq, Ea. exact HnA. }
        apply andb_true_iff in Hb. destruct Hb as [Hb Hb3].
        apply andb_true_iff in Hb. destruct Hb as [Hb1 Hb2].
        apply existsb_exists in Hb1, Hb2, Hb3.
        destruct Hb1 as (r1 & Hr1 & B1). destruct Hb2 as (r2 & Hr2 & B2).
        destruct Hb3 as (r3 & Hr3 & B3).
        rewrite !andb_true_iff. repeat split; apply existsb_exists.
        - exists r1. apply andb_true_iff in B1. destruct B1 as [B1a B1b].
          split; [apply Kr; assumption|].
          rewrite B1a. simpl. apply mem_In. apply mem_In in B1b.
          exact (docket_party_ids_mono s st1 d Hpinc Hex _ B1b).
        - exists r2. split; [|exact B2]. apply Kr; [exact Hr2|].
          apply andb_true_iff in B2. apply B2.
        - exists r3. split; [|exact B3]. apply Kr; [exact Hr3|].
          apply andb_true_iff in B3. destruct B3 as [B3 _].
          apply andb_true_iff in B3. apply B3. }
      apply K3; [|rewrite E; exact Ht'].
      apply Hroles; [exact Hr|right; right; rewrite E; exact HnA].
  - intros Hc P HP Hn.
    pose proof (disassociate_markers st1 d local nup nua Hc) as HM.
    cbv zeta in HM. destruct HM as [M1 M2].
    assert (HnP : ~ In (party_pk P) nup).
    { apply (unpicked_party s st1 (map pn_name local)); try assumption.
      rewrite N1. exact Hn. }
    split.
    + intros pt Hpt0 Hd E. apply HnP. rewrite <- E. apply M1; assumption.
    + intros r Hr Hd _. destruct (Hids _ (M2 r Hr Hd)) as (a & Ha & Hak & Han & _).
      exists a. rewrite Fa, <- N2. split; [exact Ha|split; assumption].
Qed.


(** The rows a party's pass leaves in place: party types of other dockets,
    and every party type under its party, docket and name; and the party
    type it links the party with. *)
Lemma party_finish_frame s1 p d pin pid aids s' :
  party_finish s1 p d pin = (pid, aids, s') ->
  (forall pt, In pt (party_types s1) -> pt_docket pt <> d -> In pt (party_types s'))
  /\ (forall pt, In pt (party_types s1) -> exists pt', In pt' (party_types s')
        /\ pt_party pt' = pt_party pt /\ pt_docket pt' = pt_docket pt
        /\ pt_name pt' = pt_name pt)
  /\ (exists pt, In pt (party_types s') /\ pt_party pt = party_pk p /\ pt_docket pt = d
        /\ pt_name pt = pn_type pin).
Proof.
  intros H. unfold party_finish in H. cbv zeta in H.
  set (upd := fun pt => mkPT (pt_pk pt) (pt_docket pt) (pt_party pt) (pt_name pt)
      (match pn_extra_info pin with Some x => x | None => "" end)
      (pn_date_terminated pin)
      (match pn_criminal_levels pin with
       | Some (o, _) => o | None => pt_highest_offense_level_opening pt end)
      (match pn_criminal_levels pin with
       | Some (_, t) => t | None => pt_highest_offense_level_terminated pt end)) in H.
  set (sel := fun pt => Nat.eqb (pt_party pt) (party_pk p) && Nat.eqb (pt_docket pt) d
      && String.eqb (pt_name pt) (pn_type pin)) in H.
  set (s2 := if existsb sel (party_types s1) then _ else _) in H.
  assert (Hs2 :
     (forall pt, In pt (party_types s1) -> pt_docket pt <> d -> In pt (party_types s2))
     /\ (forall pt, In pt (party_types s1) -> exists pt', In pt' (party_types s2)
           /\ pt_party pt' = pt_party pt /\ pt_docket pt' = pt_docket pt
           /\ pt_name pt' = pt_name pt)
     /\ (exists pt, In pt (party_types s2) /\ pt_party pt = party_pk p /\ pt_docket pt = d
           /\ pt_name pt = pn_type pin)).
  { unfold s2. destruct (existsb sel (party_types s1)) eqn:E;
      cbn [set_party_types bump party_types].
    - split; [|split].
      + intros pt Hpt Hne. apply in_map_iff. exists pt. split; [|exact Hpt].
        unfold sel. apply Nat.eqb_neq in Hne. rewrite Hne, andb_false_r. reflexivity.
      + intros pt Hpt. eexists.
        split; [apply in_map; exact Hpt|]. cbn beta.
        destruct (Nat.eqb (pt_party pt) (party_pk p) && Nat.eqb (pt_docket pt) d
                  && String.eqb (pt_name pt) (pn_type pin)); repeat split; reflexivity.
      + apply existsb_exists in E. destruct E as (pt & Hpt & Hs).
        eexists. split.
        * apply in_map_iff. exists pt. split; [|exact Hpt]. unfold sel in Hs. rewrite Hs.
          reflexivity.
        * unfold sel in Hs. apply andb_true_iff in Hs. destruct Hs as [Hs Hn].
          apply andb_true_iff in Hs. destruct Hs as [Hp Hd].
          apply Nat.eqb_eq in Hp, Hd. apply String.eqb_eq in Hn.
          repeat split; assumption.
    - split; [|split].
      + intros pt Hpt _. apply in_or_app. left. exact Hpt.
      + intros pt Hpt. exists pt. split; [apply in_or_app; left; exact Hpt|].
        repeat split; reflexivity.
      + eexists. split; [apply in_or_app; right; left; reflexivity|].
        repeat split; reflexivity. }
  destruct Hs2 as (A & B & C).
  destruct (fold_left _ (pn_attorneys pin) ([], s2)) as [attys s3] eqn:Fo.
  injection H as _ _ <-.
  destruct (attorney_loop_spec (party_pk p) d (pn_attorneys pin) [] s2 attys s3 Fo)
    as (new & _ & _ & Hpt3 & _).
  rewrite Hpt3. exact (conj A (conj B C)).
Qed.

Lemma add_party_frame s d pin pid aids s' :
  add_party normalize_attorney_contact s d pin = (pid, aids, s') ->
  (forall pt, In pt (party_types s) -> pt_docket pt <> d -> In pt (party_types s'))
  /\ (forall pt, In pt (party_types s) -> exists pt', In pt' (party_types s')
        /\ pt_party pt' = pt_party pt /\ pt_docket pt' = pt_docket pt
        /\ pt_name pt' = pt_name pt)
  /\ (exists pt, In pt (party_types s') /\ pt_party pt = pid /\ pt_docket pt = d
        /\ pt_name pt = pn_type pin).
Proof.
  intros H. pose proof H as H0. rewrite add_party_split in H.
  destruct (party_pick s d pin) as [p s1] eqn:Pk.
  destruct (party_pick_spec _ _ _ _ _ Pk) as (_ & _ & _ & _ & _ & _ & Hpt1 & _).
  destruct (party_finish_spec _ _ _ _ _ _ _ H) as (-> & _).
  destruct (party_finish_frame _ _ _ _ _ _ _ H) as (A & B & C).
  rewrite Hpt1 in A, B. exact (conj A (conj B C)).
Qed.

(** Over the loop: every incoming party ends on a party row of its name,
    picked in [up], with a party type of its type on the docket. *)
Lemma party_loop_frame d local : forall up0 ua0 st0 up ua st1,
  fold_left (party_step d) local (up0, ua0, st0) = (up, ua, st1) ->
  (forall pt, In pt (party_types st0) -> pt_docket pt <> d -> In pt (party_types st1))
  /\ (forall pt, In pt (party_types st0) -> exists pt', In pt' (party_types st1)
        /\ pt_party pt' = pt_party pt /\ pt_docket pt' = pt_docket pt
        /\ pt_name pt' = pt_name pt)
  /\ (forall pin, In pin local -> exists p pt, In (party_pk p) up /\ In p (parties st1)
        /\ party_name p = pn_name pin /\ In pt (party_types st1)
        /\ pt_party pt = party_pk p /\ pt_docket pt = d /\ pt_name pt = pn_type pin)
  /\ incl up0 up.
Proof.
  induction local as [|pin rest IH]; intros up0 ua0 st0 up ua st1 H.
  - simpl in H. injection H as <- <- <-. split; [|split; [|split]].
    + intros pt Hpt _. exact Hpt.
    + intros pt Hpt. exists pt. repeat split; [exact Hpt].
    + intros pin [].
    + intros z Hz. exact Hz.
  - simpl in H. destruct (add_party normalize_attorney_contact st0 d pin) as [[pid aids] st'] eqn:A.
    destruct (add_party_frame _ _ _ _ _ _ A) as (A1 & A2 & A3).
    destruct (add_party_spec _ _ _ _ _ _ A) as (p & Hpk & Hpn & Hpin & _).
    destruct (IH _ _ _ _ _ _ H) as (I1 & I2 & I3 & I4).
    destruct (party_loop_spec _ _ _ _ _ _ _ _ H) as (_ & _ & _ & _ & Hpinc & _).
    split; [|split; [|split]].
    + intros pt Hpt Hne. apply I1; [apply A1|]; assumption.
    + intros pt Hpt. destruct (A2 pt Hpt) as (pt1 & H1 & E1 & E2 & E3).
      destruct (I2 pt1 H1) as (pt2 & H2 & F1 & F2 & F3).
      exists pt2. repeat split; congruence.
    + intros pin' [<-|Hin].
      * destruct A3 as (pt1 & H1 & E1 & E2 & E3).
        destruct (I2 pt1 H1) as (pt2 & H2 & F1 & F2 & F3).
        exists p, pt2. repeat split.
        -- apply I4. apply in_or_app. right. left. symmetry. exact Hpk.
        -- apply Hpinc. exact Hpin.
        -- exact Hpn.
        -- exact H2.
        -- congruence.
        -- congruence.
        -- congruence.
      * exact (I3 pin' Hin).
    + intros z Hz. apply I4. apply in_or_app. left. exact Hz.
Qed.

Lemma disassociate_frame_types s d ps pp ap :
  let s' := disassociate_extraneous_entities s d ps pp ap in
  (forall pt, In pt (party_types s) -> pt_docket pt <> d \/ In (pt_party pt) pp ->
     In pt (party_types s'))
  /\ (forall r, In r (roles s) -> role_docket r <> d -> In r (roles s')).
Proof.
  unfold disassociate_extraneous_entities.
  destruct (if check_json_for_terminated_entities ps then _ else _) as [[x y] z] eqn:T.
  assert (Hx : incl pp x).
  { destruct (check_json_for_terminated_entities ps).
    - injection T as <- _ _. intros q Hq. exact Hq.
    - cbv zeta in T.
      destruct (terminated_party_ids s d), (terminated_attorney_ids s d);
        injection T as <- _ _; intros q Hq; try exact Hq; apply in_or_app; left; exact Hq. }
  cbn [set_roles set_party_types party_types roles]. split.
  - intros pt Hpt Hk. apply filter_In. split; [exact Hpt|].
    destruct Hk as [Hk|Hk].
    + apply Nat.eqb_neq in Hk. rewrite Hk. reflexivity.
    + apply Hx, mem_In in Hk. rewrite Hk, orb_true_r. reflexivity.
  - intros r Hr Hk. apply filter_In. split; [exact Hr|].
    apply Nat.eqb_neq in Hk. rewrite Hk. reflexivity.
Qed.

(** [add_parties_and_attorneys] deletes no Party row; it removes no
    Attorney primary key: every Attorney row is kept as it is, or is
    rewritten in place under its key (the contact update of an existing
    attorney) with the name of an incoming attorney; and it leaves the
    PartyType and Role rows of every other docket in place. *)
Theorem add_parties_and_attorneys_frame norm s d ps :
  let s' := add_parties_and_attorneys norm normalize_attorney_contact s d ps in
  incl (parties s) (parties s')
  /\ (forall x, In x (attorneys s) -> In x (attorneys s')
        \/ exists y, In y (attorneys s') /\ atty_pk y = atty_pk x
             /\ In (atty_name y) (match ps with Some l => input_attorney_names l | None => [] end))
  /\ (forall pt, In pt (party_types s) -> pt_docket pt <> d -> In pt (party_types s'))
  /\ (forall r, In r (roles s) -> role_docket r <> d -> In r (roles s')).
Proof.
  intros s'. unfold s', add_parties_and_attorneys.
  destruct ps as [[|p0 ps0]|];
    try (split; [|split; [|split]]; intros x Hx; try intros _; try left; exact Hx).
  destruct (normalize_names norm (p0 :: ps0)) as [_ N2].
  cbv beta iota zeta.
  set (local := normalize_attorney_roles norm (p0 :: ps0)) in *.
  destruct (fold_left _ local ([], [], s)) as [[up ua] st1] eqn:Fo.
  destruct (party_loop_spec d local [] [] s up ua st1 Fo)
    as (nup & nua & Eup & Eua & Hpinc & _ & Hainc & _ & _ & _ & _ & _ & _ & Hroles).
  destruct (party_loop_frame d local [] [] s up ua st1 Fo) as (F1 & _).
  pose proof (disassociate_frame st1 d local up ua) as Hf. cbv zeta in Hf.
  destruct Hf as [Fp Fa].
  destruct (disassociate_frame_types st1 d local up ua) as [D1 D2].
  split; [rewrite Fp; exact Hpinc|]. split.
  - intros x Hx. rewrite Fa, <- N2.
    destruct (Hainc x Hx) as [H'|(y & Hy & Ey & Hny & _)]; [left; exact H'|].
    right. exists y. repeat split; assumption.
  - split.
  + intros pt Hpt Hne. apply D1; [apply F1; assumption|left; exact Hne].
  + intros r Hr Hne. apply D2; [|exact Hne]. apply Hroles; [exact Hr|right; left; exact Hne].
Qed.

(** Every party of the incoming list ends on the docket: a Party row of
    its name with a PartyType row of its type on the docket. *)
Theorem add_parties_and_attorneys_links norm s d ps pi :
  In pi ps ->
  let s' := add_parties_and_attorneys norm normalize_attorney_contact s d (Some ps) in
  exists p pt, In p (parties s') /\ party_name p = p_name pi
    /\ In pt (party_types s') /\ pt_party pt = party_pk p /\ pt_docket pt = d
    /\ pt_name pt = p_type pi.
Proof.
  intros Hpi s'. unfold s', add_parties_and_attorneys.
  destruct ps as [|p0 ps0]; [destruct Hpi|].
  cbv beta iota zeta.
  set (local := normalize_attorney_roles norm (p0 :: ps0)).
  assert (Hl : exists pin, In pin local /\ pn_name pin = p_name pi /\ pn_type pin = p_type pi).
  { unfold local, normalize_attorney_roles. eexists. split.
    - apply in_map. exact Hpi.
    - split; reflexivity. }
  destruct Hl as (pin & Hin & En & Et).
  destruct (fold_left _ local ([], [], s)) as [[up ua] st1] eqn:Fo.
  destruct (party_loop_frame d local [] [] s up ua st1 Fo) as (_ & _ & F3 & _).
  destruct (F3 pin Hin) as (p & pt & Hup & Hp & Hn & Hpt & E1 & E2 & E3).
  pose proof (disassociate_frame st1 d local up ua) as Hf. cbv zeta in Hf.
  destruct Hf as [Fp _].
  destruct (disassociate_frame_types st1 d local up ua) as [D1 _].
  exists p, pt. repeat split.
  - rewrite Fp. exact Hp.
  - congruence.
  - apply D1; [exact Hpt|right; rewrite E1; exact Hup].
  - exact E1.
  - exact E2.
  - congruence.
Qed.

End Contact.

(** A role normaliser for concrete runs. *)
Definition cx_norm_role (r : string) : role_dict :=
  mkRoleDict (if String.eqb r "Terminated" then TERMINATED else ATTORNEY_LEAD) None None.

(** A contact normaliser for concrete runs: a non-empty contact is
    taken as the e-mail address. *)
Definition cx_norm_contact (c _name : string) : option atty_info :=
  if String.eqb c "" then None else Some (mkAttyInfo c "" "").

(** Docket 7: party 1 ("Old Party") terminated on it, attorney 3
    ("Lawyer") with a role for it. *)
Definition cx_old_role : role := mkR 5 3 1 7 ATTORNEY_LEAD None None.

Definition cx_party_store : store :=
  mkStore [mkP 1 "Old Party" 1] [mkA 3 "Lawyer" "" "" "" "" 3]
    [mkPT 4 7 1 "Defendant" "" (Some (mkDate 2020 1 1)) "" ""]
    [cx_old_role] 10.

(** The new list omits party 1, carries a termination marker, and names
    attorney "Lawyer" for another party. *)
Definition cx_parties_in : list party_in :=
  [mkParty "New Party" "Plaintiff" None (Some (mkDate 2020 2 1)) None
     [mkAtty "Lawyer" "" ["Lead"]]].

(** Claim C5, counterexample: with termination markers in the list, the
    previously terminated party 1 is omitted, yet its Role row on the
    docket is kept, since its attorney is named in the list and so
    preserved. *)
Lemma add_parties_keeps_omitted_role_cx :
  In 1 (terminated_party_ids cx_party_store 7)
  /\ ~ In "Old Party" (map p_name cx_parties_in)
  /\ check_json_for_terminated_entities (normalize_attorney_roles cx_norm_role cx_parties_in)
     = true
  /\ In cx_old_role
       (roles (add_parties_and_attorneys cx_norm_role cx_norm_contact cx_party_store 7 (Some cx_parties_in))).
Proof.
  split; [vm_compute; left; reflexivity|].
  split; [simpl; intros [E|[]]; discriminate|].
  split; [reflexivity|].
  vm_compute. left. reflexivity.
Qed.

(** Claim C5, witness: the hypotheses of the amended statement hold on the
    store and list above. *)
Lemma add_parties_and_attorneys_reconcile_witness :
  incl (parties cx_party_store)
    (parties (add_parties_and_attorneys cx_norm_role cx_norm_contact cx_party_store 7 (Some cx_parties_in))).
Proof.
  eapply proj1.
  apply (add_parties_and_attorneys_reconcile cx_norm_contact cx_norm_role cx_party_store 7 cx_parties_in).
  - discriminate.
  - simpl. repeat constructor. simpl. tauto.
  - simpl. repeat constructor. simpl. tauto.
  - intros p [<-|[]]. simpl. lia.
  - intros a [<-|[]]. simpl. lia.
Defined.

Lemma add_parties_and_attorneys_links_witness :
  In (hd (mkParty "" "" None None None []) cx_parties_in) cx_parties_in
  /\ exists p pt,
    In p (parties (add_parties_and_attorneys cx_norm_role cx_norm_contact cx_party_store 7 (Some cx_parties_in)))
    /\ party_name p = p_name (hd (mkParty "" "" None None None []) cx_parties_in)
    /\ In pt (party_types
          (add_parties_and_attorneys cx_norm_role cx_norm_contact cx_party_store 7 (Some cx_parties_in)))
    /\ pt_party pt = party_pk p /\ pt_docket pt = 7
    /\ pt_name pt = p_type (hd (mkParty "" "" None None None []) cx_parties_in).
Proof.
  split; [simpl; left; reflexivity|].
  apply (add_parties_and_attorneys_links cx_norm_contact cx_norm_role cx_party_store 7 cx_parties_in).
  simpl. left. reflexivity.
Defined.

End PartiesFacts.

(** ** The attachment page merge *)
Module AttachmentsFacts.
Import Attachments.

(** [first_by] finds a row exactly on a non-empty list, and the row it
    finds is one of the list's. *)
Lemma first_by_some {A} (lt : A -> A -> bool) x l : exists m, first_by lt (x :: l) = Some m.
Proof.
  simpl. destruct (first_by lt l) as [y|]; [destruct (lt y x)|]; eexists; reflexivity.
Qed.

Lemma first_by_in {A} (lt : A -> A -> bool) l m : first_by lt l = Some m -> In m l.
Proof.
  induction l as [|x l IH]; simpl; [discriminate|].
  destruct (first_by lt l) as [y|].
  - destruct (lt y x); intros H; injection H as <-; [right; apply IH; reflexivity|left; reflexivity].
  - intros H. injection H as <-. left. reflexivity.
Qed.

Section Facts.

Variable ais_appellate_court : string -> bool.
Variable is_long_appellate_document_number : string -> bool.
Variable convert_size_to_bytes : string -> option nat.
Variable rd_ordering_lt : rd -> rd -> bool.

Lemma update_fields_keys r d a court pacer docnum :
  let r5 := update_fields ais_appellate_court is_long_appellate_document_number
              convert_size_to_bytes r d a court pacer docnum in
  rd_pk r5 = rd_pk r /\ rd_entry r5 = rd_entry r
  /\ document_type r5 = document_type r
  /\ attachment_number r5 = attachment_number r
  /\ pacer_doc_id r5 = match get (at_pacer_doc_id a) with
                       | Some p => if truthy (Some p) then p else pacer_doc_id r
                       | None => pacer_doc_id r
                       end.
Proof.
  unfold update_fields.
  destruct (truthy d && doc_type_eqb (document_type r) ATTACHMENT);
  destruct (get (at_pacer_doc_id a)) as [p|]; try destruct (truthy (Some p));
  destruct (ais_appellate_court court && is_long_appellate_document_number docnum);
  simpl;
  repeat match goal with
         | |- context [match ?x with _ => _ end] => destruct x
         end; simpl; repeat split.
Qed.

Lemma finish_attachment_ok st r alias created a court pacer docnum st' :
  finish_attachment ais_appellate_court is_long_appellate_document_number
    convert_size_to_bytes st r alias created a court pacer docnum = Ok st' ->
  exists d,
    at_description a = Some d
    /\ let r5 := update_fields ais_appellate_court is_long_appellate_document_number
                   convert_size_to_bytes r d a court pacer docnum in
       ls_store st' = save_rd (ls_store st) r5
       /\ ls_main st' = (if alias then r5 else ls_main st)
       /\ ls_main_to_att st' = ls_main_to_att st
       /\ ls_affected st' = ls_affected st ++ [r5].
Proof.
  unfold finish_attachment. destruct (at_description a) as [d|]; [|discriminate].
  intros H. injection H as <-. exists d. simpl. auto.
Qed.

Lemma process_attachment_affected st a n p de court pacer docnum st' :
  process_attachment ais_appellate_court is_long_appellate_document_number
    convert_size_to_bytes st a n p de court pacer docnum = Ok st' ->
  exists x, ls_affected st' = ls_affected st ++ [x].
Proof.
  unfold process_attachment. intros H.
  repeat match type of H with
         | context [if ?c then _ else _] => destruct c
         | context [match django_get ?q ?l with _ => _ end] => destruct (django_get q l)
         end;
  try discriminate;
  try (destruct (new_rd _ _ _ _ _ _ _ _) as [r s1]);
  apply finish_attachment_ok in H; destruct H as [d [_ [_ [_ [_ H]]]]];
  simpl in H; eexists; exact H.
Qed.

Lemma skip_attachment_false a :
  skip_attachment a = false ->
  exists n p, get (at_attachment_number a) = Some n
              /\ get (at_pacer_doc_id a) = Some p /\ truthy (Some p) = true.
Proof.
  unfold skip_attachment. intros H. apply orb_false_iff in H as [H _].
  apply negb_false_iff in H.
  destruct (get (at_attachment_number a)) as [n|]; [|discriminate].
  destruct (get (at_pacer_doc_id a)) as [p|]; [|discriminate].
  eauto.
Qed.

Lemma attachment_loop_affected st atts de court pacer docnum st' :
  attachment_loop ais_appellate_court is_long_appellate_document_number
    convert_size_to_bytes st atts de court pacer docnum = Ok st' ->
  length (ls_affected st')
  = length (ls_affected st) + length (filter (fun a => negb (skip_attachment a)) atts).
Proof.
  revert st. induction atts as [|a rest IH]; intros st H; simpl in H |- *.
  - injection H as <-. lia.
  - destruct (skip_attachment a) eqn:Hs; simpl.
    + apply IH. exact H.
    + destruct (skip_attachment_false a Hs) as [n [p [Hn [Hp _]]]].
      rewrite Hn, Hp in H.
      destruct (process_attachment _ _ _ st a n p de court pacer docnum) as [st1|e] eqn:E;
        [|discriminate].
      destruct (process_attachment_affected _ _ _ _ _ _ _ _ _ E) as [x Hx].
      rewrite (IH st1 H), Hx, length_app. simpl. lia.
Qed.

Lemma skip_attachment_iff a :
  skip_attachment a = true
  <-> get (at_attachment_number a) = None
      \/ truthy (get (at_pacer_doc_id a)) = false
      \/ (at_page_count a = Some None /\ get (at_attachment_number a) <> Some 0).
Proof.
  unfold skip_attachment.
  destruct (get (at_attachment_number a)) as [[|n]|];
  destruct (truthy (get (at_pacer_doc_id a)));
  destruct (at_page_count a) as [[c|]|]; simpl;
  split; intros H; try discriminate; try reflexivity;
  repeat match goal with
         | H : _ \/ _ |- _ => destruct H
         | H : _ /\ _ |- _ => destruct H
         end;
  try discriminate; try congruence;
  first [ left; reflexivity | right; left; reflexivity
        | right; right; split; [reflexivity | discriminate] ].
Qed.

(** Claim C7, amended.  In a non-debug [merge_attachment_page_data] that
    completes, an attachment dict is skipped exactly when its attachment
    number is missing or [None], or its [pacer_doc_id] is missing or
    falsy, or its [page_count] key is present with value [None] while its
    attachment number is not 0 (a missing [page_count] key is no reason to
    skip); every other dict is processed and contributes exactly one
    affected document, after the documents created by the main-document
    resolution. *)
Theorem merge_attachment_skips_exactly :
  forall (s : store) (court : string) (case : option string) (pacer : string)
         (document_number_in : option string) (atts : list att_dict) (is_acms : bool)
         (m : rd) (created : list rd) (s1 : store)
         (affected : list rd) (de : nat) (s' : store),
    resolve_main_rd rd_ordering_lt s court case pacer atts is_acms = Ok (m, created, s1) ->
    merge_attachment_page_data ais_appellate_court is_long_appellate_document_number
      convert_size_to_bytes rd_ordering_lt s court case pacer document_number_in atts false is_acms
    = Ok (affected, de, s') ->
    length affected
    = length created + length (filter (fun a => negb (skip_attachment a)) atts)
    /\ (forall a, In a atts ->
          skip_attachment a = true
          <-> get (at_attachment_number a) = None
              \/ truthy (get (at_pacer_doc_id a)) = false
              \/ (at_page_count a = Some None /\ get (at_attachment_number a) <> Some 0)).
Proof.
  intros s court case pacer dn atts is_acms m created s1 aff de s' Hres H.
  split; [|intros a _; apply skip_attachment_iff].
  unfold merge_attachment_page_data in H. rewrite Hres in H.
  destruct (attachment_loop _ _ _ _ atts _ court pacer _) as [st|e] eqn:E;
    [|discriminate].
  apply attachment_loop_affected in E. simpl in E.
  destruct is_acms.
  - injection H as <- _ _. exact E.
  - destruct (clean_duplicate_attachment_entries (ls_store st) _ atts) as [s2|e];
      [|discriminate].
    injection H as <- _ _. exact E.
Qed.




Lemma latest_by_in {A} (key : A -> nat) l r : latest_by key l = Some r -> In r l.
Proof.
  revert r. induction l as [|a rest IH]; intros r H; simpl in H; [discriminate|].
  destruct (latest_by key rest) as [b|] eqn:E.
  - destruct (Nat.ltb (key a) (key b)); injection H as <-;
      [right; apply IH; reflexivity | left; reflexivity].
  - injection H as <-. left. reflexivity.
Qed.

Lemma latest_by_some {A} (key : A -> nat) a l : exists r, latest_by key (a :: l) = Some r.
Proof.
  simpl. destruct (latest_by key l) as [b|]; [destruct (Nat.ltb (key a) (key b))|]; eauto.
Qed.




Lemma main_params_delete s q court case c :
  main_params (delete_rds s q) court case c = main_params s court case c.
Proof. reflexivity. Qed.




(** Saving a document row. *)
Lemma save_rd_in s r : In r (rds (save_rd s r)).
Proof.
  unfold save_rd. destruct (existsb _ (rds s)) eqn:E; simpl.
  - apply existsb_exists in E. destruct E as (x & Hx & Ex).
    apply in_map_iff. exists x. rewrite Ex. split; [reflexivity|exact Hx].
  - apply in_or_app. right. left. reflexivity.
Qed.

Lemma save_rd_cases s r x :
  In x (rds (save_rd s r)) -> x = r \/ (In x (rds s) /\ rd_pk x <> rd_pk r).
Proof.
  unfold save_rd. destruct (existsb _ (rds s)) eqn:E; simpl; intros H.
  - apply in_map_iff in H. destruct H as (y & Hy & Hin).
    destruct (Nat.eqb (rd_pk y) (rd_pk r)) eqn:Ey; [left; congruence|].
    right. subst y. split; [exact Hin|apply Nat.eqb_neq; exact Ey].
  - apply in_app_or in H. destruct H as [H|[<-|[]]]; [|left; reflexivity].
    right. split; [exact H|]. intros Ex.
    assert (Hc : existsb (fun x => Nat.eqb (rd_pk x) (rd_pk r)) (rds s) = true).
    { apply existsb_exists. exists x. split; [exact H|]. rewrite Ex. apply Nat.eqb_refl. }
    rewrite Hc in E. discriminate.
Qed.

Lemma save_rd_other s r x :
  In x (rds s) -> rd_pk x <> rd_pk r -> In x (rds (save_rd s r)).
Proof.
  intros Hx Hne. unfold save_rd. destruct (existsb _ (rds s)); simpl.
  - apply in_map_iff. exists x. split; [|exact Hx].
    apply Nat.eqb_neq in Hne. rewrite Hne. reflexivity.
  - apply in_or_app. left. exact Hx.
Qed.

Lemma save_rd_next s r : next_pk (save_rd s r) = next_pk s.
Proof. unfold save_rd. destruct (existsb _ (rds s)); reflexivity. Qed.

Lemma nodup_snoc (l : list nat) a : NoDup l -> ~ In a l -> NoDup (l ++ [a]).
Proof.
  induction l as [|b l IH]; simpl; intros Hn Ha.
  - constructor; [intros []|constructor].
  - inversion Hn as [|? ? Hb Hn']; subst. constructor.
    + intros H. apply in_app_or in H. destruct H as [H|[E|[]]]; [contradiction|].
      apply Ha. left. symmetry. exact E.
    + apply IH; [exact Hn'|]. intros H. apply Ha. right. exact H.
Qed.

Lemma save_rd_nodup s r :
  NoDup (map rd_pk (rds s)) -> NoDup (map rd_pk (rds (save_rd s r))).
Proof.
  intros Hn. unfold save_rd. destruct (existsb _ (rds s)) eqn:E; simpl.
  - rewrite map_map.
    replace (map (fun x => rd_pk (if Nat.eqb (rd_pk x) (rd_pk r) then r else x)) (rds s))
      with (map rd_pk (rds s)); [exact Hn|].
    apply map_ext. intros x. destruct (Nat.eqb (rd_pk x) (rd_pk r)) eqn:Ex; [|reflexivity].
    apply Nat.eqb_eq in Ex. exact Ex.
  - rewrite map_app. apply nodup_snoc; [exact Hn|]. intros H.
    apply in_map_iff in H. destruct H as (x & Ex & Hx).
    assert (Hc : existsb (fun x => Nat.eqb (rd_pk x) (rd_pk r)) (rds s) = true).
    { apply existsb_exists. exists x. split; [exact Hx|]. rewrite Ex. apply Nat.eqb_refl. }
    rewrite Hc in E. discriminate.
Qed.

Lemma nodup_map_filter {A} (f : A -> nat) (g : A -> bool) l :
  NoDup (map f l) -> NoDup (map f (filter g l)).
Proof.
  induction l as [|a l IH]; simpl; intros Hn; [constructor|].
  inversion Hn as [|? ? Ha Hn']; subst.
  destruct (g a); simpl; [|apply IH; exact Hn'].
  constructor; [|apply IH; exact Hn'].
  intros H. apply Ha. apply in_map_iff in H. destruct H as (x & Ex & Hx).
  apply filter_In in Hx. rewrite <- Ex. apply in_map. apply Hx.
Qed.

Lemma length_le_one {A} (f : A -> nat) k (L : list A) :
  NoDup (map f L) -> (forall x, In x L -> f x = k) -> length L <= 1.
Proof.
  destruct L as [|a [|b L]]; simpl; intros Hn Hk; try lia.
  inversion Hn as [|? ? Ha _]; subst. exfalso. apply Ha.
  left. rewrite (Hk a (or_introl eq_refl)), (Hk b (or_intror (or_introl eq_refl))).
  reflexivity.
Qed.

(** An id held by at most one row of the entry is no duplicate id. *)
Lemma not_dupe s de c k :
  NoDup (map rd_pk (rds s)) ->
  (forall x, In x (rds s) -> rd_entry x = de -> pacer_doc_id x = c -> rd_pk x = k) ->
  ~ In c (dupe_doc_ids s de).
Proof.
  intros Hn H Hin. unfold dupe_doc_ids in Hin. cbv zeta in Hin.
  apply filter_In in Hin. destruct Hin as [_ Hlt]. apply Nat.ltb_lt in Hlt.
  assert (Hle : length (filter (fun r => String.eqb (pacer_doc_id r) c)
                  (filter (fun r => Nat.eqb (rd_entry r) de) (rds s))) <= 1).
  { apply (length_le_one rd_pk k).
    - apply nodup_map_filter, nodup_map_filter, Hn.
    - intros x Hx. apply filter_In in Hx. destruct Hx as [Hx Hc].
      apply filter_In in Hx. destruct Hx as [Hx He].
      apply String.eqb_eq in Hc. apply Nat.eqb_eq in He. apply H; assumption. }
  lia.
Qed.

Lemma delete_rds_in s p x : In x (rds (delete_rds s p)) <-> In x (rds s) /\ p x = false.
Proof.
  unfold delete_rds. simpl. rewrite filter_In. rewrite negb_true_iff. reflexivity.
Qed.

Lemma delete_rds_nodup s p :
  NoDup (map rd_pk (rds s)) -> NoDup (map rd_pk (rds (delete_rds s p))).
Proof. intros Hn. apply nodup_map_filter. exact Hn. Qed.

Lemma delete_mismatched_spec atts : forall s dupe del s' b,
  delete_mismatched s dupe del atts = Ok (s', b) ->
  incl (rds s') (rds s) /\ (NoDup (map rd_pk (rds s)) -> NoDup (map rd_pk (rds s')))
  /\ (forall x, In x (rds s) -> rd_pk x <> rd_pk dupe -> In x (rds s')).
Proof.
  induction atts as [|a rest IH]; intros s dupe del s' b H; simpl in H.
  - injection H as <- _. repeat split; auto. intros x Hx. exact Hx.
  - destruct (at_attachment_number a) as [n|], (at_pacer_doc_id a) as [p|];
      try discriminate.
    revert H. destruct (_ && negb (opt_nat_eqb (attachment_number dupe) n)); intros H.
    + destruct del; [discriminate|].
      destruct (IH _ _ _ _ _ H) as (I1 & I2 & I3). repeat split.
      * intros x Hx. apply I1 in Hx. apply delete_rds_in in Hx. apply Hx.
      * intros Hn. apply I2. apply delete_rds_nodup. exact Hn.
      * intros x Hx Hne. apply I3; [|exact Hne]. apply delete_rds_in.
        split; [exact Hx|]. apply Nat.eqb_neq. exact Hne.
    + exact (IH _ _ _ _ _ H).
Qed.

Lemma first_pass_spec dupes : forall s atts s',
  first_pass s dupes atts = Ok s' ->
  incl (rds s') (rds s) /\ (NoDup (map rd_pk (rds s)) -> NoDup (map rd_pk (rds s')))
  /\ (forall x, In x (rds s) -> ~ In (rd_pk x) (map rd_pk dupes) -> In x (rds s')).
Proof.
  induction dupes as [|d rest IH]; intros s atts s' H; simpl in H.
  - injection H as <-. repeat split; auto. intros x Hx. exact Hx.
  - destruct (delete_mismatched s d false atts) as [[s1 b]|e] eqn:E; [|discriminate].
    destruct (delete_mismatched_spec _ _ _ _ _ _ E) as (D1 & D2 & D3).
    destruct (IH _ _ _ H) as (I1 & I2 & I3). repeat split.
    + intros x Hx. apply D1. apply I1. exact Hx.
    + intros Hn. apply I2. apply D2. exact Hn.
    + intros x Hx Hni. apply I3.
      * apply D3; [exact Hx|]. intros E'. apply Hni. left. symmetry. exact E'.
      * intros Hi. apply Hni. right. exact Hi.
Qed.

Lemma keep_latest_shape s p r s' :
  keep_latest_rd_document s p = Ok (r, s') ->
  s' = delete_rds s (fun x => p x && negb (Nat.eqb (rd_pk x) (rd_pk r))).
Proof.
  unfold keep_latest_rd_document.
  destruct (match filter has_pdf (filter p (rds s)) with
            | [] => latest_by rd_date_created (filter p (rds s))
            | l => latest_by rd_date_created l
            end) as [x|]; [|discriminate].
  intros H. injection H as <- <-. reflexivity.
Qed.

Lemma second_pass_spec de dupes : forall s s',
  second_pass s de dupes = Ok s' ->
  incl (rds s') (rds s) /\ (NoDup (map rd_pk (rds s)) -> NoDup (map rd_pk (rds s')))
  /\ (forall x, In x (rds s) -> (forall d, In d dupes -> pacer_doc_id d <> pacer_doc_id x) ->
        In x (rds s')).
Proof.
  induction dupes as [|d rest IH]; intros s s' H; simpl in H.
  - injection H as <-. repeat split; auto. intros x Hx. exact Hx.
  - destruct (keep_latest_rd_document s _) as [[r s1]|e] eqn:E; [|discriminate].
    apply keep_latest_shape in E. subst s1.
    destruct (IH _ _ H) as (I1 & I2 & I3). repeat split.
    + intros x Hx. apply I1 in Hx. apply delete_rds_in in Hx. apply Hx.
    + intros Hn. apply I2. apply delete_rds_nodup. exact Hn.
    + intros x Hx Hd. apply I3.
      * apply delete_rds_in. split; [exact Hx|].
        assert (Hp : String.eqb (pacer_doc_id x) (pacer_doc_id d) = false).
        { apply String.eqb_neq. intros E'. apply (Hd d (or_introl eq_refl)).
          symmetry. exact E'. }
        rewrite Hp, andb_false_r. reflexivity.
      * intros d' Hd'. apply Hd. right. exact Hd'.
Qed.

Lemma in_dupes_true s de d :
  in_dupes s de d = true -> In (pacer_doc_id d) (dupe_doc_ids s de).
Proof.
  unfold in_dupes. intros H. apply andb_true_iff in H. destruct H as [_ H].
  apply existsb_exists in H. destruct H as (y & Hy & E).
  apply String.eqb_eq in E. rewrite E. exact Hy.
Qed.

(** [clean_duplicate_attachment_entries] only deletes rows, and keeps a
    row whose id no other row of the entry holds. *)
Lemma cleanup_keeps s de atts s2 r :
  clean_duplicate_attachment_entries s de atts = Ok s2 ->
  NoDup (map rd_pk (rds s)) -> In r (rds s) ->
  (forall x, In x (rds s) -> rd_entry x = de -> pacer_doc_id x = pacer_doc_id r ->
     rd_pk x = rd_pk r) ->
  In r (rds s2) /\ incl (rds s2) (rds s) /\ NoDup (map rd_pk (rds s2)).
Proof.
  intros H Hn Hr Hu. unfold clean_duplicate_attachment_entries in H.
  destruct (dupe_doc_ids s de) as [|c0 l0] eqn:D.
  - injection H as <-. repeat split; auto. intros x Hx. exact Hx.
  - destruct (first_pass s (filter (in_dupes s de) (rds s)) atts) as [s1|e] eqn:F1;
      [|discriminate].
    destruct (first_pass_spec _ _ _ _ F1) as (P1 & P2 & P3).
    assert (Hr1 : In r (rds s1)).
    { apply P3; [exact Hr|]. intros Hi. apply in_map_iff in Hi.
      destruct Hi as (d & Ed & Hd). apply filter_In in Hd. destruct Hd as [Hd Hid].
      assert (E : d = r) by (apply (PartiesFacts.nodup_map_inj rd_pk (rds s)); assumption).
      subst d. apply in_dupes_true in Hid.
      apply (not_dupe s de (pacer_doc_id r) (rd_pk r) Hn Hu). rewrite D in *. exact Hid. }
    assert (Hn1 : NoDup (map rd_pk (rds s1))) by (apply P2; exact Hn).
    assert (Hu1 : forall x, In x (rds s1) -> rd_entry x = de ->
                    pacer_doc_id x = pacer_doc_id r -> rd_pk x = rd_pk r).
    { intros x Hx. apply Hu. apply P1. exact Hx. }
    destruct (dupe_doc_ids s1 de) as [|c1 l1] eqn:D1.
    + injection H as <-. repeat split; assumption.
    + destruct (second_pass_spec _ _ _ _ H) as (S1 & S2 & S3). repeat split.
      * apply S3; [exact Hr1|]. intros d Hd E. apply filter_In in Hd.
        destruct Hd as [_ Hid]. apply in_dupes_true in Hid. rewrite E in Hid.
        apply (not_dupe s1 de (pacer_doc_id r) (rd_pk r) Hn1 Hu1). exact Hid.
      * intros x Hx. apply P1. apply S1. exact Hx.
      * apply S2. exact Hn1.
Qed.

Lemma django_get_got {A} (f : A -> bool) l r :
  django_get f l = Got r -> In r l /\ f r = true.
Proof.
  unfold django_get. destruct (filter f l) as [|x [|y t]] eqn:F; try discriminate.
  intros H. injection H as <-.
  assert (Hx : In x (filter f l)) by (rewrite F; left; reflexivity).
  apply filter_In in Hx. exact Hx.
Qed.

Lemma finish_ok_keys st r alias created a p court pacer docnum st' :
  finish_attachment ais_appellate_court is_long_appellate_document_number
    convert_size_to_bytes st r alias created a court pacer docnum = Ok st' ->
  get (at_pacer_doc_id a) = Some p -> truthy (Some p) = true ->
  exists r5, ls_store st' = save_rd (ls_store st) r5
    /\ ls_main st' = (if alias then r5 else ls_main st)
    /\ ls_main_to_att st' = ls_main_to_att st
    /\ rd_pk r5 = rd_pk r /\ rd_entry r5 = rd_entry r
    /\ document_type r5 = document_type r
    /\ attachment_number r5 = attachment_number r
    /\ pacer_doc_id r5 = p.
Proof.
  intros H Hg Ht. apply finish_attachment_ok in H.
  destruct H as (d & _ & Hs & Hm & Hma & _).
  destruct (update_fields_keys r d a court pacer docnum) as (K1 & K2 & K3 & K4 & K5).
  rewrite Hg, Ht in K5.
  eexists. split; [exact Hs|]. split; [exact Hm|]. split; [exact Hma|].
  repeat split; assumption.
Qed.

(** The lookup-or-create branch of the loop body: the in-memory main
    document is untouched, and the row saved carries the attachment's id
    and is a fresh one or keeps the key of a row found by one of the two
    lookups. *)
Lemma process_else_spec st a n p de court pacer docnum st' :
  ais_appellate_court court && String.eqb p (pacer_doc_id (ls_main st))
  && negb (ls_main_to_att st) = false ->
  get (at_pacer_doc_id a) = Some p -> truthy (Some p) = true ->
  process_attachment ais_appellate_court is_long_appellate_document_number
    convert_size_to_bytes st a n p de court pacer docnum = Ok st' ->
  ls_main st' = ls_main st /\ ls_main_to_att st' = ls_main_to_att st
  /\ exists r5 t, ls_store st' = save_rd t r5
     /\ rds t = rds (ls_store st) /\ pacer_doc_id r5 = p
     /\ ((rd_pk r5 = next_pk (ls_store st) /\ next_pk t = S (next_pk (ls_store st)))
         \/ (next_pk t = next_pk (ls_store st)
             /\ exists r0, In r0 (rds (ls_store st)) /\ rd_pk r0 = rd_pk r5
                /\ (pacer_doc_id r0 = p
                    \/ (n = 0 /\ document_type r0 = PACER_DOCUMENT)
                    \/ (n <> 0 /\ attachment_number r0 = Some n)))).
Proof.
  intros Hc Hg Ht H. unfold process_attachment in H. cbv zeta in H. rewrite Hc in H.
  match type of H with context [django_get ?f ?l] =>
    destruct (django_get f l) as [| |r] eqn:G1 end.
  - match type of H with context [django_get ?f ?l] =>
      destruct (django_get f l) as [| |r] eqn:G2 end.
    + unfold new_rd in H. cbv beta iota in H.
      apply (finish_ok_keys _ _ _ _ _ p) in H; [|exact Hg|exact Ht].
      destruct H as (r5 & Hs & Hm & Hma & K1 & _ & _ & _ & K5).
      simpl in Hs, Hm, Hma, K1. split; [exact Hm|]. split; [exact Hma|].
      exists r5. eexists. split; [exact Hs|]. simpl.
      split; [reflexivity|]. split; [exact K5|]. left. split; [exact K1|reflexivity].
    + discriminate.
    + apply (finish_ok_keys _ _ _ _ _ p) in H; [|exact Hg|exact Ht].
      destruct H as (r5 & Hs & Hm & Hma & K1 & _ & _ & _ & K5).
      split; [exact Hm|]. split; [exact Hma|].
      apply django_get_got in G2. destruct G2 as [Hin Hp].
      exists r5, (ls_store st). split; [exact Hs|]. split; [reflexivity|].
      split; [exact K5|]. right. split; [reflexivity|].
      exists r. split; [exact Hin|]. split.
      * rewrite K1. destruct (Nat.eqb n 0); reflexivity.
      * left. apply andb_true_iff in Hp. destruct Hp as [_ Hp].
        apply String.eqb_eq. exact Hp.
  - discriminate.
  - apply (finish_ok_keys _ _ _ _ _ p) in H; [|exact Hg|exact Ht].
    destruct H as (r5 & Hs & Hm & Hma & K1 & _ & _ & _ & K5).
    split; [exact Hm|]. split; [exact Hma|].
    apply django_get_got in G1. destruct G1 as [Hin Hp].
    exists r5, (ls_store st). split; [exact Hs|]. split; [reflexivity|].
    split; [exact K5|]. right. split; [reflexivity|].
    exists r. split; [exact Hin|]. split; [symmetry; exact K1|]. right.
    apply andb_true_iff in Hp. destruct Hp as [Hp _].
    apply andb_true_iff in Hp. destruct Hp as [_ Hp].
    destruct (Nat.eqb n 0) eqn:En.
    + left. apply Nat.eqb_eq in En. split; [exact En|].
      destruct (document_type r); [reflexivity|discriminate].
    + right. apply Nat.eqb_neq in En. split; [exact En|].
      apply andb_true_iff in Hp. destruct Hp as [Hp _].
      destruct (attachment_number r) as [k|]; [|discriminate].
      simpl in Hp. apply Nat.eqb_eq in Hp. rewrite Hp. reflexivity.
Qed.

(** The promotion branch: the in-memory main document becomes an
    attachment with the dict's number and is saved under its own key. *)
Lemma process_promote_spec st a n p de court pacer docnum st' :
  ais_appellate_court court && String.eqb p (pacer_doc_id (ls_main st))
  && negb (ls_main_to_att st) = true ->
  get (at_pacer_doc_id a) = Some p -> truthy (Some p) = true ->
  process_attachment ais_appellate_court is_long_appellate_document_number
    convert_size_to_bytes st a n p de court pacer docnum = Ok st' ->
  exists r5, ls_store st' = save_rd (ls_store st) r5 /\ ls_main st' = r5
    /\ ls_main_to_att st' = true
    /\ rd_pk r5 = rd_pk (ls_main st) /\ rd_entry r5 = rd_entry (ls_main st)
    /\ document_type r5 = ATTACHMENT
    /\ attachment_number r5 = Some n /\ pacer_doc_id r5 = p.
Proof.
  intros Hc Hg Ht H. unfold process_attachment in H. cbv zeta in H. rewrite Hc in H.
  apply (finish_ok_keys _ _ _ _ _ p) in H; [|exact Hg|exact Ht].
  destruct H as (r5 & Hs & Hm & Hma & K1 & K2 & K3 & K4 & K5).
  simpl in Hs, Hm, Hma. exists r5. split; [exact Hs|]. split; [exact Hm|].
  split; [exact Hma|].
  rewrite K1, K2, K3, K4.
  destruct (at_acms_document_guid a); simpl; repeat split; assumption.
Qed.
Lemma skip_attachment_false_parts a :
  skip_attachment a = false ->
  (exists n, get (at_attachment_number a) = Some n)
  /\ (exists p, get (at_pacer_doc_id a) = Some p /\ truthy (Some p) = true).
Proof.
  unfold skip_attachment. intros H. apply orb_false_iff in H. destruct H as [H _].
  apply negb_false_iff in H. apply andb_true_iff in H. destruct H as [H1 H2].
  split.
  - destruct (get (at_attachment_number a)) as [n|]; [exists n; reflexivity|discriminate].
  - destruct (get (at_pacer_doc_id a)) as [p|]; [exists p; split; [reflexivity|exact H2]|discriminate].
Qed.

Lemma opt_str_eqb_some a x : opt_str_eqb a (Some x) = true -> a = Some x.
Proof.
  destruct a as [y|]; simpl; [|discriminate]. intros H.
  apply String.eqb_eq in H. subst. reflexivity.
Qed.

Lemma attachment_loop_app st l1 l2 de court pacer docnum :
  attachment_loop ais_appellate_court is_long_appellate_document_number convert_size_to_bytes st (l1 ++ l2) de court pacer docnum
  = match attachment_loop ais_appellate_court is_long_appellate_document_number convert_size_to_bytes st l1 de court pacer docnum with
    | Ok st1 => attachment_loop ais_appellate_court is_long_appellate_document_number convert_size_to_bytes st1 l2 de court pacer docnum
    | Err e => Err e
    end.
Proof.
  revert st. induction l1 as [|a l1 IH]; intros st; simpl; [reflexivity|].
  destruct (skip_attachment a); [apply IH|].
  destruct (get (at_attachment_number a)) as [n|]; [|apply IH].
  destruct (get (at_pacer_doc_id a)) as [p|]; [|apply IH].
  destruct (process_attachment _ _ _ st a n p de court pacer docnum); [apply IH|reflexivity].
Qed.

Lemma filter_one_split {A} (f : A -> bool) l a0 :
  filter f l = [a0] ->
  exists pre post, l = pre ++ a0 :: post
    /\ (forall a, In a pre -> f a = false) /\ (forall a, In a post -> f a = false)
    /\ f a0 = true.
Proof.
  induction l as [|b l IH]; simpl; [discriminate|].
  destruct (f b) eqn:Fb; intros H.
  - injection H as <- Hnil. exists [], l. split; [reflexivity|].
    split; [intros a []|]. split; [|exact Fb].
    intros a Ha. destruct (f a) eqn:Fa; [|reflexivity].
    assert (Hin : In a (filter f l)) by (apply filter_In; split; assumption).
    rewrite Hnil in Hin. destruct Hin.
  - destruct (IH H) as (pre & post & -> & Hpre & Hpost & Ha0).
    exists (b :: pre), post. split; [reflexivity|].
    split; [|split; assumption].
    intros a [<-|Ha]; [exact Fb|apply Hpre; exact Ha].
Qed.

Definition rows_ok (t : store) : Prop :=
  NoDup (map rd_pk (rds t)) /\ forall x, In x (rds t) -> rd_pk x < next_pk t.

(** Rows carrying the id [X] are the row with key [P] or rows of [s0]. *)
Definition Xrows (s0 : store) (X : string) (P : nat) (t : store) : Prop :=
  forall x, In x (rds t) -> pacer_doc_id x = X -> rd_pk x = P \/ In x (rds s0).

Definition att_zero_row (X : string) (rP : rd) : Prop :=
  pacer_doc_id rP = X /\ document_type rP = ATTACHMENT /\ attachment_number rP = Some 0.

Lemma else_step_inv s0 X P st a n p de court pacer docnum st' :
  ais_appellate_court court && String.eqb p (pacer_doc_id (ls_main st))
  && negb (ls_main_to_att st) = false ->
  get (at_pacer_doc_id a) = Some p -> truthy (Some p) = true -> p <> X ->
  process_attachment ais_appellate_court is_long_appellate_document_number
    convert_size_to_bytes st a n p de court pacer docnum = Ok st' ->
  rows_ok (ls_store st) -> Xrows s0 X P (ls_store st) ->
  ls_main st' = ls_main st /\ ls_main_to_att st' = ls_main_to_att st
  /\ rows_ok (ls_store st') /\ Xrows s0 X P (ls_store st')
  /\ next_pk (ls_store st) <= next_pk (ls_store st')
  /\ (forall rP, In rP (rds (ls_store st)) -> att_zero_row X rP -> In rP (rds (ls_store st'))).
Proof.
  intros Hc Hg Ht HpX H [Hn Hlt] Hx.
  destruct (process_else_spec _ _ _ _ _ _ _ _ _ Hc Hg Ht H)
    as (Hm & Hma & r5 & t & Hs & Ht' & Hp5 & Hcase).
  rewrite Hs.
  assert (Hnext : next_pk (ls_store st) <= next_pk t /\ rd_pk r5 < next_pk t).
  { destruct Hcase as [[K1 K2]|[K1 (r0 & Hr0 & K2 & _)]].
    - rewrite K1, K2. lia.
    - rewrite K1, <- K2. split; [lia|]. apply Hlt. exact Hr0. }
  split; [exact Hm|]. split; [exact Hma|]. split; [split|split; [|split]].
  - apply save_rd_nodup. rewrite Ht'. exact Hn.
  - intros x Hin. rewrite save_rd_next. apply save_rd_cases in Hin.
    destruct Hin as [->|[Hin _]]; [apply Hnext|].
    rewrite Ht' in Hin. specialize (Hlt x Hin). lia.
  - intros x Hin HxX. apply save_rd_cases in Hin.
    destruct Hin as [->|[Hin _]]; [congruence|].
    rewrite Ht' in Hin. apply Hx; assumption.
  - rewrite save_rd_next. apply Hnext.
  - intros rP HrP (Z1 & Z2 & Z3). apply save_rd_other; [rewrite Ht'; exact HrP|].
    intros Heq. destruct Hcase as [[K1 _]|[_ (r0 & Hr0 & K2 & Hk)]].
    + specialize (Hlt rP HrP). lia.
    + assert (r0 = rP) as ->.
      { apply (PartiesFacts.nodup_map_inj rd_pk (rds (ls_store st))); try assumption. congruence. }
      destruct Hk as [Hk|[[_ Hk]|[Hn0 Hk]]]; [congruence|congruence|].
      rewrite Z3 in Hk. injection Hk as Hk. apply Hn0. symmetry. exact Hk.
Qed.

Lemma loop_else_inv s0 X P l st de court pacer docnum st' :
  (forall a, In a l -> negb (skip_attachment a)
                       && opt_str_eqb (get (at_pacer_doc_id a)) (Some X) = false) ->
  ls_main_to_att st = true \/ pacer_doc_id (ls_main st) = X ->
  attachment_loop ais_appellate_court is_long_appellate_document_number convert_size_to_bytes st l de court pacer docnum = Ok st' ->
  rows_ok (ls_store st) -> Xrows s0 X P (ls_store st) ->
  ls_main st' = ls_main st /\ ls_main_to_att st' = ls_main_to_att st
  /\ rows_ok (ls_store st') /\ Xrows s0 X P (ls_store st')
  /\ next_pk (ls_store st) <= next_pk (ls_store st')
  /\ (forall rP, In rP (rds (ls_store st)) -> att_zero_row X rP -> In rP (rds (ls_store st'))).
Proof.
  revert st. induction l as [|a l IH]; intros st Hf Hmain H Hok Hx; simpl in H.
  - injection H as <-. split; [reflexivity|]. split; [reflexivity|].
    split; [exact Hok|]. split; [exact Hx|]. split; [lia|]. intros rP HrP _. exact HrP.
  - assert (Hf' : forall b, In b l -> negb (skip_attachment b)
                  && opt_str_eqb (get (at_pacer_doc_id b)) (Some X) = false)
      by (intros b Hb; apply Hf; right; exact Hb).
    destruct (skip_attachment a) eqn:Hsk; [apply IH; assumption|].
    destruct (skip_attachment_false_parts a Hsk) as ((n & Hn) & (p & Hp & Htr)).
    rewrite Hn, Hp in H.
    destruct (process_attachment _ _ _ st a n p de court pacer docnum) as [st1|e] eqn:Hpr;
      [|discriminate].
    assert (HpX : p <> X).
    { intros ->. specialize (Hf a (or_introl eq_refl)). rewrite Hsk, Hp in Hf.
      simpl in Hf. rewrite String.eqb_refl in Hf. discriminate. }
    assert (Hc : ais_appellate_court court && String.eqb p (pacer_doc_id (ls_main st))
                 && negb (ls_main_to_att st) = false).
    { destruct Hmain as [E|E]; rewrite E.
      - rewrite andb_false_r. reflexivity.
      - apply String.eqb_neq in HpX. rewrite HpX, andb_false_r. reflexivity. }
    destruct (else_step_inv s0 X P _ _ _ _ _ _ _ _ _ Hc Hp Htr HpX Hpr Hok Hx)
      as (E1 & E2 & Hok1 & Hx1 & Hle1 & Hk1).
    destruct (IH st1 Hf' ltac:(rewrite E1, E2; exact Hmain) H Hok1 Hx1)
      as (F1 & F2 & Hok2 & Hx2 & Hle2 & Hk2).
    split; [congruence|]. split; [congruence|]. split; [exact Hok2|].
    split; [exact Hx2|]. split; [lia|].
    intros rP HrP HZ. apply Hk2; [apply Hk1|]; assumption.
Qed.

(** The whole loop on a page whose only usable entry with the main
    document's id [X] is attachment 0: the main row ends up as
    attachment 0 under its own key. *)
Lemma loop_promotes s1 m created atts a0 de court pacer docnum st :
  ais_appellate_court court = true ->
  filter (fun a => negb (skip_attachment a)
                   && opt_str_eqb (get (at_pacer_doc_id a)) (Some (pacer_doc_id m))) atts = [a0] ->
  get (at_attachment_number a0) = Some 0 ->
  rows_ok s1 -> rd_pk m < next_pk s1 ->
  attachment_loop ais_appellate_court is_long_appellate_document_number convert_size_to_bytes (mkLS s1 m false created created) atts de court pacer docnum = Ok st ->
  rows_ok (ls_store st) /\ Xrows s1 (pacer_doc_id m) (rd_pk m) (ls_store st)
  /\ exists rP, In rP (rds (ls_store st)) /\ rd_pk rP = rd_pk m /\ rd_entry rP = rd_entry m
     /\ att_zero_row (pacer_doc_id m) rP.
Proof.
  intros Happ Hfil Hn0 Hok Hm H.
  set (X := pacer_doc_id m) in *.
  destruct (filter_one_split _ _ _ Hfil) as (pre & post & -> & Hpre & Hpost & Ha0).
  rewrite attachment_loop_app in H.
  destruct (attachment_loop ais_appellate_court is_long_appellate_document_number convert_size_to_bytes _ pre _ _ _ _) as [st1|e] eqn:H1; [|discriminate].
  assert (Hx0 : Xrows s1 X (rd_pk m) s1) by (intros x Hx _; right; exact Hx).
  destruct (loop_else_inv s1 X (rd_pk m) pre (mkLS s1 m false created created) de court pacer docnum st1 Hpre
              (or_intror eq_refl) H1 Hok Hx0)
    as (E1 & E2 & Hok1 & Hx1 & Hle1 & _).
  simpl in E1, E2, Hle1.
  apply andb_true_iff in Ha0. destruct Ha0 as [Hsk Hp0].
  apply negb_true_iff in Hsk. apply opt_str_eqb_some in Hp0.
  destruct (skip_attachment_false_parts a0 Hsk) as (_ & (p & Hp & Htr)).
  rewrite Hp0 in Hp. injection Hp as <-.
  simpl in H. rewrite Hsk, Hn0, Hp0 in H.
  destruct (process_attachment _ _ _ st1 a0 0 X de court pacer docnum) as [st2|e] eqn:H2;
    [|discriminate].
  assert (Hc : ais_appellate_court court && String.eqb X (pacer_doc_id (ls_main st1))
               && negb (ls_main_to_att st1) = true).
  { rewrite E1, E2, Happ, String.eqb_refl. reflexivity. }
  destruct (process_promote_spec _ _ _ _ _ _ _ _ _ Hc Hp0 Htr H2)
    as (r5 & Hs2 & Hm2 & Ht2 & K1 & K2 & K3 & K4 & K5).
  rewrite E1 in K1, K2.
  assert (Hok2 : rows_ok (ls_store st2)).
  { destruct Hok1 as [Hn1 Hlt1]. rewrite Hs2. split.
    - apply save_rd_nodup. exact Hn1.
    - intros x Hin. rewrite save_rd_next. apply save_rd_cases in Hin.
      destruct Hin as [->|[Hin _]]; [lia|apply Hlt1; exact Hin]. }
  assert (Hx2 : Xrows s1 X (rd_pk m) (ls_store st2)).
  { intros x Hin HxX. rewrite Hs2 in Hin. apply save_rd_cases in Hin.
    destruct Hin as [->|[Hin _]]; [left; exact K1|apply Hx1; assumption]. }
  destruct (loop_else_inv s1 X (rd_pk m) post st2 de court pacer docnum st Hpost
              (or_introl Ht2) H Hok2 Hx2)
    as (_ & _ & Hok3 & Hx3 & _ & Hk3).
  split; [exact Hok3|]. split; [exact Hx3|].
  exists r5. split.
  - apply Hk3; [rewrite Hs2; apply save_rd_in|]. split; [exact K5|split; assumption].
  - split; [exact K1|]. split; [exact K2|]. split; [exact K5|split; assumption].
Qed.
Lemma django_get_got_unique {A} (f : A -> bool) l r :
  django_get f l = Got r -> forall x, In x l -> f x = true -> x = r.
Proof.
  unfold django_get. destruct (filter f l) as [|y [|z t]] eqn:F; try discriminate.
  intros H x Hx Fx. injection H as <-.
  assert (Hin : In x (filter f l)) by (apply filter_In; split; assumption).
  rewrite F in Hin. destruct Hin as [<-|[]]. reflexivity.
Qed.

Lemma main_params_entry s court case pacer x :
  main_params s court case pacer x = true ->
  pacer_doc_id x = pacer /\ entry_in_case s court case (rd_entry x) = true.
Proof.
  unfold main_params. intros H. apply andb_true_iff in H. destruct H as [H1 H2].
  apply String.eqb_eq in H1. split; assumption.
Qed.

(** When rows match the main-document lookup, [resolve_main_rd] returns
    one of them, creates nothing, and only deletes rows; without ACMS the
    row returned is then the only match. *)
Lemma resolve_found s court case pacer atts is_acms m created s1 :
  rows_ok s -> filter (main_params s court case pacer) (rds s) <> [] ->
  resolve_main_rd rd_ordering_lt s court case pacer atts is_acms = Ok (m, created, s1) ->
  In m (rds s) /\ In m (rds s1) /\ pacer_doc_id m = pacer
  /\ entry_in_case s1 court case (rd_entry m) = true
  /\ incl (rds s1) (rds s) /\ next_pk s1 = next_pk s
  /\ entry_dockets s1 = entry_dockets s /\ rows_ok s1
  /\ (is_acms = false ->
      forall x, In x (rds s1) -> main_params s1 court case pacer x = true -> x = m).
Proof.
  intros [Hn Hlt] Hne H. unfold resolve_main_rd in H. destruct is_acms.
  - destruct (filter (main_params s court case pacer) (rds s)) as [|a l] eqn:F;
      [contradiction|].
    destruct (first_by_some rd_ordering_lt a l) as [e Ee]. rewrite Ee in H.
    injection H as <- <- <-.
    pose proof (first_by_in _ _ _ Ee) as Hin. rewrite <- F in Hin.
    apply filter_In in Hin. destruct Hin as [Hin Hp].
    destruct (main_params_entry _ _ _ _ _ Hp) as [Hp1 Hp2].
    repeat split; try assumption; try reflexivity.
    + intros x Hx; exact Hx.
    + discriminate.
  - destruct (django_get (main_params s court case pacer) (rds s)) as [| |r] eqn:G.
    + exfalso. unfold django_get in G.
      destruct (filter _ (rds s)) as [|y [|z t]]; try discriminate. apply Hne; reflexivity.
    + destruct (truthy case); [|discriminate].
      destruct (clean_duplicate_documents s (main_params s court case pacer))
        as [[r s2]|e] eqn:C; [|discriminate].
      apply keep_latest_shape in C. subst s2.
      rewrite main_params_delete in H.
      match type of H with context [django_get ?f ?l] =>
        destruct (django_get f l) as [| |r'] eqn:G2 end; try discriminate.
      injection H as <- <- <-.
      destruct (django_get_got _ _ _ G2) as [Hin1 Hp].
      apply delete_rds_in in Hin1. destruct Hin1 as [Hin Hq].
      destruct (main_params_entry _ _ _ _ _ Hp) as [Hp1 Hp2].
      split; [exact Hin|]. split; [apply delete_rds_in; split; assumption|].
      split; [exact Hp1|]. split; [exact Hp2|].
      split; [intros x Hx; apply delete_rds_in in Hx; apply Hx|].
      split; [reflexivity|]. split; [reflexivity|]. split; [split|].
      * apply delete_rds_nodup. exact Hn.
      * intros x Hx. apply delete_rds_in in Hx. apply Hlt. apply Hx.
      * intros _ x Hx Hpx. rewrite main_params_delete in Hpx.
        apply (django_get_got_unique _ _ _ G2); assumption.
    + injection H as <- <- <-.
      destruct (django_get_got _ _ _ G) as [Hin Hp].
      destruct (main_params_entry _ _ _ _ _ Hp) as [Hp1 Hp2].
      split; [exact Hin|]. split; [exact Hin|]. split; [exact Hp1|].
      split; [exact Hp2|]. split; [intros x Hx; exact Hx|].
      split; [reflexivity|]. split; [reflexivity|]. split; [split; assumption|].
      intros _ x Hx Hpx. apply (django_get_got_unique _ _ _ G); assumption.
Qed.
(** Claim C4, amended.  On an appellate court, when the main-document
    lookup of [merge_attachment_page_data] finds the main document [m]
    among the existing rows (keys distinct and below the next key), and
    the only usable attachment dict with [m]'s id [pacer] is attachment 0,
    then afterwards a row with [m]'s key, [m]'s entry and the id [pacer]
    is ATTACHMENT #0; every row carrying [pacer] has [m]'s key or was
    already there; and without ACMS, [m]'s key is the only key carried by
    rows of that entry with that id. *)
Theorem merge_attachment_reclassifies_main s court case pacer dn atts is_acms
  m created s1 a0 aff de s' :
  ais_appellate_court court = true ->
  rows_ok s ->
  filter (main_params s court case pacer) (rds s) <> [] ->
  resolve_main_rd rd_ordering_lt s court case pacer atts is_acms = Ok (m, created, s1) ->
  filter (fun a => negb (skip_attachment a)
                   && opt_str_eqb (get (at_pacer_doc_id a)) (Some pacer)) atts = [a0] ->
  get (at_attachment_number a0) = Some 0 ->
  merge_attachment_page_data ais_appellate_court is_long_appellate_document_number
    convert_size_to_bytes rd_ordering_lt s court case pacer dn atts false is_acms = Ok (aff, de, s') ->
  In m (rds s) /\ pacer_doc_id m = pacer /\ de = rd_entry m
  /\ (exists r, In r (rds s') /\ rd_pk r = rd_pk m /\ rd_entry r = rd_entry m
       /\ document_type r = ATTACHMENT /\ attachment_number r = Some 0
       /\ pacer_doc_id r = pacer)
  /\ NoDup (map rd_pk (rds s'))
  /\ (forall x, In x (rds s') -> pacer_doc_id x = pacer -> rd_pk x = rd_pk m \/ In x (rds s))
  /\ (is_acms = false ->
      forall x, In x (rds s') -> rd_entry x = rd_entry m -> pacer_doc_id x = pacer ->
      rd_pk x = rd_pk m).
Proof.
  intros Happ Hok Hne Hres Hfil Hn0 H.
  destruct (resolve_found _ _ _ _ _ _ _ _ _ Hok Hne Hres)
    as (Hm & Hm1 & Hp1 & Hc1 & Hincl & _ & _ & Hok1 & Huniq).
  unfold merge_attachment_page_data in H. rewrite Hres in H. cbv zeta in H.
  match type of H with context [attachment_loop ?a ?b ?c ?st0 atts ?e ?f ?g ?h] =>
    destruct (attachment_loop a b c st0 atts e f g h) as [st|err] eqn:L end;
    [|discriminate].
  rewrite <- Hp1 in Hfil.
  assert (Hmlt : rd_pk m < next_pk s1) by (apply (proj2 Hok1); exact Hm1).
  destruct (loop_promotes _ _ _ _ _ _ _ _ _ _ Happ Hfil Hn0 Hok1 Hmlt L)
    as ((Hn2 & _) & Hx2 & rP & HrP & K1 & K2 & K3 & K4 & K5).
  rewrite Hp1 in Hx2, K3.
  destruct is_acms.
  - injection H as <- <- <-.
    split; [exact Hm|]. split; [exact Hp1|]. split; [reflexivity|].
    split; [exists rP; repeat split; assumption|]. split; [exact Hn2|].
    split; [|discriminate].
    intros x Hx Hpx. destruct (Hx2 x Hx Hpx) as [E|Hx1]; [left; exact E|].
    right. apply Hincl. exact Hx1.
  - assert (Hent : forall x, In x (rds (ls_store st)) -> rd_entry x = rd_entry m ->
                   pacer_doc_id x = pacer -> rd_pk x = rd_pk m).
    { intros x Hx He Hpx. destruct (Hx2 x Hx Hpx) as [E|Hx1]; [exact E|].
      assert (x = m) as ->; [|reflexivity].
      apply (Huniq eq_refl x Hx1). unfold main_params.
      rewrite Hpx, String.eqb_refl, He, Hc1. reflexivity. }
    destruct (clean_duplicate_attachment_entries (ls_store st) (rd_entry m) atts)
      as [s2|err] eqn:C; [|discriminate].
    injection H as <- <- <-.
    destruct (cleanup_keeps _ _ _ _ rP C Hn2 HrP) as (Hin2 & Hincl2 & Hn3).
    { intros x Hx He Hpx. rewrite K1. apply Hent; [exact Hx|exact He|congruence]. }
    split; [exact Hm|]. split; [exact Hp1|]. split; [reflexivity|].
    split; [exists rP; repeat split; assumption|]. split; [exact Hn3|].
    split.
    + intros x Hx Hpx. apply Hincl2 in Hx.
      destruct (Hx2 x Hx Hpx) as [E|Hx1]; [left; exact E|].
      right. apply Hincl. exact Hx1.
    + intros _ x Hx He Hpx. apply Hincl2 in Hx. apply Hent; assumption.
Qed.




End Facts.

(** A docket entry 10 of court ["ca1"] whose main document has pk 1 and
    [pacer_doc_id] ["X"]. *)
Definition cx_main : rd :=
  mkRD 1 10 PACER_DOCUMENT None "X" "5" "Main" None None false "" None 1.

Definition cx_store : store := mkStore [cx_main] [mkEI 10 "ca1" None] 2.

(** An attachment with a number and a page count but no [pacer_doc_id]. *)
Definition cx_att_no_id : att_dict :=
  mkAtt (Some (Some 1)) None (Some (Some 5)) (Some (Some "Exhibit A")) None None None.

(** An attachment with a number and a [pacer_doc_id] but no [page_count] key. *)
Definition cx_att_no_count : att_dict :=
  mkAtt (Some (Some 2)) (Some (Some "Y")) None (Some (Some "Exhibit B")) None None None.

Definition no_court (_ : string) : bool := false.
Definition no_size (_ : string) : option nat := None.

(** An ordering of documents by primary key. *)
Definition cx_order (a b : rd) : bool := Nat.ltb (rd_pk a) (rd_pk b).

(** Claim C7, counterexample.  The first dict lacks only the
    [pacer_doc_id] (it has an attachment number and a page count), yet it
    is skipped; the second lacks the [page_count] key and has number 2,
    yet it is processed: the only affected document is the one created
    for ["Y"]. *)
Lemma merge_attachment_skip_cx :
  match merge_attachment_page_data no_court no_court no_size cx_order cx_store "ca1" None "X" None
          [cx_att_no_id; cx_att_no_count] false false with
  | Ok (affected, _, _) => map pacer_doc_id affected = ["Y"]
  | Err _ => False
  end.
Proof. vm_compute. reflexivity. Qed.

(** Claim C7, witness: the two dicts above. *)
Lemma merge_attachment_skips_exactly_witness :
  exists affected de s',
    merge_attachment_page_data no_court no_court no_size cx_order cx_store "ca1" None "X" None
      [cx_att_no_id; cx_att_no_count] false false = Ok (affected, de, s')
    /\ length affected = 0 + length (filter (fun a => negb (skip_attachment a))
                                         [cx_att_no_id; cx_att_no_count]).
Proof.
  do 3 eexists. split; [reflexivity|].
  eapply proj1.
  eapply (merge_attachment_skips_exactly no_court no_court no_size cx_order cx_store "ca1" None "X"
           None [cx_att_no_id; cx_att_no_count] false cx_main [] cx_store);
    reflexivity.
Defined.






(** An appellate court; page dicts for ["X"] as attachment 1 and as
    attachment 0. *)
Definition appellate_court (_ : string) : bool := true.

Definition cx_att_x1 : att_dict :=
  mkAtt (Some (Some 1)) (Some (Some "X")) (Some (Some 3)) (Some (Some "Exhibit")) None None None.

Definition cx_att_x0 : att_dict :=
  mkAtt (Some (Some 0)) (Some (Some "X")) (Some (Some 3)) (Some (Some "Main")) None None None.

(** Claim C4, counterexample.  The main document ["X"] (pk 1) is found,
    and the page lists ["X"] as attachment 0, after an entry listing ["X"]
    as attachment 1.  The first entry reclassifies the main row as
    attachment 1; the second finds that row by its id and turns it back
    into the main document: afterwards the only row is pk 1 as a
    PACER_DOCUMENT, and no ATTACHMENT #0 exists. *)
Lemma attachment_zero_not_kept_cx :
  filter (main_params cx_store "ca1" None "X") (rds cx_store) = [cx_main]
  /\ get (at_attachment_number cx_att_x0) = Some 0
  /\ get (at_pacer_doc_id cx_att_x0) = Some "X"
  /\ skip_attachment cx_att_x0 = false
  /\ match merge_attachment_page_data appellate_court no_court no_size cx_order cx_store "ca1" None
             "X" None [cx_att_x1; cx_att_x0] false false with
     | Ok (_, _, s') =>
         map (fun r => (rd_pk r, document_type r, attachment_number r)) (rds s')
         = [(1, PACER_DOCUMENT, None)]
     | Err _ => False
     end.
Proof. vm_compute. repeat split. Qed.

(** Claim C4, witness: the same main document with the page listing
    ["X"] only as attachment 0. *)
Lemma merge_attachment_reclassifies_main_witness :
  exists aff de s',
    merge_attachment_page_data appellate_court no_court no_size cx_order cx_store "ca1" None "X" None
      [cx_att_x0] false false = Ok (aff, de, s')
    /\ In cx_main (rds cx_store).
Proof.
  do 3 eexists. split; [reflexivity|].
  eapply proj1.
  eapply (merge_attachment_reclassifies_main appellate_court no_court no_size cx_order cx_store "ca1"
           None "X" None [cx_att_x0] false cx_main [] cx_store cx_att_x0).
  - reflexivity.
  - split.
    + simpl. repeat constructor. simpl. tauto.
    + intros x [<-|[]]. simpl. lia.
  - vm_compute. discriminate.
  - reflexivity.
  - reflexivity.
  - reflexivity.
  - reflexivity.
Defined.

Lemma latest_by_max {A} (key : A -> nat) l r :
  latest_by key l = Some r -> forall x, In x l -> key x <= key r.
Proof.
  revert r. induction l as [|a rest IH]; intros r H x Hx; simpl in H; [discriminate|].
  destruct (latest_by key rest) as [b|] eqn:E.
  - specialize (IH b eq_refl).
    destruct (Nat.ltb (key a) (key b)) eqn:Hlt; injection H as <-.
    + apply Nat.ltb_lt in Hlt. destruct Hx as [<-|Hx]; [lia|apply IH; exact Hx].
    + apply Nat.ltb_ge in Hlt. destruct Hx as [<-|Hx]; [lia|]. specialize (IH x Hx). lia.
  - injection H as <-. destruct Hx as [<-|Hx]; [lia|].
    destruct rest as [|y rest']; [contradiction|].
    destruct (latest_by_some key y rest') as [z Hz]. congruence.
Qed.

(** [keep_latest_rd_document] (and [clean_duplicate_documents]) fails
    only when no row is selected; otherwise it returns a selected row,
    keeps it and every unselected row, deletes only selected rows, leaves
    no other selected row, and the row it keeps is the latest created
    among the selected rows with a PDF when there are any, else among all
    selected rows. *)
Theorem keep_latest_rd_document_spec s p :
  match keep_latest_rd_document s p with
  | Err _ => filter p (rds s) = []
  | Ok (r, s') =>
      In r (rds s) /\ p r = true
      /\ incl (rds s') (rds s)
      /\ (forall x, In x (rds s) -> p x = false \/ rd_pk x = rd_pk r -> In x (rds s'))
      /\ (forall x, In x (rds s') -> p x = true -> rd_pk x = rd_pk r)
      /\ (has_pdf r = true \/ forall x, In x (rds s) -> p x = true -> has_pdf x = false)
      /\ (forall x, In x (rds s) -> p x = true -> has_pdf x = true \/ has_pdf r = false ->
            rd_date_created x <= rd_date_created r)
  end.
Proof.
  unfold keep_latest_rd_document. cbv zeta.
  assert (Common : forall r, In r (rds s) -> p r = true ->
    incl (rds (delete_rds s (fun x => p x && negb (Nat.eqb (rd_pk x) (rd_pk r))))) (rds s)
    /\ (forall x, In x (rds s) -> p x = false \/ rd_pk x = rd_pk r ->
          In x (rds (delete_rds s (fun x => p x && negb (Nat.eqb (rd_pk x) (rd_pk r))))))
    /\ (forall x, In x (rds (delete_rds s (fun x => p x && negb (Nat.eqb (rd_pk x) (rd_pk r)))))
          -> p x = true -> rd_pk x = rd_pk r)).
  { intros r Hr Hp. split; [|split].
    - intros x Hx. apply delete_rds_in in Hx. apply Hx.
    - intros x Hx Hk. apply delete_rds_in. split; [exact Hx|].
      destruct Hk as [Hk|Hk]; [rewrite Hk; reflexivity|].
      rewrite Hk, Nat.eqb_refl, andb_false_r. reflexivity.
    - intros x Hx Hpx. apply delete_rds_in in Hx. destruct Hx as [_ Hx].
      rewrite Hpx in Hx. simpl in Hx. apply negb_false_iff, Nat.eqb_eq in Hx. exact Hx. }
  destruct (filter has_pdf (filter p (rds s))) as [|h t] eqn:F.
  - destruct (filter p (rds s)) as [|h t] eqn:G; [reflexivity|].
    destruct (latest_by_some rd_date_created h t) as [r Hr]. rewrite Hr.
    pose proof (latest_by_max _ _ _ Hr) as Hmax. apply latest_by_in in Hr.
    rewrite <- G in Hr, Hmax. apply filter_In in Hr. destruct Hr as [Hr Hp].
    assert (Hno : forall x, In x (rds s) -> p x = true -> has_pdf x = false).
    { intros x Hx Hpx. destruct (has_pdf x) eqn:Hh; [|reflexivity].
      assert (Hin : In x (filter has_pdf (h :: t))).
      { apply filter_In. split; [|exact Hh]. rewrite <- G. apply filter_In. split; assumption. }
      rewrite F in Hin. destruct Hin. }
    destruct (Common r Hr Hp) as (C1 & C2 & C3).
    repeat split; try assumption.
    + right. exact Hno.
    + intros x Hx Hpx _. apply Hmax. apply filter_In. split; assumption.
  - destruct (latest_by_some rd_date_created h t) as [r Hr]. rewrite Hr.
    pose proof (latest_by_max _ _ _ Hr) as Hmax. apply latest_by_in in Hr.
    rewrite <- F in Hr, Hmax. apply filter_In in Hr. destruct Hr as [Hr Hh].
    apply filter_In in Hr. destruct Hr as [Hr Hp].
    destruct (Common r Hr Hp) as (C1 & C2 & C3).
    repeat split; try assumption.
    + left. exact Hh.
    + intros x Hx Hpx [Hhx|Hhr]; [|rewrite Hh in Hhr; discriminate].
      apply Hmax. apply filter_In. split; [apply filter_In; split|]; assumption.
Qed.

(** At most one row of entry [de] holds the id [c]. *)
Definition single_id (t : store) (de : nat) (c : string) : Prop :=
  forall x y, In x (rds t) -> In y (rds t) -> rd_entry x = de -> rd_entry y = de ->
    pacer_doc_id x = c -> pacer_doc_id y = c -> rd_pk x = rd_pk y.

Lemma single_id_incl t t' de c :
  incl (rds t') (rds t) -> single_id t de c -> single_id t' de c.
Proof. intros Hi Hs x y Hx Hy. apply Hs; apply Hi; assumption. Qed.

Lemma not_dupe_single t de c : ~ In c (dupe_doc_ids t de) -> single_id t de c.
Proof.
  intros Hn x y Hx Hy Ex Ey Cx Cy.
  set (L := filter (fun r => String.eqb (pacer_doc_id r) c)
              (filter (fun r => Nat.eqb (rd_entry r) de) (rds t))).
  assert (HL : forall z, In z (rds t) -> rd_entry z = de -> pacer_doc_id z = c -> In z L).
  { intros z Hz Ez Cz. apply filter_In. split.
    - apply filter_In. split; [exact Hz|]. apply Nat.eqb_eq. exact Ez.
    - apply String.eqb_eq. exact Cz. }
  assert (Hlen : length L <= 1).
  { destruct (Nat.ltb 1 (length L)) eqn:Hl; [|apply Nat.ltb_ge in Hl; exact Hl].
    exfalso. apply Hn. unfold dupe_doc_ids. cbv zeta. apply filter_In. split.
    - rewrite <- Cx. apply in_map. apply filter_In. split; [exact Hx|].
      apply Nat.eqb_eq. exact Ex.
    - exact Hl. }
  pose proof (HL x Hx Ex Cx) as Lx. pose proof (HL y Hy Ey Cy) as Ly.
  destruct L as [|a [|b l]]; simpl in Hlen; [destruct Lx| |lia].
  destruct Lx as [<-|[]]. destruct Ly as [<-|[]]. reflexivity.
Qed.

Lemma single_no_dupe t de :
  NoDup (map rd_pk (rds t)) -> (forall c, single_id t de c) -> dupe_doc_ids t de = [].
Proof.
  intros Hn Hs. destruct (dupe_doc_ids t de) as [|c l] eqn:D; [reflexivity|].
  exfalso.
  assert (Hc : In c (dupe_doc_ids t de)) by (rewrite D; left; reflexivity).
  pose proof Hc as Hc'. unfold dupe_doc_ids in Hc'. cbv zeta in Hc'.
  apply filter_In in Hc'. destruct Hc' as [Hm _].
  apply in_map_iff in Hm. destruct Hm as (x0 & Cx0 & Hx0).
  apply filter_In in Hx0. destruct Hx0 as [Hx0 Ex0]. apply Nat.eqb_eq in Ex0.
  apply (not_dupe t de c (rd_pk x0) Hn); [|exact Hc].
  intros x Hx Ex Cx. exact (Hs c x x0 Hx Hx0 Ex Ex0 Cx Cx0).
Qed.

Lemma second_pass_single de dupes : forall s s',
  second_pass s de dupes = Ok s' -> forall d, In d dupes -> single_id s' de (pacer_doc_id d).
Proof.
  induction dupes as [|d rest IH]; intros s s' H d' Hd'; simpl in H; [destruct Hd'|].
  destruct (keep_latest_rd_document s _) as [[r s1]|e] eqn:E; [|discriminate].
  apply keep_latest_shape in E. subst s1.
  destruct Hd' as [<-|Hd']; [|exact (IH _ _ H d' Hd')].
  destruct (second_pass_spec _ _ _ _ H) as (S1 & _).
  apply (single_id_incl _ _ _ _ S1).
  assert (K : forall x, In x (rds (delete_rds s (fun x =>
                 Nat.eqb (rd_entry x) de && String.eqb (pacer_doc_id x) (pacer_doc_id d)
                 && negb (Nat.eqb (rd_pk x) (rd_pk r))))) ->
              rd_entry x = de -> pacer_doc_id x = pacer_doc_id d -> rd_pk x = rd_pk r).
  { intros x Hx Ex Cx. apply delete_rds_in in Hx. destruct Hx as [_ Hx].
    rewrite Ex, Cx, Nat.eqb_refl, String.eqb_refl in Hx. simpl in Hx.
    apply negb_false_iff, Nat.eqb_eq in Hx. exact Hx. }
  intros x y Hx Hy Ex Ey Cx Cy. rewrite (K x Hx Ex Cx), (K y Hy Ey Cy). reflexivity.
Qed.

Lemma second_pass_other de dupes : forall s s',
  second_pass s de dupes = Ok s' -> forall x, In x (rds s) -> rd_entry x <> de -> In x (rds s').
Proof.
  induction dupes as [|d rest IH]; intros s s' H x Hx Hne; simpl in H.
  - injection H as <-. exact Hx.
  - destruct (keep_latest_rd_document s _) as [[r s1]|e] eqn:E; [|discriminate].
    apply keep_latest_shape in E. subst s1.
    apply (IH _ _ H); [|exact Hne]. apply delete_rds_in. split; [exact Hx|].
    apply Nat.eqb_neq in Hne. rewrite Hne. reflexivity.
Qed.

(** On a table with distinct primary keys, a successful
    [clean_duplicate_attachment_entries] leaves no [pacer_doc_id] held by
    two documents of the entry, only deletes rows, and keeps every
    document of the other entries. *)
Theorem clean_duplicate_attachment_entries_dedups s de atts s2 :
  NoDup (map rd_pk (rds s)) ->
  clean_duplicate_attachment_entries s de atts = Ok s2 ->
  dupe_doc_ids s2 de = [] /\ incl (rds s2) (rds s) /\ NoDup (map rd_pk (rds s2))
  /\ (forall x, In x (rds s) -> rd_entry x <> de -> In x (rds s2)).
Proof.
  intros Hn H. unfold clean_duplicate_attachment_entries in H.
  destruct (dupe_doc_ids s de) as [|c0 l0] eqn:D.
  - injection H as <-. repeat split; auto. intros x Hx. exact Hx.
  - destruct (first_pass s (filter (in_dupes s de) (rds s)) atts) as [s1|e] eqn:F1;
      [|discriminate].
    destruct (first_pass_spec _ _ _ _ F1) as (P1 & P2 & P3).
    assert (Hn1 : NoDup (map rd_pk (rds s1))) by (apply P2; exact Hn).
    assert (Ho1 : forall x, In x (rds s) -> rd_entry x <> de -> In x (rds s1)).
    { intros x Hx Hne. apply P3; [exact Hx|]. intros Hi. apply in_map_iff in Hi.
      destruct Hi as (d & Ed & Hd). apply filter_In in Hd. destruct Hd as [Hd Hid].
      assert (E : d = x) by (apply (PartiesFacts.nodup_map_inj rd_pk (rds s)); assumption).
      subst d. unfold in_dupes in Hid. apply andb_true_iff in Hid. destruct Hid as [Hid _].
      apply Nat.eqb_eq in Hid. contradiction. }
    destruct (dupe_doc_ids s1 de) as [|c1 l1] eqn:D1.
    + injection H as <-. repeat split; assumption.
    + destruct (second_pass_spec _ _ _ _ H) as (S1 & S2 & _).
      assert (Hn2 : NoDup (map rd_pk (rds s2))) by (apply S2; exact Hn1).
      repeat split.
      * apply (single_no_dupe _ _ Hn2). intros c.
        destruct (in_dec string_dec c (dupe_doc_ids s1 de)) as [Hc|Hc].
        -- pose proof Hc as Hc'. unfold dupe_doc_ids in Hc'. cbv zeta in Hc'.
           apply filter_In in Hc'. destruct Hc' as [Hm _].
           apply in_map_iff in Hm. destruct Hm as (x0 & Cx0 & Hx0).
           apply filter_In in Hx0. destruct Hx0 as [Hx0 Ex0].
           rewrite <- Cx0. apply (second_pass_single _ _ _ _ H).
           apply filter_In. split; [exact Hx0|].
           unfold in_dupes. rewrite Ex0. simpl. apply existsb_exists.
           exists c. split; [exact Hc|]. rewrite Cx0. apply String.eqb_refl.
        -- exact (single_id_incl _ _ _ _ S1 (not_dupe_single _ _ _ Hc)).
      * intros x Hx. apply P1. apply S1. exact Hx.
      * exact Hn2.
      * intros x Hx Hne. apply (second_pass_other _ _ _ _ H); [apply Ho1|]; assumption.
Qed.


(** Two documents of entry 10 share the id "X"; the later one has the
    greater [date_created]. *)
Definition cx_dupe_store : store :=
  mkStore [mkRD 1 10 ATTACHMENT (Some 1) "X" "1" "Exhibit" None None false "" None 1;
           mkRD 2 10 ATTACHMENT (Some 1) "X" "1" "Exhibit" None None false "" None 2;
           mkRD 3 11 ATTACHMENT (Some 1) "X" "2" "Exhibit" None None false "" None 3]
    [mkEI 10 "ca1" None; mkEI 11 "ca1" None] 4.

Lemma clean_duplicate_attachment_entries_dedups_witness :
  exists s2, clean_duplicate_attachment_entries cx_dupe_store 10 [] = Ok s2
             /\ dupe_doc_ids s2 10 = [].
Proof.
  eexists. split; [vm_compute; reflexivity|].
  eapply proj1. apply (clean_duplicate_attachment_entries_dedups cx_dupe_store 10 []).
  - simpl. repeat (apply NoDup_cons; [simpl; lia|]). apply NoDup_nil.
  - vm_compute. reflexivity.
Defined.

End AttachmentsFacts.

(** ** The docket entry merge *)
Module EntriesFacts.
Import Entry Entries.

Section Facts.

Variable docs : Type.
Variable rd_descriptions : docs -> nat -> list string.
Variable delete_entry_docs : docs -> nat -> docs.
Variable rd_part : docs -> docket -> entry_dict -> docket_entry -> bool -> option docs.
Variable normalize_description : string -> string.
Variable to_court_local : string -> date -> time -> date * time.

Lemma delete_entries_last_filing (s : store docs) p :
  last_filing docs (delete_entries docs delete_entry_docs s p) = last_filing docs s.
Proof. reflexivity. Qed.

Lemma save_entry_last_filing (s : store docs) e :
  last_filing docs (save_entry docs s e) = last_filing docs s.
Proof. unfold save_entry. destruct (existsb _ _); reflexivity. Qed.

Lemma add_create_last_filing (s : store docs) d de_in e c s1 :
  add_create_docket_entry_transaction docs delete_entry_docs s d de_in = Some (e, c, s1) ->
  last_filing docs s1 = last_filing docs s.
Proof.
  unfold add_create_docket_entry_transaction, new_entry. intros H.
  repeat match type of H with
         | context [match ?x with _ => _ end] => destruct x
         end;
  try discriminate; injection H as <- <- <-;
  rewrite ?save_entry_last_filing; reflexivity.
Qed.

Lemma merge_unnumbered_last_filing (s : store docs) des de_in e s1 :
  merge_unnumbered_docket_entries docs delete_entry_docs s des de_in = Some (e, s1) ->
  last_filing docs s1 = last_filing docs s.
Proof.
  unfold merge_unnumbered_docket_entries. intros H.
  repeat match type of H with
         | context [match ?x with _ => _ end] => destruct x
         end;
  try discriminate; injection H as <- <-; reflexivity.
Qed.

Lemma get_or_make_last_filing (s : store docs) d de_in e c s1 de' :
  get_or_make_docket_entry docs rd_descriptions delete_entry_docs normalize_description
    s d de_in = Some (e, c, s1, de') ->
  last_filing docs s1 = last_filing docs s.
Proof.
  unfold get_or_make_docket_entry. intros H.
  destruct (truthy (document_number de_in)).
  - destruct (add_create_docket_entry_transaction docs delete_entry_docs s d de_in)
      as [[[e' c'] s']|] eqn:E; [|discriminate].
    injection H as <- <- <- <-. eapply add_create_last_filing. exact E.
  - destruct (list_sum _) as [|[|k]].
    + unfold new_entry in H. injection H as <- <- <- <-. reflexivity.
    + destruct (filter _ _); [discriminate|]. injection H as <- <- <- <-. reflexivity.
    + destruct (merge_unnumbered_docket_entries _ _ _ _ _) as [[e' s']|] eqn:E;
        [|discriminate].
      injection H as <- <- <- <-. eapply merge_unnumbered_last_filing. exact E.
Qed.

(** The dates the loop records: those of the entries it created. *)
Definition created_dates (l : list (docket_entry * bool)) : list (option date) :=
  map (fun p => de_date_filed (fst p)) (filter snd l).

Lemma entries_loop_no_early (s : store docs) d l ret known cu ret' known' cu' s' flag :
  entries_loop docs rd_descriptions delete_entry_docs rd_part normalize_description
    to_court_local s d false l ret known cu = Some (ret', known', cu', s', flag) ->
  flag = false /\ last_filing docs s' = last_filing docs s
  /\ exists new, ret' = ret ++ new /\ known' = known ++ created_dates new.
Proof.
  revert s ret known cu. induction l as [|de_in rest IH]; intros s ret known cu H; simpl in H.
  - injection H as <- <- <- <- <-. split; [reflexivity|]. split; [reflexivity|].
    exists []. rewrite !app_nil_r. split; reflexivity.
  - destruct (get_or_make_docket_entry _ _ _ _ s d de_in) as [[[[e0 c] s1] de']|] eqn:G.
    + simpl in H.
      destruct (rd_part _ _ _ _ _) as [ds|]; [|discriminate].
      apply IH in H as [Hf [Hl [new [Hr Hk]]]].
      split; [exact Hf|]. split.
      * rewrite Hl. simpl. rewrite save_entry_last_filing.
        eapply get_or_make_last_filing. exact G.
      * exists ((update_entry_fields to_court_local (d_court_id d) e0 de', c) :: new).
        rewrite Hr, Hk, <- !app_assoc. split; [reflexivity|].
        unfold created_dates. simpl. destruct c; simpl; rewrite <- ?app_assoc; reflexivity.
    + apply IH in H as [Hf [Hl [new [Hr Hk]]]]. eauto.
Qed.

Lemma date_ltb_irrefl a : date_ltb a a = false.
Proof. unfold date_ltb. rewrite !Nat.ltb_irrefl, !Nat.eqb_refl. reflexivity. Qed.

Lemma date_ltb_asym a b : date_ltb a b = true -> date_ltb b a = false.
Proof.
  unfold date_ltb. intros H.
  destruct (Nat.ltb (year b) (year a) || _) eqn:E; [|reflexivity].
  exfalso.
  repeat (rewrite ?orb_true_iff, ?andb_true_iff, ?Nat.ltb_lt, ?Nat.eqb_eq in H, E).
  lia.
Qed.

Lemma max_known_not_below x l y :
  max_known (Some x :: l) = Some y -> date_ltb y x = false.
Proof.
  simpl. destruct (max_known l) as [z|]; intros H; injection H as <-.
  - unfold max_date. destruct (date_ltb x z) eqn:E.
    + apply date_ltb_asym. exact E.
    + apply date_ltb_irrefl.
  - apply date_ltb_irrefl.
Qed.

(** Claim C8, amended.  When [add_docket_entries] runs with
    [do_not_update_existing] false and completes, on a docket whose
    in-memory [date_last_filing] is the stored one, the docket's
    [date_last_filing] becomes the greatest of its prior value and the
    filing dates of the entries the call created (it is left as it was
    when there is none); the dates of pre-existing entries the call
    updates are not taken into account.  It never moves backward. *)
Theorem add_docket_entries_last_filing :
  forall (s : store docs) (d : docket) (l : list entry_dict)
         (returned : list (docket_entry * bool)) (content_updated : bool)
         (s' : store docs),
    last_filing docs s = d_date_last_filing d ->
    add_docket_entries docs rd_descriptions delete_entry_docs rd_part
      normalize_description to_court_local s d l false
    = Some (returned, content_updated, s') ->
    last_filing docs s' = max_known (d_date_last_filing d :: created_dates returned)
    /\ (forall x, d_date_last_filing d = Some x ->
          exists y, last_filing docs s' = Some y /\ date_ltb y x = false).
Proof.
  intros s d l ret cu s' Hs H.
  assert (Hlf : last_filing docs s' = max_known (d_date_last_filing d :: created_dates ret)).
  { unfold add_docket_entries in H.
    destruct (Sequence.calculate_recap_sequence_numbers _ _ _) as [l2|]; [|discriminate].
    destruct (entries_loop _ _ _ _ _ _ s d false l2 [] [d_date_last_filing d] false)
      as [[[[[ret0 known] cu0] s0] flag]|] eqn:E; [|discriminate].
    apply entries_loop_no_early in E as [-> [Hl [new [Hr Hk]]]].
    simpl in Hr, Hk. subst ret0 known.
    destruct (max_known (d_date_last_filing d :: created_dates new)) as [m|] eqn:M.
    - injection H as <- _ <-. rewrite M. reflexivity.
    - injection H as <- _ <-. rewrite M, Hl, Hs.
      destruct (d_date_last_filing d) eqn:D; [|reflexivity].
      simpl in M. destruct (max_known (created_dates new)); discriminate. }
  split; [exact Hlf|].
  intros x Hx. rewrite Hlf, Hx.
  pose proof (max_known_not_below x (created_dates ret)) as Hm.
  simpl in Hm |- *. destruct (max_known (created_dates ret)) as [z|]; eauto.
Qed.

Lemma opt_str_eqb_eq a b : opt_str_eqb a b = true <-> a = b.
Proof.
  destruct a as [x|], b as [y|]; simpl; split; intros H; try discriminate; try reflexivity.
  - apply String.eqb_eq in H. subst. reflexivity.
  - injection H as ->. apply String.eqb_refl.
Qed.

Lemma delete_entries_in (s : store docs) p x :
  In x (entries docs (delete_entries docs delete_entry_docs s p))
  <-> In x (entries docs s) /\ p x = false.
Proof. unfold delete_entries. simpl. rewrite filter_In, negb_true_iff. reflexivity. Qed.

Lemma save_entry_in (s : store docs) e : In e (entries docs (save_entry docs s e)).
Proof.
  unfold save_entry. destruct (existsb _ _) eqn:E; simpl.
  - apply existsb_exists in E. destruct E as (x & Hx & Ex).
    apply in_map_iff. exists x. rewrite Ex. split; [reflexivity|exact Hx].
  - apply in_or_app. right. left. reflexivity.
Qed.

Lemma save_entry_other (s : store docs) e x :
  In x (entries docs s) -> de_pk x <> de_pk e -> In x (entries docs (save_entry docs s e)).
Proof.
  intros Hx Hne. unfold save_entry. destruct (existsb _ _); simpl.
  - apply in_map_iff. exists x. apply Nat.eqb_neq in Hne. rewrite Hne.
    split; [reflexivity|exact Hx].
  - apply in_or_app. left. exact Hx.
Qed.

Lemma entry_opt_str_eqb_some a x : opt_str_eqb a (Some x) = true -> a = Some x.
Proof. intros H. apply opt_str_eqb_eq in H. exact H. Qed.

Lemma entry_key_true x k num b :
  Nat.eqb (de_docket x) k && opt_str_eqb (entry_number x) num && b = true ->
  de_docket x = k /\ entry_number x = num.
Proof.
  intros H. apply andb_true_iff in H. destruct H as [H _].
  apply andb_true_iff in H. destruct H as [H1 H2].
  apply Nat.eqb_eq in H1. apply opt_str_eqb_eq in H2. split; assumption.
Qed.

(** [add_create_docket_entry_transaction] returns an entry of the docket
    with the incoming entry number, present in the resulting table; an
    entry it did not create was already there; and it deletes no entry of
    another docket or with another entry number. *)
Theorem add_create_docket_entry_transaction_spec (s : store docs) d de_in e c s' :
  (forall x, In x (entries docs s) -> de_pk x < next_pk docs s) ->
  add_create_docket_entry_transaction docs delete_entry_docs s d de_in = Some (e, c, s') ->
  In e (entries docs s') /\ de_docket e = d_pk d /\ entry_number e = document_number de_in
  /\ (c = false -> In e (entries docs s))
  /\ (forall x, In x (entries docs s) ->
        de_docket x <> d_pk d \/ entry_number x <> document_number de_in ->
        In x (entries docs s')).
Proof.
  intros Hlt H.
  assert (Hb : forall x, de_docket x <> d_pk d \/ entry_number x <> document_number de_in ->
            Nat.eqb (de_docket x) (d_pk d) && opt_str_eqb (entry_number x) (document_number de_in)
            = false).
  { intros x [Hx|Hx].
    - apply Nat.eqb_neq in Hx. rewrite Hx. reflexivity.
    - destruct (opt_str_eqb (entry_number x) (document_number de_in)) eqn:E.
      + apply opt_str_eqb_eq in E. contradiction.
      + apply andb_false_r. }
  unfold add_create_docket_entry_transaction, new_entry in H. cbv beta zeta in H.
  match type of H with context [django_get ?f ?l] =>
    destruct (django_get f l) as [| |e0] eqn:G end.
  - destruct (pacer_seq_no de_in) as [q|] eqn:Q.
    + match type of H with context [filter ?f (entries docs s)] =>
        destruct (filter f (entries docs s)) as [|n0 nl] eqn:N end.
      * injection H as <- <- <-. repeat split.
        -- apply save_entry_in.
        -- discriminate.
        -- intros x Hx Hk. apply save_entry_other; [exact Hx|]. simpl.
           specialize (Hlt x Hx). lia.
      * destruct (AttachmentsFacts.latest_by_some de_date_created n0 nl) as [w Hw].
        rewrite Hw in H. injection H as <- <- <-.
        apply AttachmentsFacts.latest_by_in in Hw. rewrite <- N in Hw.
        apply filter_In in Hw. destruct Hw as [Hw Hn].
        destruct (entry_key_true _ _ _ _ Hn) as [E1 E2]. repeat split; try assumption.
        -- apply delete_entries_in. split; [exact Hw|].
           unfold pk_is. rewrite Nat.eqb_refl, andb_false_r. reflexivity.
        -- intros _. exact Hw.
        -- intros x Hx Hk. apply delete_entries_in. split; [exact Hx|].
           rewrite (Hb x Hk). reflexivity.
    + injection H as <- <- <-. repeat split.
      * apply save_entry_in.
      * discriminate.
      * intros x Hx Hk. apply save_entry_other; [exact Hx|]. simpl.
        specialize (Hlt x Hx). lia.
  - destruct (pacer_seq_no de_in) as [q|] eqn:Q; [|discriminate].
    match type of H with context [latest_by de_date_created ?l] =>
      destruct (latest_by de_date_created l) as [w|] eqn:Hw end; [|discriminate].
    injection H as <- <- <-.
    apply AttachmentsFacts.latest_by_in in Hw. apply filter_In in Hw. destruct Hw as [Hw Hp].
    destruct (entry_key_true _ _ _ _ Hp) as [E1 E2].
    apply andb_true_iff in Hp. destruct Hp as [_ Hq]. apply entry_opt_str_eqb_some in Hq.
    repeat split; try assumption.
    + apply delete_entries_in. split.
      * apply delete_entries_in. split; [exact Hw|].
        unfold pk_is. rewrite Nat.eqb_refl, andb_false_r. reflexivity.
      * rewrite Hq, andb_false_r. reflexivity.
    + intros _. exact Hw.
    + intros x Hx Hk. apply delete_entries_in. split.
      * apply delete_entries_in. split; [exact Hx|]. rewrite (Hb x Hk). reflexivity.
      * rewrite (Hb x Hk). reflexivity.
  - injection H as <- <- <-.
    destruct (AttachmentsFacts.django_get_got _ _ _ G) as [Hin Hp].
    destruct (entry_key_true _ _ _ _ Hp) as [E1 E2].
    repeat split; try assumption; intros; assumption.
Qed.

(** The [Q(description=...) | Q(description="")] filter. *)
Definition long_matches (de_in : entry_dict) (x : docket_entry) : Prop :=
  de_description x = "" \/ description de_in = Some (de_description x).

Lemma long_ok_iff de_in x :
  ((match description de_in with
    | Some t => String.eqb (de_description x) t
    | None => false
    end) || String.eqb (de_description x) "") = true <-> long_matches de_in x.
Proof.
  unfold long_matches. rewrite orb_true_iff, String.eqb_eq.
  destruct (description de_in) as [t|].
  - rewrite String.eqb_eq. split.
    + intros [->| ->]; [right; reflexivity|left; reflexivity].
    + intros [->|E]; [right; reflexivity|left; injection E as ->; reflexivity].
  - split.
    + intros [H|H]; [discriminate|left; exact H].
    + intros [H|H]; [right; exact H|discriminate].
Qed.

Lemma merge_unnumbered_frame (s : store docs) des w q x :
  In x (entries docs s) ->
  de_pk x = de_pk w \/ ~ In (de_pk x) (map de_pk des) ->
  In x (entries docs (delete_entries docs delete_entry_docs s
                        (fun y => existsb (pk_is y) des && q y && negb (pk_is w y)))).
Proof.
  intros Hx Hk. apply delete_entries_in. split; [exact Hx|].
  destruct Hk as [Hk|Hk].
  - unfold pk_is at 2. rewrite Hk, Nat.eqb_refl, andb_false_r. reflexivity.
  - destruct (existsb (pk_is x) des) eqn:E; [|reflexivity].
    exfalso. apply existsb_exists in E. destruct E as (y & Hy & Ey).
    apply Nat.eqb_eq in Ey. apply Hk. rewrite <- Ey. apply in_map. exact Hy.
Qed.

Lemma merge_unnumbered_frame_all (s : store docs) des w x :
  In x (entries docs s) ->
  de_pk x = de_pk w \/ ~ In (de_pk x) (map de_pk des) ->
  In x (entries docs (delete_entries docs delete_entry_docs s
                        (fun y => existsb (pk_is y) des && negb (pk_is w y)))).
Proof.
  intros Hx Hk. apply delete_entries_in. split; [exact Hx|].
  destruct Hk as [Hk|Hk].
  - unfold pk_is at 2. rewrite Hk, Nat.eqb_refl, andb_false_r. reflexivity.
  - destruct (existsb (pk_is x) des) eqn:E; [|reflexivity].
    exfalso. apply existsb_exists in E. destruct E as (y & Hy & Ey).
    apply Nat.eqb_eq in Ey. apply Hk. rewrite <- Ey. apply in_map. exact Hy.
Qed.

(** [merge_unnumbered_docket_entries] fails only on no candidates; the
    winner is a candidate, the earliest created among those whose long
    description matches (or is blank) when there are any, else among all;
    it only deletes rows, and only candidates other than the winner. *)
Theorem merge_unnumbered_docket_entries_spec (s : store docs) des de_in :
  match merge_unnumbered_docket_entries docs delete_entry_docs s des de_in with
  | None => des = []
  | Some (w, s') =>
      In w des
      /\ (long_matches de_in w \/ forall x, In x des -> ~ long_matches de_in x)
      /\ (forall x, In x des -> long_matches de_in x \/ ~ long_matches de_in w ->
            de_date_created w <= de_date_created x)
      /\ incl (entries docs s') (entries docs s)
      /\ (forall x, In x (entries docs s) ->
            de_pk x = de_pk w \/ ~ In (de_pk x) (map de_pk des) -> In x (entries docs s'))
  end.
Proof.
  unfold merge_unnumbered_docket_entries. cbv zeta.
  match goal with |- context [filter ?f des] => destruct (filter f des) as [|m0 ml] eqn:M end.
  - destruct des as [|x0 xs]; [reflexivity|].
    destruct (LocatorFacts.earliest_by_some de_date_created x0 xs) as [w Hw]. rewrite Hw.
    destruct (LocatorFacts.earliest_by_spec _ _ _ Hw) as [Hin Hmin].
    assert (Hno : forall x, In x (x0 :: xs) -> ~ long_matches de_in x).
    { intros x Hx Hm. apply long_ok_iff in Hm.
      assert (Hf : In x (filter (fun x => (match description de_in with
                          | Some t => String.eqb (de_description x) t
                          | None => false end) || String.eqb (de_description x) "") (x0 :: xs)))
        by (apply filter_In; split; assumption).
      rewrite M in Hf. destruct Hf. }
    repeat split.
    + exact Hin.
    + right. exact Hno.
    + intros x Hx _. apply Hmin. exact Hx.
    + intros x Hx. apply delete_entries_in in Hx. apply Hx.
    + intros x Hx Hk. apply (merge_unnumbered_frame_all s (x0 :: xs) w x Hx Hk).
  - destruct (LocatorFacts.earliest_by_some de_date_created m0 ml) as [w Hw]. rewrite Hw.
    destruct (LocatorFacts.earliest_by_spec _ _ _ Hw) as [Hin Hmin].
    rewrite <- M in Hin, Hmin. apply filter_In in Hin. destruct Hin as [Hin Hok].
    repeat split.
    + exact Hin.
    + left. apply long_ok_iff. exact Hok.
    + intros x Hx [Hm|Hm].
      * apply Hmin. apply filter_In. split; [exact Hx|]. apply long_ok_iff. exact Hm.
      * exfalso. apply Hm. apply long_ok_iff. exact Hok.
    + intros x Hx. apply delete_entries_in in Hx. apply Hx.
    + intros x Hx Hk. apply (merge_unnumbered_frame s des w _ x Hx Hk).
Qed.
(** Distinct primary keys, all below the next key. *)
Definition entries_ok (s : store docs) : Prop :=
  NoDup (map de_pk (entries docs s)) /\ forall x, In x (entries docs s) -> de_pk x < next_pk docs s.

Lemma entries_ok_delete (s : store docs) p :
  entries_ok s -> entries_ok (delete_entries docs delete_entry_docs s p).
Proof.
  intros [Hn Hl]. split.
  - unfold delete_entries. simpl. apply AttachmentsFacts.nodup_map_filter. exact Hn.
  - intros x Hx. apply delete_entries_in in Hx. apply Hl. apply Hx.
Qed.

Lemma entries_ok_save (s : store docs) e :
  entries_ok s -> de_pk e < next_pk docs s -> entries_ok (save_entry docs s e).
Proof.
  intros [Hn Hl] He. unfold save_entry. destruct (existsb _ _) eqn:E; split; simpl.
  - assert (Hm : map de_pk (map (fun x => if Nat.eqb (de_pk x) (de_pk e) then e else x)
                              (entries docs s)) = map de_pk (entries docs s)).
    { rewrite map_map. apply map_ext. intros x.
      destruct (Nat.eqb (de_pk x) (de_pk e)) eqn:X; [|reflexivity].
      apply Nat.eqb_eq in X. symmetry. exact X. }
    rewrite Hm. exact Hn.
  - intros x Hx. apply in_map_iff in Hx. destruct Hx as (y & <- & Hy).
    destruct (Nat.eqb (de_pk y) (de_pk e)); [exact He|apply Hl; exact Hy].
  - rewrite map_app. simpl. apply AttachmentsFacts.nodup_snoc; [exact Hn|].
    intros Hi. apply in_map_iff in Hi. destruct Hi as (y & Ey & Hy).
    assert (Hb : existsb (fun x => Nat.eqb (de_pk x) (de_pk e)) (entries docs s) = true).
    { apply existsb_exists. exists y. split; [exact Hy|]. apply Nat.eqb_eq. exact Ey. }
    rewrite E in Hb. discriminate.
  - intros x Hx. apply in_app_or in Hx. destruct Hx as [Hx|[<-|[]]]; [apply Hl; exact Hx|exact He].
Qed.

Lemma entries_ok_bump (s : store docs) :
  entries_ok s ->
  entries_ok (mkStore docs (entries docs s) (documents docs s) (last_filing docs s)
                (S (next_pk docs s))).
Proof.
  intros [Hn Hl]. split; [exact Hn|]. simpl. intros x Hx. specialize (Hl x Hx). lia.
Qed.

Lemma add_create_ok (s : store docs) d de_in e c s' :
  entries_ok s ->
  add_create_docket_entry_transaction docs delete_entry_docs s d de_in = Some (e, c, s') ->
  entries_ok s'.
Proof.
  intros Hok H. unfold add_create_docket_entry_transaction, new_entry in H.
  repeat match type of H with
         | context [match ?x with _ => _ end] => destruct x
         end;
  try discriminate; injection H as _ _ <-;
  first [ repeat apply entries_ok_delete; exact Hok
        | apply entries_ok_save; [apply entries_ok_bump; exact Hok|simpl; lia] ].
Qed.

Lemma merge_unnumbered_shape (s : store docs) des de_in e s' :
  merge_unnumbered_docket_entries docs delete_entry_docs s des de_in = Some (e, s') ->
  exists p, s' = delete_entries docs delete_entry_docs s p.
Proof.
  unfold merge_unnumbered_docket_entries. intros H.
  repeat match type of H with
         | context [match ?x with _ => _ end] => destruct x
         end;
  try discriminate; injection H as _ <-; eexists; reflexivity.
Qed.

(** [get_or_make_docket_entry] returns an entry of the docket with the
    incoming entry number.  An entry it reports as existing is in the
    table before and after; a numbered entry it creates is saved; an
    unnumbered one it creates is not saved: the entry table is left as it
    was and the entry has a fresh key.  It keeps the key invariant and
    every entry of another docket. *)
Theorem get_or_make_docket_entry_spec (s : store docs) d de_in e c s' de' :
  entries_ok s ->
  get_or_make_docket_entry docs rd_descriptions delete_entry_docs normalize_description
    s d de_in = Some (e, c, s', de') ->
  de_docket e = d_pk d /\ entry_number e = document_number de_in
  /\ (c = false -> In e (entries docs s) /\ In e (entries docs s'))
  /\ (c = true -> truthy (document_number de_in) = true -> In e (entries docs s'))
  /\ (c = true -> truthy (document_number de_in) = false ->
        entries docs s' = entries docs s /\ forall x, In x (entries docs s) -> de_pk x < de_pk e)
  /\ entries_ok s' /\ de_pk e < next_pk docs s'
  /\ (forall x, In x (entries docs s) -> de_docket x <> d_pk d -> In x (entries docs s')).
Proof.
  intros Hok H. unfold get_or_make_docket_entry in H.
  destruct (truthy (document_number de_in)) eqn:T.
  - destruct (add_create_docket_entry_transaction docs delete_entry_docs s d de_in)
      as [[[e1 c1] s1]|] eqn:A; [|discriminate].
    injection H as <- <- <- _.
    pose proof (add_create_ok _ _ _ _ _ _ Hok A) as Hok1.
    destruct (add_create_docket_entry_transaction_spec s d de_in e1 c1 s1 (proj2 Hok) A)
      as (A1 & A2 & A3 & A4 & A5).
    split; [exact A2|]. split; [exact A3|].
    split; [intros Hc; split; [apply A4; exact Hc|exact A1]|].
    split; [intros _ _; exact A1|].
    split; [intros _ Hf; discriminate Hf|].
    split; [exact Hok1|]. split; [apply (proj2 Hok1); exact A1|].
    intros x Hx Hne. apply A5; [exact Hx|left; exact Hne].
  - cbv beta iota zeta in H.
    set (de2 := match description de_in with
                | Some x => if truthy (Some x)
                            then set_description de_in (Some (normalize_description x))
                            else de_in
                | None => de_in
                end) in H.
    assert (Hdn : document_number de2 = document_number de_in).
    { unfold de2. destruct (description de_in) as [x|]; [destruct (truthy (Some x))|];
        reflexivity. }
    clearbody de2.
    assert (Hcand : forall x, In x (filter (fun x =>
        (Nat.eqb (de_docket x) (d_pk d)
         && match date_filed de2 with
            | Some f => match de_date_filed x with
                        | Some y => date_eqb y (filed_day f)
                        | None => false
                        end
            | None => match de_date_filed x with None => true | Some _ => false end
            end
         && opt_str_eqb (entry_number x) (document_number de2))
        && Nat.ltb 0 (unnumbered_rows docs rd_descriptions (documents docs s) de2 x))
        (entries docs s)) ->
        In x (entries docs s) /\ de_docket x = d_pk d /\ entry_number x = document_number de_in).
    { intros x Hx. apply filter_In in Hx. destruct Hx as [Hx Hb].
      apply andb_true_iff in Hb. destruct Hb as [Hb _].
      apply andb_true_iff in Hb. destruct Hb as [Hb Hn].
      apply andb_true_iff in Hb. destruct Hb as [Hd _].
      apply Nat.eqb_eq in Hd. apply opt_str_eqb_eq in Hn. rewrite <- Hdn.
      repeat split; assumption. }
    destruct (list_sum _) as [|[|k]].
    + unfold new_entry in H. injection H as <- <- <- _.
      split; [reflexivity|]. split; [exact Hdn|].
      split; [intros Hc; discriminate Hc|].
      split; [intros _ Hf; discriminate Hf|].
      split; [intros _ _; split; [reflexivity|intros x Hx; exact (proj2 Hok x Hx)]|].
      split; [exact (entries_ok_bump s Hok)|]. split; [simpl; lia|].
      intros x Hx _. exact Hx.
    + match type of H with context [match filter ?f ?l with _ => _ end] =>
        destruct (filter f l) as [|e1 l1] eqn:F end; [discriminate|].
      injection H as <- <- <- _.
      destruct (Hcand e1 (or_introl eq_refl)) as (H1 & H2 & H3).
      split; [exact H2|]. split; [exact H3|].
      split; [intros _; split; exact H1|].
      split; [intros Hc; discriminate Hc|]. split; [intros Hc; discriminate Hc|].
      split; [exact Hok|]. split; [apply (proj2 Hok); exact H1|].
      intros x Hx _. exact Hx.
    + match type of H with context [merge_unnumbered_docket_entries _ _ _ ?l _] =>
        pose proof (merge_unnumbered_docket_entries_spec s l de2) as Ms;
        destruct (merge_unnumbered_docket_entries docs delete_entry_docs s l de2)
          as [[w s1]|] eqn:Mg end; [|discriminate].
      injection H as <- <- <- _.
      destruct (merge_unnumbered_shape _ _ _ _ _ Mg) as [p ->].
      destruct Ms as (M1 & _ & _ & _ & M5).
      destruct (Hcand w M1) as (W1 & W2 & W3).
      assert (Hw : In w (entries docs (delete_entries docs delete_entry_docs s p)))
        by (apply M5; [exact W1|left; reflexivity]).
      pose proof (entries_ok_delete s p Hok) as Hok1.
      split; [exact W2|]. split; [exact W3|].
      split; [intros _; split; [exact W1|exact Hw]|].
      split; [intros Hc; discriminate Hc|]. split; [intros Hc; discriminate Hc|].
      split; [exact Hok1|]. split; [apply (proj2 Hok1); exact Hw|].
      intros x Hx Hne. apply M5; [exact Hx|right]. intros Hi.
        apply in_map_iff in Hi. destruct Hi as (y & Ey & Hy).
        destruct (Hcand y Hy) as (Y1 & Y2 & _).
        assert (E : x = y)
          by (apply (PartiesFacts.nodup_map_inj de_pk (entries docs s));
              [apply (proj1 Hok)|exact Hx|exact Y1|symmetry; exact Ey]).
        subst y. contradiction.
Qed.

Lemma update_entry_fields_keys court e de_in :
  de_pk (update_entry_fields to_court_local court e de_in) = de_pk e
  /\ de_docket (update_entry_fields to_court_local court e de_in) = de_docket e.
Proof.
  unfold update_entry_fields.
  destruct (localize_date_and_time to_court_local court (date_filed de_in)).
  split; reflexivity.
Qed.

Lemma entries_loop_frame d flag l : forall (s : store docs) ret known cu ret' known' cu' s' early,
  entries_ok s ->
  entries_loop docs rd_descriptions delete_entry_docs rd_part normalize_description
    to_court_local s d flag l ret known cu = Some (ret', known', cu', s', early) ->
  entries_ok s'
  /\ (forall p, In p ret' -> In p ret \/ de_docket (fst p) = d_pk d)
  /\ (forall x, In x (entries docs s) -> de_docket x <> d_pk d -> In x (entries docs s')).
Proof.
  induction l as [|de_in rest IH]; intros s ret known cu ret' known' cu' s' early Hok H;
    simpl in H.
  - injection H as <- _ _ <- _. split; [exact Hok|]. split.
    + intros p Hp. left. exact Hp.
    + intros x Hx _. exact Hx.
  - destruct (get_or_make_docket_entry docs rd_descriptions delete_entry_docs
                normalize_description s d de_in) as [[[[e0 c] s1] de']|] eqn:G.
    + destruct (get_or_make_docket_entry_spec s d de_in e0 c s1 de' Hok G)
        as (G1 & _ & G3 & G4 & G5 & G6 & G7 & G8).
      destruct (update_entry_fields_keys (d_court_id d) e0 de') as [K1 K2].
      set (e := update_entry_fields to_court_local (d_court_id d) e0 de') in *.
      assert (Hret : forall p, In p (ret ++ [(e, c)]) -> In p ret \/ de_docket (fst p) = d_pk d).
      { intros p Hp. apply in_app_or in Hp. destruct Hp as [Hp|[<-|[]]];
          [left; exact Hp|right; simpl; rewrite K2; exact G1]. }
      destruct (flag && negb c).
      * injection H as <- _ _ <- _. split; [exact G6|]. split; [exact Hret|]. exact G8.
      * destruct (rd_part _ _ _ _ _) as [ds|]; [|discriminate].
        assert (Hok2 : entries_ok (save_entry docs s1 e))
          by (apply entries_ok_save; [exact G6|rewrite K1; exact G7]).
        destruct (IH (mkStore docs (entries docs (save_entry docs s1 e)) ds
                        (last_filing docs (save_entry docs s1 e))
                        (next_pk docs (save_entry docs s1 e)))
                    _ _ _ _ _ _ _ _ Hok2 H) as (I1 & I2 & I3).
        split; [exact I1|]. split.
        -- intros p Hp. destruct (I2 p Hp) as [Hp'|Hp']; [apply Hret; exact Hp'|right; exact Hp'].
        -- intros x Hx Hne. apply I3; [|exact Hne]. simpl.
           apply save_entry_other; [apply G8; assumption|]. rewrite K1. intros E.
           destruct c.
           ++ destruct (truthy (document_number de_in)) eqn:T.
              ** apply Hne. rewrite <- G1.
                 assert (Hx1 : In x (entries docs s1)) by (apply G8; assumption).
                 assert (X : x = e0)
                   by (apply (PartiesFacts.nodup_map_inj de_pk (entries docs s1));
                       [apply (proj1 G6)|exact Hx1|apply G4; reflexivity|exact E]).
                 rewrite X. reflexivity.
              ** destruct (G5 eq_refl eq_refl) as [_ Hlt]. specialize (Hlt x Hx). lia.
           ++ apply Hne. rewrite <- G1.
              destruct (G3 eq_refl) as [_ He0].
              assert (Hx1 : In x (entries docs s1)) by (apply G8; assumption).
              assert (X : x = e0)
                by (apply (PartiesFacts.nodup_map_inj de_pk (entries docs s1));
                    [apply (proj1 G6)|exact Hx1|exact He0|exact E]).
              rewrite X. reflexivity.
    + exact (IH _ _ _ _ _ _ _ _ _ Hok H).
Qed.

(** Every entry [add_docket_entries] returns belongs to the docket; on a
    table with distinct primary keys below the next key it keeps that
    invariant and leaves every entry of another docket in place. *)
Theorem add_docket_entries_docket_frame (s : store docs) d l flag returned cu s' :
  entries_ok s ->
  add_docket_entries docs rd_descriptions delete_entry_docs rd_part
    normalize_description to_court_local s d l flag = Some (returned, cu, s') ->
  (forall p, In p returned -> de_docket (fst p) = d_pk d)
  /\ (forall x, In x (entries docs s) -> de_docket x <> d_pk d -> In x (entries docs s'))
  /\ entries_ok s'.
Proof.
  intros Hok H. unfold add_docket_entries in H.
  destruct (Sequence.calculate_recap_sequence_numbers _ _ _) as [l2|]; [|discriminate].
  destruct (entries_loop docs rd_descriptions delete_entry_docs rd_part normalize_description
              to_court_local s d flag l2 [] [d_date_last_filing d] false)
    as [[[[[ret0 known] cu0] s0] early]|] eqn:E; [|discriminate].
  destruct (entries_loop_frame d flag l2 s [] _ _ _ _ _ _ _ Hok E) as (L1 & L2 & L3).
  assert (Hr : forall p, In p ret0 -> de_docket (fst p) = d_pk d).
  { intros p Hp. destruct (L2 p Hp) as [[]|Hp']. exact Hp'. }
  destruct early.
  - injection H as <- _ <-. split; [exact Hr|]. split; [exact L3|exact L1].
  - destruct (max_known known) as [m|]; injection H as <- _ <-;
      (split; [exact Hr|]; split; [exact L3|exact L1]).
Qed.

End Facts.

(** A document table with nothing in it and a document half that always
    goes through; filing dates are plain dates. *)
Definition nodocs_descriptions (_ : unit) (_ : nat) : list string := [].
Definition nodocs_delete (u : unit) (_ : nat) : unit := u.
Definition nodocs_part (u : unit) (_ : docket) (_ : entry_dict) (_ : docket_entry) (_ : bool)
  : option unit := Some u.
Definition same_description (x : string) : string := x.
Definition utc (_ : string) (d : date) (t : time) : date * time := (d, t).

Definition cx_early : date := mkDate 2020 1 2.
Definition cx_late : date := mkDate 2020 3 4.

(** Docket 7, last filing [cx_early], with entry 1 filed on [cx_early]. *)
Definition cx_docket : docket := mkDocket 7 "cand" (Some cx_early).

Definition cx_entry_store : store unit :=
  mkStore unit [mkDE 1 7 (Some "1") None (Some cx_early) None "Complaint" "" 5]
    tt (Some cx_early) 2.

Definition cx_feed_entry (num : string) : entry_dict :=
  mkEntry (Some num) (Some (FDate cx_late)) (Some "Amended complaint") None None None None.

(** Claim C8, counterexample.  Entry 1 already exists; the feed gives it
    the later date [cx_late].  The call updates the entry to [cx_late] but
    leaves the docket's last filing at [cx_early]. *)
Lemma add_docket_entries_existing_date_cx :
  match add_docket_entries unit nodocs_descriptions nodocs_delete nodocs_part
          same_description utc cx_entry_store cx_docket [cx_feed_entry "1"] false with
  | Some (returned, _, s') =>
      map (fun p => de_date_filed (fst p)) returned = [Some cx_late]
      /\ last_filing unit s' = Some cx_early
  | None => False
  end.
Proof. vm_compute. split; reflexivity. Qed.

(** Claim C8, witness: a new entry 2 filed on [cx_late]. *)
Lemma add_docket_entries_last_filing_witness :
  exists returned cu s',
    add_docket_entries unit nodocs_descriptions nodocs_delete nodocs_part
      same_description utc cx_entry_store cx_docket [cx_feed_entry "2"] false
    = Some (returned, cu, s')
    /\ last_filing unit s' = max_known (Some cx_early :: created_dates returned)
    /\ last_filing unit s' = Some cx_late.
Proof.
  do 3 eexists. split; [reflexivity|]. split; [|reflexivity].
  eapply proj1.
  eapply (add_docket_entries_last_filing unit nodocs_descriptions nodocs_delete nodocs_part
            same_description utc cx_entry_store cx_docket [cx_feed_entry "2"]);
    reflexivity.
Defined.


(** A new entry 2 on docket 7. *)
Lemma add_create_docket_entry_transaction_spec_witness :
  exists e c s',
    add_create_docket_entry_transaction unit nodocs_delete cx_entry_store cx_docket
      (cx_feed_entry "2") = Some (e, c, s')
    /\ In e (entries unit s').
Proof.
  do 3 eexists. split; [vm_compute; reflexivity|].
  eapply proj1.
  apply (add_create_docket_entry_transaction_spec unit nodocs_delete cx_entry_store cx_docket
           (cx_feed_entry "2")).
  - intros x [<-|[]]. simpl. lia.
  - vm_compute. reflexivity.
Defined.


(** An unnumbered minute entry of docket 7. *)
Definition cx_minute_entry : entry_dict :=
  mkEntry None (Some (FDate cx_late)) (Some "Minute entry") None None None None.

Lemma get_or_make_docket_entry_spec_witness :
  exists e c s' de',
    get_or_make_docket_entry unit nodocs_descriptions nodocs_delete same_description
      cx_entry_store cx_docket cx_minute_entry = Some (e, c, s', de')
    /\ de_docket e = d_pk cx_docket.
Proof.
  do 4 eexists. split; [vm_compute; reflexivity|].
  eapply proj1.
  eapply (get_or_make_docket_entry_spec unit nodocs_descriptions nodocs_delete same_description
           cx_entry_store cx_docket cx_minute_entry).
  - split.
    + simpl. repeat (apply NoDup_cons; [simpl; lia|]). apply NoDup_nil.
    + intros x [<-|[]]. simpl. lia.
  - vm_compute. reflexivity.
Defined.

(** Entry 1 of docket 7 and entry 2 of docket 8. *)
Definition cx_two_docket_store : store unit :=
  mkStore unit [mkDE 1 7 (Some "1") None (Some cx_early) None "Complaint" "" 5;
                mkDE 2 8 (Some "1") None (Some cx_early) None "Complaint" "" 6]
    tt (Some cx_early) 3.

Lemma add_docket_entries_docket_frame_witness :
  exists returned cu s',
    add_docket_entries unit nodocs_descriptions nodocs_delete nodocs_part
      same_description utc cx_two_docket_store cx_docket
      [cx_feed_entry "1"; cx_feed_entry "2"; cx_minute_entry] false
    = Some (returned, cu, s')
    /\ (forall p, In p returned -> de_docket (fst p) = d_pk cx_docket).
Proof.
  do 3 eexists. split; [vm_compute; reflexivity|].
  eapply proj1.
  eapply (add_docket_entries_docket_frame unit nodocs_descriptions nodocs_delete nodocs_part
           same_description utc cx_two_docket_store cx_docket
           [cx_feed_entry "1"; cx_feed_entry "2"; cx_minute_entry] false).
  - split.
    + simpl. repeat (apply NoDup_cons; [simpl; lia|]). apply NoDup_nil.
    + intros x [<-|[<-|[]]]; simpl; lia.
  - vm_compute. reflexivity.
Defined.

End EntriesFacts.

(** ** Claims and tags *)
Module ClaimsFacts.
Import Claims.

(** Tables kept as lists: distinct primary keys, all below the next key. *)
Definition table_ok {A} (pk : A -> nat) (l : list A) (n : nat) : Prop :=
  NoDup (map pk l) /\ forall x, In x l -> pk x < n.

(** Every row of [l] is still in [l'], up to [R]. *)
Definition rows_kept {A} (R : A -> A -> Prop) (l l' : list A) : Prop :=
  forall x, In x l -> exists x', In x' l' /\ R x x'.

Lemma claims_upsert_in {A} (pk : A -> nat) l x : In x (upsert pk l x).
Proof.
  unfold upsert. destruct (existsb _ _) eqn:E.
  - apply existsb_exists in E. destruct E as (y & Hy & Ey).
    apply in_map_iff. exists y. rewrite Ey. split; [reflexivity|exact Hy].
  - apply in_or_app. right. left. reflexivity.
Qed.

Lemma claims_upsert_other {A} (pk : A -> nat) l x y :
  In y l -> pk y <> pk x -> In y (upsert pk l x).
Proof.
  intros Hy Hne. unfold upsert. destruct (existsb _ _).
  - apply in_map_iff. exists y. apply Nat.eqb_neq in Hne. rewrite Hne.
    split; [reflexivity|exact Hy].
  - apply in_or_app. left. exact Hy.
Qed.

Lemma claims_upsert_ok {A} (pk : A -> nat) l x n :
  table_ok pk l n -> pk x < n -> table_ok pk (upsert pk l x) n.
Proof.
  intros [Hn Hb] Hx. unfold upsert. destruct (existsb _ _) eqn:E.
  - split.
    + rewrite map_map.
      replace (map (fun y => pk (if Nat.eqb (pk y) (pk x) then x else y)) l)
        with (map pk l); [exact Hn|].
      apply map_ext. intros y. destruct (Nat.eqb (pk y) (pk x)) eqn:F;
        [apply Nat.eqb_eq in F; exact F|reflexivity].
    + intros y Hy. apply in_map_iff in Hy. destruct Hy as (z & <- & Hz).
      destruct (Nat.eqb (pk z) (pk x)); [exact Hx|apply Hb; exact Hz].
  - split.
    + rewrite map_app. simpl. apply NoDup_app; [exact Hn|constructor; [intros []|constructor]|].
      intros k Hk [Ek|[]]. subst k. apply in_map_iff in Hk. destruct Hk as (y & Ey & Hy).
      assert (existsb (fun y => Nat.eqb (pk y) (pk x)) l = true) as T
        by (apply existsb_exists; exists y; split; [exact Hy|apply Nat.eqb_eq; exact Ey]).
      rewrite T in E. discriminate.
    + intros y Hy. apply in_app_or in Hy. destruct Hy as [Hy|[<-|[]]]; [apply Hb; exact Hy|exact Hx].
Qed.

Lemma claims_snoc_ok {A} (pk : A -> nat) l x n :
  table_ok pk l n -> pk x = n -> table_ok pk (l ++ [x]) (S n).
Proof.
  intros [Hn Hb] Hx. split.
  - rewrite map_app. simpl. apply NoDup_app; [exact Hn|constructor; [intros []|constructor]|].
    intros k Hk [Ek|[]]. subst k. apply in_map_iff in Hk. destruct Hk as (y & Ey & Hy).
    specialize (Hb y Hy). lia.
  - intros y Hy. apply in_app_or in Hy. destruct Hy as [Hy|[<-|[]]];
      [specialize (Hb y Hy); lia|lia].
Qed.

(** Saving [x] over a table in which [R] relates the row with its key to
    [x] keeps every row up to [R]. *)
Lemma claims_upsert_kept {A} (pk : A -> nat) (R : A -> A -> Prop) l x :
  (forall y, R y y) -> (forall y, In y l -> pk y = pk x -> R y x) ->
  rows_kept R l (upsert pk l x).
Proof.
  intros Hr Hx y Hy. destruct (Nat.eq_dec (pk y) (pk x)) as [E|E].
  - exists x. split; [apply claims_upsert_in|apply Hx; assumption].
  - exists y. split; [apply claims_upsert_other; assumption|apply Hr].
Qed.

Lemma claims_rows_kept_trans {A} (R : A -> A -> Prop) l1 l2 l3 :
  (forall x y z, R x y -> R y z -> R x z) ->
  rows_kept R l1 l2 -> rows_kept R l2 l3 -> rows_kept R l1 l3.
Proof.
  intros T H12 H23 x Hx. destruct (H12 x Hx) as (y & Hy & Rxy).
  destruct (H23 y Hy) as (z & Hz & Ryz). exists z. split; [exact Hz|eapply T; eassumption].
Qed.

Lemma claims_rows_kept_refl {A} (R : A -> A -> Prop) l :
  (forall y, R y y) -> rows_kept R l l.
Proof. intros Hr x Hx. exists x. split; [exact Hx|apply Hr]. Qed.

Lemma claims_rows_kept_snoc {A} (R : A -> A -> Prop) l x :
  (forall y, R y y) -> rows_kept R l (l ++ [x]).
Proof. intros Hr y Hy. exists y. split; [apply in_or_app; left; exact Hy|apply Hr]. Qed.

Lemma py_or_truthy a b : truthy b = true -> truthy (py_or a b) = true.
Proof. unfold py_or. destruct (truthy a) eqn:E; intros; assumption. Qed.

Lemma claims_django_got {A} (f : A -> bool) l r :
  django_get f l = Got r -> In r l /\ f r = true /\ filter f l = [r].
Proof.
  unfold django_get. destruct (filter f l) as [|x [|y t]] eqn:F; try discriminate.
  intros H. injection H as <-.
  assert (Hx : In x (filter f l)) by (rewrite F; left; reflexivity).
  apply filter_In in Hx. destruct Hx as [Hx Fx]. split; [exact Hx|split; [exact Fx|reflexivity]].
Qed.

Lemma claims_django_none {A} (f : A -> bool) l :
  django_get f l = DoesNotExist -> filter f l = [].
Proof.
  unfold django_get. destruct (filter f l) as [|x [|y t]]; try discriminate. reflexivity.
Qed.

(** The sixteen fields of a claim that the merge writes. *)
Definition claim_field_list : list (claim_data -> option string) :=
  [date_claim_modified; date_original_entered; date_original_filed;
   date_last_amendment_entered; date_last_amendment_filed; creditor_details;
   creditor_id; status; entered_by; filed_by; amount_claimed; unsecured_claimed;
   secured_claimed; priority_claimed; description; remarks].

(** A claim row [c'] is row [c] kept: same key, docket and claim number,
    and each of the sixteen fields truthy in [c] is truthy in [c']. *)
Definition claim_kept (c c' : claim) : Prop :=
  claim_pk c' = claim_pk c /\ claim_docket c' = claim_docket c
  /\ claim_number c' = claim_number c
  /\ forall f, In f claim_field_list ->
       truthy (f (claim_fields c)) = true -> truthy (f (claim_fields c')) = true.

(** A history row [r'] is row [r] kept: same key, claim, type and lookup
    fields, and a truthy [pacer_dm_id] or [description] stays truthy. *)
Definition history_kept (r r' : claim_history) : Prop :=
  ch_pk r' = ch_pk r /\ ch_claim r' = ch_claim r
  /\ ch_claim_document_type r' = ch_claim_document_type r
  /\ ch_date_filed r' = ch_date_filed r /\ ch_pacer_case_id r' = ch_pacer_case_id r
  /\ ch_document_number r' = ch_document_number r
  /\ ch_pacer_doc_id r' = ch_pacer_doc_id r /\ ch_claim_doc_id r' = ch_claim_doc_id r
  /\ ch_attachment_number r' = ch_attachment_number r
  /\ (truthy (ch_pacer_dm_id r) = true -> truthy (ch_pacer_dm_id r') = true)
  /\ (truthy (ch_description r) = true -> truthy (ch_description r') = true).

Lemma claim_kept_refl c : claim_kept c c.
Proof. repeat split; auto. Qed.

Lemma claim_kept_trans a b c : claim_kept a b -> claim_kept b c -> claim_kept a c.
Proof.
  intros (A1 & A2 & A3 & A4) (B1 & B2 & B3 & B4).
  split; [congruence|]. split; [congruence|]. split; [congruence|].
  intros f Hf H. apply B4; [exact Hf|apply A4; assumption].
Qed.

Lemma history_kept_refl r : history_kept r r.
Proof. repeat split; auto. Qed.

Lemma history_kept_trans a b c : history_kept a b -> history_kept b c -> history_kept a c.
Proof.
  intros (A1 & A2 & A3 & A4 & A5 & A6 & A7 & A8 & A9 & A10 & A11)
         (B1 & B2 & B3 & B4 & B5 & B6 & B7 & B8 & B9 & B10 & B11).
  repeat (split; [congruence|]). split; auto.
Qed.

Lemma merge_claim_data_kept nc old f :
  In f claim_field_list -> truthy (f old) = true ->
  truthy (f (merge_claim_data nc old)) = true.
Proof.
  intros Hf. simpl in Hf.
  repeat (destruct Hf as [<-|Hf]; [apply py_or_truthy|]). destruct Hf.
Qed.

Section Facts.

Variable links : Type.
Variable tag_object : tag -> claim -> links -> links.
Variable claim_default : claim_data.
Variable history_default : claim_history.

(** *** Tags *)

Lemma tag_get_or_create_spec (s : store links) n t s1 :
  tag_get_or_create links s n = Some (t, s1) ->
  tag_name t = n
  /\ filter (fun u => String.eqb (tag_name u) n) (tags links s1) = [t]
  /\ (exists extra, tags links s1 = tags links s ++ extra)
  /\ (forall m u, filter (fun v => String.eqb (tag_name v) m) (tags links s) = [u] ->
        filter (fun v => String.eqb (tag_name v) m) (tags links s1) = [u])
  /\ claims links s1 = claims links s /\ histories links s1 = histories links s
  /\ next_claim links s1 = next_claim links s
  /\ next_history links s1 = next_history links s.
Proof.
  unfold tag_get_or_create.
  destruct (django_get _ _) as [| |t0] eqn:G; intros H; try discriminate.
  - injection H as <- <-. apply claims_django_none in G. simpl.
    split; [reflexivity|]. split.
    + rewrite filter_app, G. simpl. rewrite String.eqb_refl. reflexivity.
    + split; [eexists; reflexivity|]. split; [|repeat split].
      intros m u Hu. rewrite filter_app, Hu. simpl.
      destruct (String.eqb n m) eqn:E; [|reflexivity].
      apply String.eqb_eq in E. subst m. rewrite G in Hu. discriminate.
  - injection H as <- <-. destruct (claims_django_got _ _ _ G) as (_ & F & Fl).
    apply String.eqb_eq in F. split; [exact F|]. split; [exact Fl|].
    split; [exists []; rewrite app_nil_r; reflexivity|]. split; [|repeat split].
    intros m u Hu. exact Hu.
Qed.

Lemma get_or_create_tags_spec names : forall (s : store links) ts s1,
  get_or_create_tags links names s = Some (ts, s1) ->
  map tag_name ts = names
  /\ (forall t, In t ts ->
        filter (fun u => String.eqb (tag_name u) (tag_name t)) (tags links s1) = [t])
  /\ (exists extra, tags links s1 = tags links s ++ extra)
  /\ (forall m u, filter (fun v => String.eqb (tag_name v) m) (tags links s) = [u] ->
        filter (fun v => String.eqb (tag_name v) m) (tags links s1) = [u])
  /\ claims links s1 = claims links s /\ histories links s1 = histories links s
  /\ next_claim links s1 = next_claim links s
  /\ next_history links s1 = next_history links s.
Proof.
  induction names as [|n rest IH]; simpl; intros s ts s1 H.
  - injection H as <- <-. split; [reflexivity|]. split; [intros t []|].
    split; [exists []; rewrite app_nil_r; reflexivity|]. split; [|repeat split].
    intros m u Hu. exact Hu.
  - destruct (tag_get_or_create links s n) as [[t s2]|] eqn:G; [|discriminate].
    destruct (get_or_create_tags links rest s2) as [[ts2 s3]|] eqn:G2; [|discriminate].
    injection H as <- <-.
    destruct (tag_get_or_create_spec s n t s2 G) as (T1 & T2 & (x1 & T3) & T4 & T5 & T6 & T7 & T8).
    destruct (IH s2 ts2 s3 G2) as (I1 & I2 & (x2 & I3) & I4 & I5 & I6 & I7 & I8).
    split; [simpl; rewrite T1, I1; reflexivity|]. split.
    + intros u [<-|Hu]; [|apply I2; exact Hu]. apply I4. rewrite T1. exact T2.
    + split; [exists (x1 ++ x2); rewrite I3, T3, app_assoc; reflexivity|].
      split; [intros m u Hu; apply I4, T4, Hu|].
      split; [congruence|]. split; [congruence|]. split; congruence.
Qed.

Lemma tag_all_frame_spec (s : store links) tn objs ts s1 :
  add_tags_to_objs links tag_object tn objs s = Some (ts, s1) ->
  map tag_name ts = match tn with Some names => names | None => [] end
  /\ (forall t, In t ts ->
        filter (fun u => String.eqb (tag_name u) (tag_name t)) (tags links s1) = [t])
  /\ (exists extra, tags links s1 = tags links s ++ extra)
  /\ (forall m u, filter (fun v => String.eqb (tag_name v) m) (tags links s) = [u] ->
        filter (fun v => String.eqb (tag_name v) m) (tags links s1) = [u])
  /\ claims links s1 = claims links s /\ histories links s1 = histories links s
  /\ next_claim links s1 = next_claim links s
  /\ next_history links s1 = next_history links s.
Proof.
  unfold add_tags_to_objs. destruct tn as [names|].
  - destruct (get_or_create_tags links names s) as [[ts2 s2]|] eqn:G; [|discriminate].
    intros H. injection H as <- <-. exact (get_or_create_tags_spec names s ts2 s2 G).
  - intros H. injection H as <- <-. split; [reflexivity|]. split; [intros t []|].
    split; [exists []; rewrite app_nil_r; reflexivity|]. split; [|repeat split].
    intros m u Hu. exact Hu.
Qed.


(** *** Claim history *)

Lemma claims_nodup_inj {A} (f : A -> nat) l x y :
  NoDup (map f l) -> In x l -> In y l -> f x = f y -> x = y.
Proof.
  induction l as [|a l IH]; simpl; intros Hn Hx Hy E; [contradiction|].
  inversion Hn as [|? ? Hni Hn']; subst.
  destruct Hx as [<-|Hx], Hy as [<-|Hy]; try reflexivity.
  - exfalso. apply Hni. rewrite E. apply in_map. exact Hy.
  - exfalso. apply Hni. rewrite <- E. apply in_map. exact Hx.
  - apply IH; assumption.
Qed.

Lemma claims_opt_str_eqb_some a x : opt_str_eqb a (Some x) = true -> a = Some x.
Proof.
  destruct a; simpl; [intros H; apply String.eqb_eq in H; subst; reflexivity|discriminate].
Qed.

Lemma claims_opt_str_eqb_eq a b : opt_str_eqb a b = true -> a = b.
Proof.
  destruct a, b; simpl; try discriminate; [|reflexivity].
  intros H. apply String.eqb_eq in H. subst. reflexivity.
Qed.

Lemma history_get_or_create_save (s : store links) p fresh r s1 f :
  history_get_or_create links s p fresh = Some (r, s1) ->
  ch_pk (fresh (next_history links s)) = next_history links s ->
  history_kept r (f r) ->
  claims links (save_history links s1 (f r)) = claims links s
  /\ next_claim links (save_history links s1 (f r)) = next_claim links s
  /\ In (f r) (histories links (save_history links s1 (f r)))
  /\ (p r = true \/ r = fresh (next_history links s))
  /\ (table_ok ch_pk (histories links s) (next_history links s) ->
      table_ok ch_pk (histories links (save_history links s1 (f r)))
        (next_history links (save_history links s1 (f r)))
      /\ rows_kept history_kept (histories links s)
           (histories links (save_history links s1 (f r)))).
Proof.
  intros H Hpk Hk. assert (Hk1 : ch_pk (f r) = ch_pk r) by apply Hk.
  unfold history_get_or_create in H.
  destruct (django_get p (histories links s)) as [| |r0] eqn:G; try discriminate.
  - injection H as <- <-. simpl.
    split; [reflexivity|]. split; [reflexivity|].
    split; [apply claims_upsert_in|]. split; [right; reflexivity|].
    intros Hok. assert (Hok1 := claims_snoc_ok ch_pk _ _ _ Hok Hpk). split.
    + apply claims_upsert_ok; [exact Hok1|]. rewrite Hk1, Hpk. lia.
    + eapply claims_rows_kept_trans; [exact history_kept_trans| |].
      * apply claims_rows_kept_snoc. exact history_kept_refl.
      * apply claims_upsert_kept; [exact history_kept_refl|].
        intros y Hy E. apply in_app_or in Hy. destruct Hy as [Hy|[<-|[]]].
        -- exfalso. destruct Hok as [_ Hb]. specialize (Hb y Hy). rewrite E, Hk1, Hpk in Hb. lia.
        -- exact Hk.
  - injection H as -> <-. destruct (claims_django_got _ _ _ G) as (Hr & Pr & _).
    unfold save_history, with_histories. simpl.
    split; [reflexivity|]. split; [reflexivity|].
    split; [apply claims_upsert_in|]. split; [left; exact Pr|].
    intros Hok. split.
    + apply claims_upsert_ok; [exact Hok|]. rewrite Hk1. apply (proj2 Hok). exact Hr.
    + apply claims_upsert_kept; [exact history_kept_refl|].
      intros y Hy E. rewrite Hk1 in E.
      rewrite (claims_nodup_inj ch_pk _ y r (proj1 Hok) Hy Hr E). exact Hk.
Qed.

Ltac split_andb :=
  repeat match goal with
  | H : _ && _ = true |- _ => apply andb_prop in H; destruct H
  end.

Lemma add_claim_history_entry_spec (s : store links) h c s' :
  add_claim_history_entry links history_default s h c = Some s' ->
  claims links s' = claims links s /\ next_claim links s' = next_claim links s
  /\ (table_ok ch_pk (histories links s) (next_history links s) ->
      table_ok ch_pk (histories links s') (next_history links s')
      /\ rows_kept history_kept (histories links s) (histories links s'))
  /\ (forall n, dict_index "document_number" h = Some (Some n) ->
      exists r, In r (histories links s') /\ ch_claim r = claim_pk c
        /\ ch_document_number r = Some n).
Proof.
  unfold add_claim_history_entry.
  destruct (dict_index "document_number" h) as [[num|]|] eqn:Dn; intros H; [| |discriminate].
  - destruct (dict_index "type" h) as [ty|]; [|discriminate].
    destruct (dict_index "date_filed" h) as [df|]; [|discriminate].
    cbv zeta in H.
    destruct (opt_str_eqb ty (Some "docket_entry")).
    + destruct (history_get_or_create _ _ _ _) as [[r s1]|] eqn:G; [|discriminate].
      injection H as <-.
      destruct (history_get_or_create_save s _ _ r s1
                  (fun x => set_history_fields x
                              (py_or (dict_get "pacer_dm_id" h) (ch_pacer_dm_id x))
                              (dict_get "pacer_seq_no" h)
                              (py_or (dict_get "description" h) (ch_description x)))
                  G eq_refl)
        as (S1 & S2 & S3 & S4 & S5).
      { unfold history_kept. simpl. repeat (split; [reflexivity|]).
        split; apply py_or_truthy. }
      split; [exact S1|]. split; [exact S2|]. split; [exact S5|].
      intros n E. injection E as <-. eexists. split; [exact S3|]. simpl.
      destruct S4 as [P| ->]; [|split; reflexivity].
      split_andb. split;
        [ match goal with Hc : Nat.eqb (ch_claim _) _ = true |- _ => apply Nat.eqb_eq; exact Hc end
        | match goal with Hd : opt_str_eqb (ch_document_number _) _ = true |- _ =>
            apply claims_opt_str_eqb_some; exact Hd end ].
    + destruct (dict_index "id" h) as [cid|]; [|discriminate].
      destruct (dict_index "attachment_number" h) as [an|]; [|discriminate].
      destruct (history_get_or_create _ _ _ _) as [[r s1]|] eqn:G; [|discriminate].
      injection H as <-.
      destruct (history_get_or_create_save s _ _ r s1
                  (fun x => set_history_fields x (ch_pacer_dm_id x) (ch_pacer_seq_no x)
                              (py_or (dict_get "description" h) (ch_description x)))
                  G eq_refl)
        as (S1 & S2 & S3 & S4 & S5).
      { unfold history_kept. simpl. repeat (split; [reflexivity|]).
        split; [auto|apply py_or_truthy]. }
      split; [exact S1|]. split; [exact S2|]. split; [exact S5|].
      intros n E. injection E as <-. eexists. split; [exact S3|]. simpl.
      destruct S4 as [P| ->]; [|split; reflexivity].
      split_andb. split;
        [ match goal with Hc : Nat.eqb (ch_claim _) _ = true |- _ => apply Nat.eqb_eq; exact Hc end
        | match goal with Hd : opt_str_eqb (ch_document_number _) _ = true |- _ =>
            apply claims_opt_str_eqb_some; exact Hd end ].
  - injection H as <-. split; [reflexivity|]. split; [reflexivity|]. split.
    + intros Hok. split; [exact Hok|apply claims_rows_kept_refl; exact history_kept_refl].
    + intros n E. discriminate.
Qed.


Lemma add_history_entries_spec c hs : forall (s : store links) s',
  add_history_entries links history_default c hs s = Some s' ->
  table_ok ch_pk (histories links s) (next_history links s) ->
  claims links s' = claims links s /\ next_claim links s' = next_claim links s
  /\ table_ok ch_pk (histories links s') (next_history links s')
  /\ rows_kept history_kept (histories links s) (histories links s')
  /\ (forall h n, In h hs -> dict_index "document_number" h = Some (Some n) ->
      exists r, In r (histories links s') /\ ch_claim r = claim_pk c
        /\ ch_document_number r = Some n).
Proof.
  induction hs as [|h rest IH]; simpl; intros s s' H Hok.
  - injection H as <-. split; [reflexivity|]. split; [reflexivity|].
    split; [exact Hok|]. split; [apply claims_rows_kept_refl; exact history_kept_refl|].
    intros h n [].
  - destruct (add_claim_history_entry links history_default s h c) as [s1|] eqn:G;
      [|discriminate].
    destruct (add_claim_history_entry_spec s h c s1 G) as (A1 & A2 & A3 & A4).
    destruct (A3 Hok) as [Hok1 K1].
    destruct (IH s1 s' H Hok1) as (B1 & B2 & B3 & B4 & B5).
    split; [congruence|]. split; [congruence|]. split; [exact B3|].
    split; [eapply claims_rows_kept_trans; [exact history_kept_trans|exact K1|exact B4]|].
    intros h' n [<-|Hh] E.
    + destruct (A4 n E) as (r & Hr & R1 & R2).
      destruct (B4 r Hr) as (r' & Hr' & (_ & K2 & _ & _ & _ & K6 & _)).
      exists r'. split; [exact Hr'|]. split; congruence.
    + exact (B5 h' n Hh E).
Qed.

(** *** Claims *)

Lemma claim_step_spec (s : store links) d num c0 s1 nc :
  claim_get_or_create links claim_default s d num = Some (c0, s1) ->
  table_ok claim_pk (claims links s) (next_claim links s) ->
  let c := mkClaim (claim_pk c0) (claim_docket c0) (claim_number c0)
             (merge_claim_data nc (claim_fields c0)) in
  table_ok claim_pk (claims links (save_claim links s1 c))
    (next_claim links (save_claim links s1 c))
  /\ rows_kept claim_kept (claims links s) (claims links (save_claim links s1 c))
  /\ (forall x, In x (claims links s) -> claim_docket x <> d ->
        In x (claims links (save_claim links s1 c)))
  /\ In c (claims links (save_claim links s1 c)) /\ claim_docket c = d
  /\ claim_number c = num
  /\ histories links (save_claim links s1 c) = histories links s
  /\ next_history links (save_claim links s1 c) = next_history links s.
Proof.
  intros H Hok c.
  assert (Hc : claim_kept c0 c).
  { split; [reflexivity|]. split; [reflexivity|]. split; [reflexivity|].
    intros f Hf. apply merge_claim_data_kept. exact Hf. }
  unfold claim_get_or_create in H.
  destruct (django_get _ (claims links s)) as [| |r0] eqn:G; try discriminate.
  - injection H as <- <-. apply claims_django_none in G.
    unfold save_claim. simpl.
    assert (Hok1 : table_ok claim_pk (claims links s ++ [mkClaim (next_claim links s) d num claim_default])
                     (S (next_claim links s)))
      by (apply claims_snoc_ok; [exact Hok|reflexivity]).
    split; [apply claims_upsert_ok; [exact Hok1|simpl; lia]|].
    split.
    + eapply claims_rows_kept_trans; [exact claim_kept_trans| |].
      * apply claims_rows_kept_snoc. exact claim_kept_refl.
      * apply claims_upsert_kept; [exact claim_kept_refl|].
        intros y Hy E. apply in_app_or in Hy. destruct Hy as [Hy|[<-|[]]]; [|exact Hc].
        exfalso. destruct Hok as [_ Hb]. specialize (Hb y Hy). simpl in E. lia.
    + split.
      * intros x Hx _. apply claims_upsert_other; [apply in_or_app; left; exact Hx|].
        destruct Hok as [_ Hb]. specialize (Hb x Hx). simpl. lia.
      * split; [apply claims_upsert_in|]. split; [reflexivity|]. split; [reflexivity|].
        split; reflexivity.
  - injection H as E1 E2. subst r0 s1. destruct (claims_django_got _ _ _ G) as (Hr & Pr & _).
    apply andb_prop in Pr. destruct Pr as [P1 P2].
    apply Nat.eqb_eq in P1. apply claims_opt_str_eqb_eq in P2.
    unfold save_claim. simpl.
    split; [apply claims_upsert_ok; [exact Hok|simpl; apply (proj2 Hok); exact Hr]|].
    split.
    + apply claims_upsert_kept; [exact claim_kept_refl|].
      intros y Hy E. simpl in E.
      rewrite (claims_nodup_inj claim_pk _ y c0 (proj1 Hok) Hy Hr E). exact Hc.
    + split.
      * intros x Hx Hne. apply claims_upsert_other; [exact Hx|]. simpl. intros E.
        apply Hne. rewrite (claims_nodup_inj claim_pk _ x c0 (proj1 Hok) Hx Hr E).
        exact P1.
      * split; [apply claims_upsert_in|]. split; [exact P1|]. split; [exact P2|].
        split; reflexivity.
Qed.

(** The properties of the loop, for a table of claims and a table of
    history rows with distinct keys below the next key. *)
Definition loop_result (s s' : store links) (d : nat) (cs : list claim_in) : Prop :=
  table_ok claim_pk (claims links s') (next_claim links s')
  /\ table_ok ch_pk (histories links s') (next_history links s')
  /\ rows_kept claim_kept (claims links s) (claims links s')
  /\ (forall x, In x (claims links s) -> claim_docket x <> d -> In x (claims links s'))
  /\ rows_kept history_kept (histories links s) (histories links s')
  /\ (forall nc, In nc cs -> exists num c,
        dict_index "claim_number" (claim_dict nc) = Some num
        /\ In c (claims links s') /\ claim_docket c = d /\ claim_number c = num
        /\ forall hs h n, claim_history_in nc = Some hs -> In h hs ->
             dict_index "document_number" h = Some (Some n) ->
             exists r, In r (histories links s') /\ ch_claim r = claim_pk c
               /\ ch_document_number r = Some n).

Lemma add_claims_loop_spec d tn cs : forall (s : store links) s',
  add_claims_loop links tag_object claim_default history_default d tn cs s = Some s' ->
  table_ok claim_pk (claims links s) (next_claim links s) ->
  table_ok ch_pk (histories links s) (next_history links s) ->
  loop_result s s' d cs.
Proof.
  induction cs as [|nc rest IH]; simpl; intros s s' H Hc Hh.
  - injection H as <-. split; [exact Hc|]. split; [exact Hh|].
    split; [apply claims_rows_kept_refl; exact claim_kept_refl|].
    split; [intros x Hx _; exact Hx|].
    split; [apply claims_rows_kept_refl; exact history_kept_refl|].
    intros nc [].
  - destruct (dict_index "claim_number" (claim_dict nc)) as [num|] eqn:Dn; [|discriminate].
    destruct (claim_get_or_create links claim_default s d num) as [[c0 s1]|] eqn:G;
      [|discriminate].
    destruct (claim_step_spec s d num c0 s1 (claim_dict nc) G Hc)
      as (C1 & C2 & C3 & C4 & C5 & C6 & C7 & C8).
    set (c := mkClaim (claim_pk c0) (claim_docket c0) (claim_number c0)
                (merge_claim_data (claim_dict nc) (claim_fields c0))) in *.
    destruct (add_tags_to_objs links tag_object tn [c] (save_claim links s1 c))
      as [[ts s3]|] eqn:T; [|discriminate].
    destruct (tag_all_frame_spec _ tn [c] ts s3 T) as (_ & _ & _ & _ & T5 & T6 & T7 & T8).
    destruct (claim_history_in nc) as [hs|] eqn:Hhs; [|discriminate].
    destruct (add_history_entries links history_default c hs s3) as [s4|] eqn:A;
      [|discriminate].
    assert (Hh3 : table_ok ch_pk (histories links s3) (next_history links s3))
      by (rewrite T6, T8, C7, C8; exact Hh).
    destruct (add_history_entries_spec c hs s3 s4 A Hh3) as (A1 & A2 & A3 & A4 & A5).
    assert (Hc4 : table_ok claim_pk (claims links s4) (next_claim links s4))
      by (rewrite A1, A2, T5, T7; exact C1).
    destruct (IH s4 s' H Hc4 A3) as (I1 & I2 & I3 & I4 & I5 & I6).
    split; [exact I1|]. split; [exact I2|].
    split.
    { eapply claims_rows_kept_trans; [exact claim_kept_trans|exact C2|].
      rewrite <- T5, <- A1. exact I3. }
    split.
    { intros x Hx Hne. apply I4; [|exact Hne]. rewrite A1, T5. apply C3; assumption. }
    split.
    { eapply claims_rows_kept_trans; [exact history_kept_trans| |exact I5].
      rewrite A1 in *. rewrite <- C7, <- T6. exact A4. }
    intros nc' [<-|Hnc]; [|exact (I6 nc' Hnc)].
    assert (Hc4' : In c (claims links s4)) by (rewrite A1, T5; exact C4).
    destruct (I3 c Hc4') as (c' & Hc' & (K1 & K2 & K3 & _)).
    exists num, c'. split; [exact Dn|]. split; [exact Hc'|].
    split; [congruence|]. split; [congruence|].
    intros hs' h n E Hh' Dh. rewrite Hhs in E. injection E as <-.
    destruct (A5 h n Hh' Dh) as (r & Hr & R1 & R2).
    destruct (I5 r Hr) as (r' & Hr' & (_ & L2 & _ & _ & _ & L6 & _)).
    exists r'. split; [exact Hr'|]. split; congruence.
Qed.


Lemma get_or_create_tags_found ts : forall (s : store links),
  (forall t, In t ts ->
     filter (fun u => String.eqb (tag_name u) (tag_name t)) (tags links s) = [t]) ->
  get_or_create_tags links (map tag_name ts) s = Some (ts, s).
Proof.
  induction ts as [|t rest IH]; simpl; intros s H; [reflexivity|].
  unfold tag_get_or_create, django_get. rewrite (H t (or_introl eq_refl)).
  rewrite IH; [reflexivity|]. intros u Hu. apply H. right. exact Hu.
Qed.

Lemma claims_filter_name_nodup (l : list tag) n :
  NoDup (map tag_name l) ->
  filter (fun u => String.eqb (tag_name u) n) l = []
  \/ exists t, filter (fun u => String.eqb (tag_name u) n) l = [t].
Proof.
  induction l as [|a l IH]; simpl; intros Hn; [left; reflexivity|].
  inversion Hn as [|? ? Ha Hn']; subst.
  destruct (String.eqb (tag_name a) n) eqn:E.
  - right. exists a. destruct (IH Hn') as [-> | (t & Ht)]; [reflexivity|].
    exfalso. apply Ha. assert (Hin : In t (filter (fun u => String.eqb (tag_name u) n) l))
      by (rewrite Ht; left; reflexivity).
    apply filter_In in Hin. destruct Hin as [Hin Et].
    apply String.eqb_eq in E, Et. rewrite E, <- Et. apply in_map. exact Hin.
  - apply IH. exact Hn'.
Qed.

Lemma get_or_create_tags_total names : forall (s : store links),
  NoDup (map tag_name (tags links s)) ->
  exists ts s', get_or_create_tags links names s = Some (ts, s')
    /\ NoDup (map tag_name (tags links s')).
Proof.
  induction names as [|n rest IH]; simpl; intros s Hn.
  - exists [], s. split; [reflexivity|exact Hn].
  - unfold tag_get_or_create, django_get.
    destruct (claims_filter_name_nodup (tags links s) n Hn) as [E | (t & E)]; rewrite E.
    + simpl. destruct (IH (mkStore links (tags links s ++ [mkTag (next_tag links s) n])
                             (claims links s) (histories links s) (tag_links links s)
                             (S (next_tag links s)) (next_claim links s)
                             (next_history links s)))
        as (ts & s' & G & Hn').
      { simpl. rewrite map_app. simpl. apply NoDup_app; [exact Hn|constructor; [intros []|constructor]|].
        intros k Hk [Ek|[]]. simpl in Ek. subst k. apply in_map_iff in Hk.
        destruct Hk as (u & Eu & Hu).
        assert (Hin : In u (filter (fun u => String.eqb (tag_name u) n) (tags links s)))
          by (apply filter_In; split; [exact Hu|apply String.eqb_eq; exact Eu]).
        rewrite E in Hin. destruct Hin. }
      rewrite G. exists (mkTag (next_tag links s) n :: ts), s'. split; [reflexivity|exact Hn'].
    + destruct (IH s Hn) as (ts & s' & G & Hn'). rewrite G.
      exists (t :: ts), s'. split; [reflexivity|exact Hn'].
Qed.

(** [add_tags_to_objs] returns one tag per requested name, in order (none
    for [tag_names=None]); afterwards each returned tag is the only tag
    with its name.  The tag table only grows at its end, and the claims
    and claim history are untouched. *)
Theorem add_tags_to_objs_names (s : store links) tn objs ts s' :
  add_tags_to_objs links tag_object tn objs s = Some (ts, s') ->
  map tag_name ts = match tn with Some names => names | None => [] end
  /\ (forall t, In t ts ->
        filter (fun u => String.eqb (tag_name u) (tag_name t)) (tags links s') = [t])
  /\ (exists extra, tags links s' = tags links s ++ extra)
  /\ claims links s' = claims links s /\ histories links s' = histories links s.
Proof.
  intros H. destruct (tag_all_frame_spec s tn objs ts s' H) as (A1 & A2 & A3 & _ & A5 & A6 & _).
  split; [exact A1|]. split; [exact A2|]. split; [exact A3|]. split; assumption.
Qed.

(** Calling [add_tags_to_objs] again with the same names, on any objects,
    returns the same tags and creates no tag. *)
Theorem add_tags_to_objs_again (s : store links) tn objs objs' ts s1 :
  add_tags_to_objs links tag_object tn objs s = Some (ts, s1) ->
  exists s2, add_tags_to_objs links tag_object tn objs' s1 = Some (ts, s2)
    /\ tags links s2 = tags links s1.
Proof.
  intros H. destruct (tag_all_frame_spec s tn objs ts s1 H) as (A1 & A2 & _).
  destruct tn as [names|].
  - unfold add_tags_to_objs. rewrite <- A1, (get_or_create_tags_found ts s1 A2).
    eexists. split; reflexivity.
  - simpl in A1. destruct ts; [|discriminate]. exists s1. split; reflexivity.
Qed.

(** On a tag table whose names are distinct, [add_tags_to_objs] never
    fails, and the names stay distinct. *)
Theorem add_tags_to_objs_total (s : store links) tn objs :
  NoDup (map tag_name (tags links s)) ->
  exists ts s', add_tags_to_objs links tag_object tn objs s = Some (ts, s')
    /\ NoDup (map tag_name (tags links s')).
Proof.
  intros Hn. destruct tn as [names|].
  - destruct (get_or_create_tags_total names s Hn) as (ts & s' & G & Hn').
    unfold add_tags_to_objs. rewrite G. eexists _, _. split; [reflexivity|exact Hn'].
  - exists [], s. split; [reflexivity|exact Hn].
Qed.

(** On tables with distinct primary keys below the next key,
    [add_claims_to_docket] keeps every claim of another docket as it is.
    Every claim row and every claim history row stays, with its key,
    its links and its lookup fields unchanged, and no truthy field it
    merges is cleared.  The key invariant is kept. *)
Theorem add_claims_to_docket_frame (s : store links) d cs tn s' :
  table_ok claim_pk (claims links s) (next_claim links s) ->
  table_ok ch_pk (histories links s) (next_history links s) ->
  add_claims_to_docket links tag_object claim_default history_default s d cs tn = Some s' ->
  (forall x, In x (claims links s) -> claim_docket x <> d -> In x (claims links s'))
  /\ rows_kept claim_kept (claims links s) (claims links s')
  /\ rows_kept history_kept (histories links s) (histories links s')
  /\ table_ok claim_pk (claims links s') (next_claim links s')
  /\ table_ok ch_pk (histories links s') (next_history links s').
Proof.
  intros Hc Hh H.
  destruct (add_claims_loop_spec d tn cs s s' H Hc Hh) as (L1 & L2 & L3 & L4 & L5 & _).
  split; [exact L4|]. split; [exact L3|]. split; [exact L5|]. split; assumption.
Qed.

(** On tables with distinct primary keys below the next key, after
    [add_claims_to_docket] every incoming claim has a row on the docket
    with its claim number.  Each numbered history entry of the claim has
    a history row on that claim with its document number. *)
Theorem add_claims_to_docket_links (s : store links) d cs tn s' :
  table_ok claim_pk (claims links s) (next_claim links s) ->
  table_ok ch_pk (histories links s) (next_history links s) ->
  add_claims_to_docket links tag_object claim_default history_default s d cs tn = Some s' ->
  forall nc, In nc cs -> exists num c,
    dict_index "claim_number" (claim_dict nc) = Some num
    /\ In c (claims links s') /\ claim_docket c = d /\ claim_number c = num
    /\ forall hs h n, claim_history_in nc = Some hs -> In h hs ->
         dict_index "document_number" h = Some (Some n) ->
         exists r, In r (histories links s') /\ ch_claim r = claim_pk c
           /\ ch_document_number r = Some n.
Proof.
  intros Hc Hh H.
  destruct (add_claims_loop_spec d tn cs s s' H Hc Hh) as (_ & _ & _ & _ & _ & L6).
  exact L6.
Qed.

End Facts.

(** A link table of (tag, claim) pairs; defaults all [None]. *)
Definition cx_links := list (nat * nat).
Definition cx_tag_object (t : tag) (c : claim) (l : cx_links) : cx_links :=
  (tag_pk t, claim_pk c) :: l.
Definition cx_claim_default : claim_data :=
  mkClaimData None None None None None None None None None None None None None
    None None None.
Definition cx_history_default : claim_history :=
  mkHistory 0 0 DOCKET_ENTRY None None None None None None None None None.

(** Claim 1 of docket 7 (creditor "Acme"), with one history row, and
    claim 1 of docket 8; tag "t". *)
Definition cx_claims_store : store cx_links :=
  mkStore cx_links [mkTag 1 "t"]
    [mkClaim 1 7 (Some "1")
       (mkClaimData None None None None None (Some "Acme") None None None None
          None None None None None None);
     mkClaim 2 8 (Some "1") cx_claim_default]
    [mkHistory 1 1 DOCKET_ENTRY (Some "2020-01-02") (Some "") (Some "3") (Some "")
       None None None None (Some "Proof of claim")]
    [] 2 3 2.

(** Claim 1 again, without a creditor, with its history entry 3 and an
    unnumbered one; then a new claim 2 with a claim entry 5. *)
Definition cx_new_claims : list claim_in :=
  [mkClaimIn [("claim_number", Some "1"); ("status", Some "Filed")]
     (Some [[("document_number", Some "3"); ("type", Some "docket_entry");
             ("date_filed", Some "2020-01-02")];
            [("document_number", None)]]);
   mkClaimIn [("claim_number", Some "2")]
     (Some [[("document_number", Some "5"); ("type", Some "claim_entry");
             ("date_filed", Some "2020-03-04"); ("id", Some "9");
             ("attachment_number", None)]])].

Lemma cx_claims_store_ok :
  table_ok claim_pk (claims cx_links cx_claims_store) (next_claim cx_links cx_claims_store)
  /\ table_ok ch_pk (histories cx_links cx_claims_store)
       (next_history cx_links cx_claims_store).
Proof.
  split; split.
  - simpl. repeat (apply NoDup_cons; [simpl; lia|]). apply NoDup_nil.
  - intros x [<-|[<-|[]]]; simpl; lia.
  - simpl. repeat (apply NoDup_cons; [simpl; lia|]). apply NoDup_nil.
  - intros x [<-|[]]; simpl; lia.
Qed.

Lemma add_claims_to_docket_frame_witness :
  exists s',
    add_claims_to_docket cx_links cx_tag_object cx_claim_default cx_history_default
      cx_claims_store 7 cx_new_claims (Some ["t"]) = Some s'
    /\ (forall x, In x (claims cx_links cx_claims_store) -> claim_docket x <> 7 ->
          In x (claims cx_links s')).
Proof.
  eexists. split; [vm_compute; reflexivity|].
  eapply proj1.
  eapply (add_claims_to_docket_frame cx_links cx_tag_object cx_claim_default
            cx_history_default cx_claims_store 7 cx_new_claims (Some ["t"])).
  - exact (proj1 cx_claims_store_ok).
  - exact (proj2 cx_claims_store_ok).
  - vm_compute. reflexivity.
Defined.

Lemma add_claims_to_docket_links_witness :
  exists s',
    add_claims_to_docket cx_links cx_tag_object cx_claim_default cx_history_default
      cx_claims_store 7 cx_new_claims (Some ["t"]) = Some s'
    /\ exists num c,
         dict_index "claim_number" (claim_dict (hd (mkClaimIn [] None) cx_new_claims))
           = Some num
         /\ In c (claims cx_links s') /\ claim_docket c = 7.
Proof.
  eexists. split; [vm_compute; reflexivity|].
  destruct (add_claims_to_docket_links cx_links cx_tag_object cx_claim_default
              cx_history_default cx_claims_store 7 cx_new_claims (Some ["t"]) _
              (proj1 cx_claims_store_ok) (proj2 cx_claims_store_ok)
              ltac:(vm_compute; reflexivity)
              (hd (mkClaimIn [] None) cx_new_claims) (or_introl eq_refl))
    as (num & c & E1 & E2 & E3 & _).
  exists num, c. split; [exact E1|]. split; [exact E2|exact E3].
Defined.

Lemma add_tags_to_objs_names_witness :
  exists ts s',
    add_tags_to_objs cx_links cx_tag_object (Some ["t"; "u"])
      (claims cx_links cx_claims_store) cx_claims_store = Some (ts, s')
    /\ map tag_name ts = ["t"; "u"].
Proof.
  do 2 eexists. split; [vm_compute; reflexivity|].
  exact (proj1 (add_tags_to_objs_names cx_links cx_tag_object cx_claims_store
                  (Some ["t"; "u"]) (claims cx_links cx_claims_store) _ _
                  ltac:(vm_compute; reflexivity))).
Defined.

Lemma add_tags_to_objs_again_witness :
  exists ts s1 s2,
    add_tags_to_objs cx_links cx_tag_object (Some ["t"; "u"]) [] cx_claims_store
      = Some (ts, s1)
    /\ add_tags_to_objs cx_links cx_tag_object (Some ["t"; "u"])
         (claims cx_links cx_claims_store) s1 = Some (ts, s2)
    /\ tags cx_links s2 = tags cx_links s1.
Proof.
  do 2 eexists.
  destruct (add_tags_to_objs_again cx_links cx_tag_object cx_claims_store (Some ["t"; "u"])
              [] (claims cx_links cx_claims_store) _ _ ltac:(vm_compute; reflexivity))
    as (s2 & E1 & E2).
  exists s2. split; [vm_compute; reflexivity|]. split; assumption.
Defined.

Lemma add_tags_to_objs_total_witness :
  exists ts s',
    add_tags_to_objs cx_links cx_tag_object (Some ["t"; "u"; "u"])
      (claims cx_links cx_claims_store) cx_claims_store = Some (ts, s')
    /\ NoDup (map tag_name (tags cx_links s')).
Proof.
  apply (add_tags_to_objs_total cx_links cx_tag_object cx_claims_store).
  simpl. apply NoDup_cons; [intros []|apply NoDup_nil].
Defined.

End ClaimsFacts.

(** ** RECAP sequence numbers: injectivity and distinctness *)
Module SequenceNumberFacts.
Import Entry Sequence.

(** *** Decimal strings *)

Lemma digit_code n : Ascii.nat_of_ascii (Ascii.ascii_of_nat (48 + n mod 10)) = 48 + n mod 10.
Proof.
  apply Ascii.nat_ascii_embedding. pose proof (Nat.mod_upper_bound n 10). lia.
Qed.

Lemma read_nat_digits fuel : forall n acc a, n < fuel ->
  exists k, read_digits (nat_digits fuel n acc) a = read_digits acc (a * k + n).
Proof.
  induction fuel as [|f IH]; intros n acc a Hn; [lia|].
  set (c := Ascii.ascii_of_nat (48 + n mod 10)). cbn [nat_digits]. fold c.
  assert (Hc : forall a, read_digits (String c acc) a = read_digits acc (a * 10 + n mod 10)).
  { intros a'. cbn [read_digits]. unfold c. rewrite digit_code.
    pose proof (Nat.mod_upper_bound n 10).
    replace (Nat.leb 48 (48 + n mod 10) && Nat.leb (48 + n mod 10) 57) with true
      by (symmetry; apply andb_true_intro; split; apply Nat.leb_le; lia).
    f_equal. lia. }
  destruct (Nat.ltb n 10) eqn:E.
  - apply Nat.ltb_lt in E. exists 10. rewrite Hc. rewrite Nat.mod_small by exact E.
    reflexivity.
  - apply Nat.ltb_ge in E.
    assert (Hd : n / 10 < f).
    { assert (n / 10 < n) by (apply Nat.div_lt; lia). lia. }
    destruct (IH (n / 10) (String c acc) a Hd) as (k & Hk).
    exists (k * 10). rewrite Hk, Hc. f_equal.
    pose proof (Nat.div_mod n 10 ltac:(lia)). nia.
Qed.

Lemma read_nat_to_string n : read_digits (nat_to_string n) 0 = Some n.
Proof.
  unfold nat_to_string. destruct (read_nat_digits (S n) n "" 0 ltac:(lia)) as (k & Hk).
  rewrite Hk. reflexivity.
Qed.

Lemma read_zeros k s : read_digits (zeros k ++ s) 0 = read_digits s 0.
Proof. induction k as [|k IH]; [reflexivity|]. simpl. exact IH. Qed.

Lemma read_zero_pad w n : read_digits (zero_pad w n) 0 = Some n.
Proof. unfold zero_pad. rewrite read_zeros. apply read_nat_to_string. Qed.

Lemma zero_pad_inj w n m : zero_pad w n = zero_pad w m -> n = m.
Proof.
  intros E. pose proof (read_zero_pad w n) as Hn. rewrite E, read_zero_pad in Hn.
  injection Hn as <-. reflexivity.
Qed.

(** [c] does not occur in [s]. *)
Fixpoint no_char (c : ascii) (s : string) : Prop :=
  match s with
  | EmptyString => True
  | String x r => x <> c /\ no_char c r
  end.

Lemma no_char_app c a b : no_char c a -> no_char c b -> no_char c (a ++ b).
Proof. induction a as [|x a IH]; simpl; [auto|]. intros [H1 H2] Hb. split; auto. Qed.

Lemma no_char_nat_digits c fuel : forall n acc,
  (Ascii.nat_of_ascii c < 48 \/ 57 < Ascii.nat_of_ascii c) ->
  no_char c acc -> no_char c (nat_digits fuel n acc).
Proof.
  induction fuel as [|f IH]; intros n acc Hc Ha; cbn [nat_digits]; [exact Ha|].
  assert (Hs : no_char c (String (Ascii.ascii_of_nat (48 + n mod 10)) acc)).
  { cbn [no_char]. split; [|exact Ha]. intros E. rewrite <- E, digit_code in Hc.
    pose proof (Nat.mod_upper_bound n 10). lia. }
  destruct (Nat.ltb n 10); [exact Hs|]. apply IH; assumption.
Qed.

Lemma no_char_zero_pad c w n :
  (Ascii.nat_of_ascii c < 48 \/ 57 < Ascii.nat_of_ascii c) -> no_char c (zero_pad w n).
Proof.
  intros Hc. unfold zero_pad. apply no_char_app.
  - induction (w - String.length (nat_to_string n)) as [|k IH]; simpl; [exact I|].
    split; [|exact IH]. intros E. rewrite <- E in Hc. cbv in Hc. lia.
  - apply no_char_nat_digits; [exact Hc|exact I].
Qed.

Lemma split_at_char c a1 b1 a2 b2 :
  no_char c a1 -> no_char c a2 -> (a1 ++ String c b1 = a2 ++ String c b2)%string ->
  a1 = a2 /\ b1 = b2.
Proof.
  revert a2. induction a1 as [|x1 r1 IH]; intros a2 H1 H2 E; destruct a2 as [|x2 r2];
    simpl in *.
  - injection E as <-. split; reflexivity.
  - injection E as E1 _. destruct H2 as [H2 _]. congruence.
  - injection E as E1 _. destruct H1 as [H1 _]. congruence.
  - injection E as <- E. destruct H1 as [_ H1]. destruct H2 as [_ H2].
    destruct (IH r2 H1 H2 E) as [-> ->]. split; reflexivity.
Qed.


Lemma no_char_zero_pad_dash w n : no_char "-" (zero_pad w n).
Proof. apply no_char_zero_pad. cbv. lia. Qed.

Lemma no_char_zero_pad_dot w n : no_char "." (zero_pad w n).
Proof. apply no_char_zero_pad. cbv. lia. Qed.

Lemma isoformat_shape d :
  isoformat d = (zero_pad 4 (year d) ++ String "-" (zero_pad 2 (month d)
                   ++ String "-" (zero_pad 2 (day d))))%string.
Proof. reflexivity. Qed.

Lemma isoformat_no_dot d : no_char "." (isoformat d).
Proof.
  rewrite isoformat_shape. apply no_char_app; [apply no_char_zero_pad_dot|].
  cbn [no_char]. split; [discriminate|].
  apply no_char_app; [apply no_char_zero_pad_dot|].
  cbn [no_char]. split; [discriminate|]. apply no_char_zero_pad_dot.
Qed.

Lemma isoformat_inj d1 d2 : isoformat d1 = isoformat d2 -> d1 = d2.
Proof.
  rewrite !isoformat_shape. intros E.
  destruct (split_at_char _ _ _ _ _ (no_char_zero_pad_dash 4 (year d1))
              (no_char_zero_pad_dash 4 (year d2)) E) as [Ey E'].
  destruct (split_at_char _ _ _ _ _ (no_char_zero_pad_dash 2 (month d1))
              (no_char_zero_pad_dash 2 (month d2)) E') as [Em Ed].
  apply zero_pad_inj in Ey, Em, Ed.
  destruct d1, d2. simpl in *. subst. reflexivity.
Qed.


(** [make_recap_sequence_number] is injective: its string determines the
    date and the index. *)
Theorem make_recap_sequence_number_inj d1 i1 d2 i2 :
  make_recap_sequence_number d1 i1 = make_recap_sequence_number d2 i2 ->
  d1 = d2 /\ i1 = i2.
Proof.
  unfold make_recap_sequence_number. cbn [append]. intros E.
  destruct (split_at_char _ _ _ _ _ (isoformat_no_dot d1) (isoformat_no_dot d2) E)
    as [Ed Ei].
  split; [apply isoformat_inj; exact Ed|apply (zero_pad_inj 3); exact Ei].
Qed.

(** *** The assignment loop *)

Lemma date_eqb_true a b : date_eqb a b = true -> a = b.
Proof.
  unfold date_eqb. intros H. apply andb_prop in H. destruct H as [H H3].
  apply andb_prop in H. destruct H as [H1 H2].
  apply Nat.eqb_eq in H1, H2, H3. destruct a, b. simpl in *. subst. reflexivity.
Qed.

Lemma date_eqb_comm a b : date_eqb a b = date_eqb b a.
Proof.
  unfold date_eqb. rewrite (Nat.eqb_sym (year a)), (Nat.eqb_sym (month a)),
    (Nat.eqb_sym (day a)). reflexivity.
Qed.

Lemma date_ltb_iff a b :
  date_ltb a b = true <->
  (year a < year b \/ (year a = year b /\ (month a < month b
     \/ (month a = month b /\ day a < day b)))).
Proof.
  unfold date_ltb. rewrite orb_true_iff, andb_true_iff, orb_true_iff, andb_true_iff,
    !Nat.ltb_lt, !Nat.eqb_eq. tauto.
Qed.

Lemma date_ltb_trans a b c : date_ltb a b = true -> date_ltb b c = true -> date_ltb a c = true.
Proof. rewrite !date_ltb_iff. lia. Qed.

Lemma key_date_ltb_irrefl a : date_ltb a a = false.
Proof. destruct (date_ltb a a) eqn:E; [|reflexivity]. apply date_ltb_iff in E. lia. Qed.

(** The local filing date the loop reads. *)
Definition local_date (tz : string -> date -> time -> date * time) (court : string)
  (e : entry_dict) : option date :=
  fst (localize_date_and_time tz court (date_filed e)).

(** One step of the index: the next entry continues the count on the same
    date and restarts at 1 on another. *)
Definition seq_step (p q : date * nat) : Prop :=
  snd q = if date_eqb (fst q) (fst p) then S (snd p) else 1.

Lemma assign_sequence_keys tz court l : forall prev l',
  assign_sequence tz court prev l = Some l' ->
  exists ps,
    map recap_sequence_number l'
      = map (fun p => Some (make_recap_sequence_number (fst p) (snd p))) ps
    /\ map (local_date tz court) l' = map (fun p => Some (fst p)) ps
    /\ Sorted seq_step ps
    /\ (forall p i q, prev = Some (p, i) -> local_date tz court p = Some q ->
          HdRel seq_step (q, i) ps).
Proof.
  induction l as [|de rest IH]; intros prev l' H.
  - simpl in H. injection H as <-. exists []. split; [reflexivity|].
    split; [reflexivity|]. split; [constructor|]. intros; constructor.
  - cbn [assign_sequence] in H. cbv zeta in H.
    destruct (fst (localize_date_and_time tz court (date_filed de))) as [c|] eqn:C;
      [|discriminate].
    set (idx := match prev with
                | Some (p, i) =>
                    match Some c, fst (localize_date_and_time tz court (date_filed p)) with
                    | Some c0, Some q => if date_eqb c0 q then S i else 1
                    | None, None => S i
                    | _, _ => 1
                    end
                | None => 1
                end) in H.
    destruct (assign_sequence tz court
                (Some (set_recap_sequence_number de (make_recap_sequence_number c idx), idx))
                rest) as [l2|] eqn:A; [|discriminate].
    injection H as <-.
    destruct (IH _ _ A) as (ps & P1 & P2 & P3 & P4).
    exists ((c, idx) :: ps). simpl. rewrite P1, P2.
    split; [reflexivity|]. split; [unfold local_date; simpl; rewrite C; reflexivity|].
    split.
    + constructor; [exact P3|]. apply (P4 _ idx c eq_refl). unfold local_date. simpl.
      exact C.
    + intros p i q -> Hq. constructor. unfold seq_step, idx. simpl.
      unfold local_date in Hq. rewrite Hq. reflexivity.
Qed.

(** Strictly increasing (date, index) pairs. *)
Definition key_lt (p q : date * nat) : Prop :=
  date_ltb (fst p) (fst q) = true \/ (fst p = fst q /\ snd p < snd q).

Lemma key_lt_trans : forall p q r, key_lt p q -> key_lt q r -> key_lt p r.
Proof.
  intros p q r [H1|[E1 H1]] [H2|[E2 H2]].
  - left. eapply date_ltb_trans; eassumption.
  - left. rewrite <- E2. exact H1.
  - left. rewrite E1. exact H2.
  - right. split; [congruence|lia].
Qed.

(** [a] is on or before [b]. *)
Definition date_le (a b : date) : bool := date_eqb a b || date_ltb a b.

(** The filing dates of consecutive entries never decrease. *)
Fixpoint dates_sorted (l : list (option date)) : bool :=
  match l with
  | [] => true
  | x :: rest =>
      match rest with
      | [] => true
      | y :: _ =>
          match x, y with
          | Some a, Some b => date_le a b && dates_sorted rest
          | _, _ => false
          end
      end
  end.

Lemma keys_sorted ps :
  Sorted seq_step ps -> dates_sorted (map (fun p => Some (fst p)) ps) = true ->
  Sorted key_lt ps.
Proof.
  induction ps as [|a ps IH]; intros Hs Hd; [constructor|].
  apply Sorted_inv in Hs. destruct Hs as [Hs Hh].
  destruct ps as [|b ps']; [constructor; [constructor|constructor]|].
  simpl in Hd. apply andb_prop in Hd. destruct Hd as [Hab Hd].
  constructor; [apply IH; [exact Hs|exact Hd]|].
  constructor. inversion Hh as [|? ? Hst]; subst. unfold seq_step in Hst.
  unfold key_lt, date_le in *.
  destruct (date_eqb (fst b) (fst a)) eqn:E.
  - right. apply date_eqb_true in E. split; [symmetry; exact E|lia].
  - left. rewrite date_eqb_comm, E in Hab. exact Hab.
Qed.

Lemma strongly_sorted_keys_nodup ps :
  StronglySorted key_lt ps ->
  NoDup (map (fun p => Some (make_recap_sequence_number (fst p) (snd p))) ps).
Proof.
  induction ps as [|a ps IH]; intros Hs; simpl; [constructor|].
  apply StronglySorted_inv in Hs. destruct Hs as [Hs Ha].
  constructor; [|apply IH; exact Hs].
  intros Hin. apply in_map_iff in Hin. destruct Hin as (b & Eb & Hb).
  injection Eb as Eb. apply make_recap_sequence_number_inj in Eb. destruct Eb as [E1 E2].
  rewrite Forall_forall in Ha. specialize (Ha b Hb).
  destruct Ha as [H|[_ H]]; [rewrite E1, key_date_ltb_irrefl in H; discriminate|lia].
Qed.

(** When the entries' local filing dates are in order (after the reversal
    of a descending docket), [calculate_recap_sequence_numbers] gives
    every entry a different RECAP sequence number. *)
Theorem calculate_recap_sequence_numbers_distinct tz entries court l' :
  calculate_recap_sequence_numbers tz entries court = Some l' ->
  dates_sorted (map (local_date tz court) l') = true ->
  NoDup (map recap_sequence_number l').
Proof.
  unfold calculate_recap_sequence_numbers. intros H Hd.
  destruct (assign_sequence_keys tz court _ None l' H) as (ps & P1 & P2 & P3 & _).
  rewrite P1. rewrite P2 in Hd.
  apply strongly_sorted_keys_nodup. apply Sorted_StronglySorted;
    [exact key_lt_trans|]. apply keys_sorted; assumption.
Qed.


Lemma local_date_none tz court e :
  local_date tz court e = None <-> date_filed e = None.
Proof.
  unfold local_date, localize_date_and_time.
  destruct (date_filed e) as [[d|d t]|]; simpl.
  - split; discriminate.
  - destruct (tz court d t). simpl. split; discriminate.
  - split; reflexivity.
Qed.

Lemma assign_sequence_shape tz court l : forall prev,
  match assign_sequence tz court prev l with
  | None => exists e, In e l /\ date_filed e = None
  | Some l' =>
      map (fun e => set_recap_sequence_number e "") l'
        = map (fun e => set_recap_sequence_number e "") l
      /\ Forall (fun e => recap_sequence_number e <> None) l'
  end.
Proof.
  induction l as [|de rest IH]; intros prev.
  - simpl. split; [reflexivity|constructor].
  - cbn [assign_sequence]. cbv zeta.
    destruct (fst (localize_date_and_time tz court (date_filed de))) as [c|] eqn:C.
    + match goal with |- context [assign_sequence tz court ?p rest] =>
        specialize (IH p); destruct (assign_sequence tz court p rest) as [l2|] eqn:A end.
      * destruct IH as [I1 I2]. simpl. rewrite I1. split; [reflexivity|].
        constructor; [simpl; discriminate|exact I2].
      * destruct IH as (e & He & Ee). exists e. split; [right; exact He|exact Ee].
    + exists de. split; [left; reflexivity|]. apply (local_date_none tz court). exact C.
Qed.

Lemma assign_sequence_none tz court l : forall prev e,
  In e l -> date_filed e = None -> assign_sequence tz court prev l = None.
Proof.
  induction l as [|de rest IH]; intros prev e He Ee; [destruct He|].
  cbn [assign_sequence]. cbv zeta.
  destruct He as [ ->|He].
  - replace (fst (localize_date_and_time tz court (date_filed e))) with (@None date)
      by (symmetry; apply (local_date_none tz court); exact Ee).
    reflexivity.
  - destruct (fst (localize_date_and_time tz court (date_filed de))); [|reflexivity].
    rewrite (IH _ e He Ee). reflexivity.
Qed.

(** [calculate_recap_sequence_numbers] fails exactly when an entry has no
    filing date.  Otherwise it returns the entries in their order, or
    reversed for a descending docket, each with a RECAP sequence number
    and with every other key unchanged. *)
Theorem calculate_recap_sequence_numbers_shape tz entries court :
  (calculate_recap_sequence_numbers tz entries court = None
   <-> exists e, In e entries /\ date_filed e = None)
  /\ match calculate_recap_sequence_numbers tz entries court with
     | Some l' =>
         map (fun e => set_recap_sequence_number e "") l'
           = map (fun e => set_recap_sequence_number e "")
               (match get_order_of_docket entries with
                | Some Desc => rev entries
                | _ => entries
                end)
         /\ Forall (fun e => recap_sequence_number e <> None) l'
     | None => True
     end.
Proof.
  unfold calculate_recap_sequence_numbers.
  set (ordered := match get_order_of_docket entries with
                  | Some Desc => rev entries
                  | _ => entries
                  end).
  assert (Hin : forall e, In e ordered <-> In e entries).
  { intros e. unfold ordered.
    destruct (get_order_of_docket entries) as [[|]|];
      [tauto|split; [apply in_rev|apply in_rev]|tauto]. }
  pose proof (assign_sequence_shape tz court ordered None) as Hs.
  split.
  - split.
    + intros E. rewrite E in Hs. destruct Hs as (e & He & Ee).
      exists e. split; [apply Hin; exact He|exact Ee].
    + intros (e & He & Ee). apply (assign_sequence_none tz court ordered None e);
        [apply Hin; exact He|exact Ee].
  - destruct (assign_sequence tz court None ordered); [exact Hs|exact I].
Qed.


(** Witness: "2014-01-01.001" and "2014-01-01.001" come from equal inputs. *)
Lemma make_recap_sequence_number_inj_witness :
  make_recap_sequence_number (mkDate 2014 1 1) 1
    = make_recap_sequence_number (mkDate 2014 1 1) 1
  /\ mkDate 2014 1 1 = mkDate 2014 1 1 /\ 1 = 1.
Proof.
  split; [reflexivity|].
  apply (make_recap_sequence_number_inj (mkDate 2014 1 1) 1 (mkDate 2014 1 1) 1).
  reflexivity.
Defined.

Definition cx_seq_entries : list entry_dict :=
  [mkEntry None (Some (FDate (mkDate 2014 1 1))) None None None None None;
   mkEntry None (Some (FDate (mkDate 2014 1 1))) None None None None None;
   mkEntry (Some "1") (Some (FDate (mkDate 2014 1 2))) None None None None None].

(** Witness: three entries filed on 2014-01-01, 2014-01-01 and 2014-01-02. *)
Lemma calculate_recap_sequence_numbers_distinct_witness :
  exists l',
    calculate_recap_sequence_numbers (fun _ d t => (d, t)) cx_seq_entries "cand" = Some l'
    /\ dates_sorted (map (local_date (fun _ d t => (d, t)) "cand") l') = true
    /\ NoDup (map recap_sequence_number l').
Proof.
  eexists. split; [vm_compute; reflexivity|].
  split; [vm_compute; reflexivity|].
  apply (calculate_recap_sequence_numbers_distinct (fun _ d t => (d, t)) cx_seq_entries "cand");
    vm_compute; reflexivity.
Defined.

End SequenceNumberFacts.

(** ** Bankruptcy data *)
Module BankruptcyFacts.
Import Claims Bankruptcy.

Definition has_key (k : string) (m : dict) : bool :=
  existsb (fun kv => String.eqb (fst kv) k) m.

Lemma dict_index_app k m m' :
  dict_index k (m ++ m') =
  match dict_index k m with Some v => Some v | None => dict_index k m' end.
Proof.
  induction m as [|[k0 v0] rest IH]; simpl; [reflexivity|].
  destruct (String.eqb k k0); [reflexivity|exact IH].
Qed.

Lemma dict_index_no_key k m : has_key k m = false -> dict_index k m = None.
Proof.
  induction m as [|[k0 v0] rest IH]; simpl; [reflexivity|].
  intros H. apply orb_false_iff in H as [H1 H2].
  rewrite String.eqb_sym, H1. exact (IH H2).
Qed.

Lemma dict_index_replace k k' v m :
  dict_index k (map (fun kv => if String.eqb (fst kv) k' then (k', v) else kv) m)
  = if String.eqb k k'
    then (if has_key k' m then Some v else None)
    else dict_index k m.
Proof.
  induction m as [|[k0 v0] rest IH]; simpl.
  - destruct (String.eqb k k'); reflexivity.
  - destruct (String.eqb_spec k0 k') as [->|Hne]; simpl;
      [destruct (String.eqb_spec k k') as [->|Hk]
      |destruct (String.eqb_spec k k0) as [->|Hk]];
      rewrite ?IH; unfold has_key; simpl; rewrite ?String.eqb_refl;
      repeat match goal with H : ?a <> ?b |- _ =>
        apply String.eqb_neq in H; rewrite ?H end;
      reflexivity.
Qed.

Lemma dict_get_set_attr k k' v m :
  dict_get k (set_attr k' v m) = if String.eqb k k' then v else dict_get k m.
Proof.
  unfold dict_get, set_attr. fold (has_key k' m).
  destruct (has_key k' m) eqn:E.
  - rewrite dict_index_replace, E. destruct (String.eqb k k'); reflexivity.
  - rewrite dict_index_app. destruct (String.eqb_spec k k') as [->|Hk].
    + rewrite (dict_index_no_key _ _ E). simpl. rewrite String.eqb_refl. reflexivity.
    + destruct (dict_index k m); [reflexivity|]. simpl.
      apply String.eqb_neq in Hk. rewrite Hk. reflexivity.
Qed.

(** Every binding of [k] in [m] has the value [v]. *)
Definition binds (k : string) (v : option string) (m : dict) : Prop :=
  has_key k m = true /\ Forall (fun kv => fst kv = k -> snd kv = v) m.

Lemma set_attr_binds k v m : binds k v (set_attr k v m).
Proof.
  unfold binds, set_attr, has_key. destruct (existsb _ m) eqn:E.
  - split.
    + apply existsb_exists in E. destruct E as (kv & Hin & Hk).
      apply existsb_exists. exists (k, v). split; [|apply String.eqb_refl].
      apply in_map_iff. exists kv. rewrite Hk. split; [reflexivity|exact Hin].
    + apply Forall_forall. intros kv Hin. apply in_map_iff in Hin.
      destruct Hin as (kv0 & <- & _).
      destruct (String.eqb_spec (fst kv0) k); [reflexivity|].
      intros Hf. contradiction.
  - split.
    + rewrite existsb_app. simpl. rewrite String.eqb_refl. apply orb_true_r.
    + apply Forall_app. split; [|constructor; [reflexivity|constructor]].
      apply Forall_forall. intros kv Hin Hk. exfalso.
      assert (existsb (fun kv => String.eqb (fst kv) k) m = true) as T
        by (apply existsb_exists; exists kv; rewrite Hk, String.eqb_refl; split; [exact Hin|reflexivity]).
      rewrite T in E. discriminate.
Qed.

Lemma set_attr_binds_other k v k' v' m :
  k <> k' -> binds k v m -> binds k v (set_attr k' v' m).
Proof.
  unfold binds, set_attr, has_key. intros Hne [H1 H2].
  destruct (existsb (fun kv => String.eqb (fst kv) k') m).
  - split.
    + apply existsb_exists in H1. destruct H1 as (kv & Hin & Hk).
      apply existsb_exists. exists kv. split; [|exact Hk].
      apply in_map_iff. exists kv. split; [|exact Hin].
      apply String.eqb_eq in Hk. rewrite Hk.
      apply String.eqb_neq in Hne. rewrite Hne. reflexivity.
    + apply Forall_forall. intros kv Hin. apply in_map_iff in Hin.
      destruct Hin as (kv0 & <- & Hin).
      destruct (String.eqb_spec (fst kv0) k').
      * simpl. intros E. congruence.
      * exact (proj1 (Forall_forall _ _) H2 kv0 Hin).
  - split.
    + rewrite existsb_app, H1. reflexivity.
    + apply Forall_app. split; [exact H2|constructor; [|constructor]].
      simpl. intros E. congruence.
Qed.

Lemma set_attr_same k v m : binds k v m -> set_attr k v m = m.
Proof.
  unfold binds, set_attr, has_key. intros [H1 H2]. rewrite H1. clear H1.
  induction m as [|[k0 v0] rest IH]; [reflexivity|].
  inversion H2 as [|? ? Hh Ht]; subst. simpl.
  rewrite (IH Ht). destruct (String.eqb_spec k0 k) as [->|Hne]; [|reflexivity].
  simpl in Hh. rewrite (Hh eq_refl). reflexivity.
Qed.


(** *** [upsert] by key *)

Lemma upsert_same_key {A} (pk : A -> nat) l x y :
  In y (upsert pk l x) -> pk y = pk x -> y = x.
Proof.
  unfold upsert. intros Hy E. destruct (existsb _ l) eqn:X.
  - apply in_map_iff in Hy. destruct Hy as (z & <- & _).
    destruct (Nat.eqb_spec (pk z) (pk x)) as [_|Hne]; [reflexivity|contradiction].
  - apply in_app_iff in Hy. destruct Hy as [Hy|[<-|[]]]; [|reflexivity].
    assert (existsb (fun y => Nat.eqb (pk y) (pk x)) l = true) as T
      by (apply existsb_exists; exists y; rewrite E, Nat.eqb_refl; split; [exact Hy|reflexivity]).
    congruence.
Qed.

Lemma upsert_other_iff {A} (pk : A -> nat) l x y :
  pk y <> pk x -> (In y (upsert pk l x) <-> In y l).
Proof.
  intros Hne. unfold upsert. destruct (existsb _ l).
  - rewrite in_map_iff. split.
    + intros (z & Ez & Hz). destruct (Nat.eqb_spec (pk z) (pk x)); [congruence|].
      subst z. exact Hz.
    + intros Hy. exists y. apply Nat.eqb_neq in Hne. rewrite Hne. split; [reflexivity|exact Hy].
  - rewrite in_app_iff. simpl. split; [intros [H|[<-|[]]]; [exact H|congruence]|intros H; left; exact H].
Qed.

Lemma upsert_find {A} (pk : A -> nat) l x :
  find (fun y => Nat.eqb (pk y) (pk x)) (upsert pk l x) = Some x.
Proof.
  unfold upsert. destruct (existsb _ l) eqn:X.
  - induction l as [|z rest IH]; [discriminate|].
    simpl in X |- *. destruct (Nat.eqb (pk z) (pk x)) eqn:E.
    + rewrite Nat.eqb_refl. reflexivity.
    + rewrite E. exact (IH X).
  - induction l as [|z rest IH]; simpl; [rewrite Nat.eqb_refl; reflexivity|].
    simpl in X. apply orb_false_iff in X as [X1 X2]. rewrite X1. exact (IH X2).
Qed.

Lemma map_replace_same {A} (pk : A -> nat) x m :
  (forall y, In y m -> pk y = pk x -> y = x) ->
  map (fun y => if Nat.eqb (pk y) (pk x) then x else y) m = m.
Proof.
  induction m as [|z rest IH]; intros Hs; [reflexivity|].
  simpl. f_equal.
  - destruct (Nat.eqb_spec (pk z) (pk x)) as [E|_]; [|reflexivity].
    symmetry. apply Hs; [left; reflexivity|exact E].
  - apply IH. intros y Hy. apply Hs. right. exact Hy.
Qed.

Lemma upsert_idem {A} (pk : A -> nat) l x :
  upsert pk (upsert pk l x) x = upsert pk l x.
Proof.
  assert (Hin : In x (upsert pk l x)).
  { unfold upsert. destruct (existsb _ l) eqn:X.
    - apply existsb_exists in X. destruct X as (y & Hy & Ey).
      apply in_map_iff. exists y. rewrite Ey. split; [reflexivity|exact Hy].
    - apply in_app_iff. right. left. reflexivity. }
  unfold upsert at 1.
  replace (existsb (fun y => Nat.eqb (pk y) (pk x)) (upsert pk l x)) with true
    by (symmetry; apply existsb_exists; exists x; rewrite Nat.eqb_refl; split; [exact Hin|reflexivity]).
  apply map_replace_same. intros y Hy E. exact (upsert_same_key pk l x y Hy E).
Qed.

Section Facts.
Variable fields : list string.
Variable bankr_default : dict.

Lemma bankr_loop_cons metadata f rest ds b :
  bankr_loop metadata (f :: rest) (ds, b) =
  bankr_loop metadata rest
    (if truthy (dict_get f metadata)
     then (true, mkBankr (bi_docket b)
                   (set_attr f (dict_get f metadata) (bi_fields b)))
     else (ds, b)).
Proof. reflexivity. Qed.

Lemma bankr_loop_spec metadata fs : forall ds b,
  fst (bankr_loop metadata fs (ds, b))
    = ds || existsb (fun f => truthy (dict_get f metadata)) fs
  /\ bi_docket (snd (bankr_loop metadata fs (ds, b))) = bi_docket b
  /\ forall k, dict_get k (bi_fields (snd (bankr_loop metadata fs (ds, b)))) =
       if existsb (String.eqb k) fs && truthy (dict_get k metadata)
       then dict_get k metadata else dict_get k (bi_fields b).
Proof.
  induction fs as [|f rest IH]; intros ds b.
  - simpl. rewrite orb_false_r. split; [reflexivity|split; reflexivity].
  - rewrite bankr_loop_cons. cbn [existsb].
    destruct (truthy (dict_get f metadata)) eqn:T.
    + destruct (IH true (mkBankr (bi_docket b)
                   (set_attr f (dict_get f metadata) (bi_fields b)))) as (I1 & I2 & I3).
      split; [rewrite I1, !orb_true_r; reflexivity|].
      split; [exact I2|]. intros k. rewrite I3. cbn [bi_fields].
      rewrite dict_get_set_attr.
      destruct (String.eqb_spec k f) as [->|Hk].
      * rewrite T. rewrite ?andb_true_r, ?String.eqb_refl. simpl.
        destruct (existsb (String.eqb f) rest); reflexivity.
      * simpl. reflexivity.
    + destruct (IH ds b) as (I1 & I2 & I3).
      split; [exact I1|]. split; [exact I2|]. intros k. rewrite I3.
      destruct (String.eqb_spec k f) as [->|Hk].
      * rewrite T. rewrite ?andb_false_r. reflexivity.
      * simpl. reflexivity.
Qed.

Definition loop_inv (metadata : dict) (fs : list string) (m : dict) : Prop :=
  forall f, In f fs -> truthy (dict_get f metadata) = true ->
  binds f (dict_get f metadata) m.

Lemma bankr_loop_inv metadata fs : forall fs0 ds b,
  loop_inv metadata fs0 (bi_fields b) ->
  loop_inv metadata (fs0 ++ fs) (bi_fields (snd (bankr_loop metadata fs (ds, b)))).
Proof.
  induction fs as [|f rest IH]; intros fs0 ds b Hi.
  - rewrite app_nil_r. exact Hi.
  - rewrite bankr_loop_cons.
    replace (fs0 ++ f :: rest) with ((fs0 ++ [f]) ++ rest)
      by (rewrite <- app_assoc; reflexivity).
    destruct (truthy (dict_get f metadata)) eqn:T; apply IH.
    + simpl. intros g Hg Tg. apply in_app_iff in Hg.
      destruct (String.eqb_spec g f) as [->|Hne]; [apply set_attr_binds|].
      apply set_attr_binds_other; [exact Hne|].
      destruct Hg as [Hg|[<-|[]]]; [exact (Hi g Hg Tg)|congruence].
    + intros g Hg Tg. apply in_app_iff in Hg.
      destruct Hg as [Hg|[<-|[]]]; [exact (Hi g Hg Tg)|rewrite T in Tg; discriminate].
Qed.

Lemma bankr_loop_fixed metadata fs : forall ds b,
  loop_inv metadata fs (bi_fields b) ->
  bankr_loop metadata fs (ds, b)
  = (ds || existsb (fun f => truthy (dict_get f metadata)) fs, b).
Proof.
  induction fs as [|f rest IH]; intros ds b Hi.
  - simpl. rewrite orb_false_r. reflexivity.
  - rewrite bankr_loop_cons.
    assert (Hr : loop_inv metadata rest (bi_fields b))
      by (intros g Hg; apply Hi; right; exact Hg).
    destruct (truthy (dict_get f metadata)) eqn:T.
    + rewrite (set_attr_same _ _ _ (Hi f (or_introl eq_refl) T)).
      destruct b as [bd bf]. simpl. rewrite IH by exact Hr.
      simpl. rewrite T. destruct ds; reflexivity.
    + rewrite IH by exact Hr. simpl. rewrite T. reflexivity.
Qed.


Lemma bankruptcy_information_docket s d b :
  bankruptcy_information s d = Some b -> bi_docket b = d.
Proof.
  unfold bankruptcy_information. intros H. apply find_some in H as [_ H].
  apply Nat.eqb_eq. exact H.
Qed.

(** The row the function starts from: the docket's own, or a fresh one. *)
Definition start_row (s : list bankr) (d : nat) : bankr :=
  match bankruptcy_information s d with
  | Some b => b
  | None => mkBankr d bankr_default
  end.

Lemma start_row_docket s d : bi_docket (start_row s d) = d.
Proof.
  unfold start_row. destruct (bankruptcy_information s d) eqn:E; [|reflexivity].
  exact (bankruptcy_information_docket _ _ _ E).
Qed.

Lemma add_bankruptcy_unfold s d metadata :
  add_bankruptcy_data_to_docket fields bankr_default s d metadata =
  let (do_save, b) := bankr_loop metadata fields (false, start_row s d) in
  if do_save then save_bankr s b else s.
Proof. reflexivity. Qed.

(** [add_bankruptcy_data_to_docket] leaves the rows of other dockets as they
    are.  When no field of [bankruptcy_data_fields] has a truthy value in
    [metadata] it saves nothing, so no empty row is created; otherwise the
    docket has one row, where every such field holds the metadata's value
    and every other attribute keeps the value of the docket's former row,
    or of a fresh row when there was none. *)
Theorem add_bankruptcy_data_to_docket_spec s d metadata :
  (forall y, bi_docket y <> d ->
     (In y (add_bankruptcy_data_to_docket fields bankr_default s d metadata)
      <-> In y s))
  /\ if existsb (fun f => truthy (dict_get f metadata)) fields
     then exists b,
       bankruptcy_information
         (add_bankruptcy_data_to_docket fields bankr_default s d metadata) d = Some b
       /\ (forall y, In y (add_bankruptcy_data_to_docket fields bankr_default s d metadata) ->
             bi_docket y = d -> y = b)
       /\ forall k, dict_get k (bi_fields b) =
            if existsb (String.eqb k) fields && truthy (dict_get k metadata)
            then dict_get k metadata
            else dict_get k (match bankruptcy_information s d with
                             | Some b0 => bi_fields b0
                             | None => bankr_default
                             end)
     else add_bankruptcy_data_to_docket fields bankr_default s d metadata = s.
Proof.
  rewrite add_bankruptcy_unfold.
  destruct (bankr_loop_spec metadata fields false (start_row s d)) as (L1 & L2 & L3).
  destruct (bankr_loop metadata fields (false, start_row s d)) as [ds b] eqn:L.
  simpl in L1, L2, L3. subst ds. rewrite start_row_docket in L2.
  destruct (existsb (fun f => truthy (dict_get f metadata)) fields); simpl.
  - unfold save_bankr. split.
    + intros y Hy. apply upsert_other_iff. congruence.
    + exists b. split; [|split].
      * unfold bankruptcy_information. rewrite <- L2. apply upsert_find.
      * intros y Hy E. apply (upsert_same_key bi_docket s b y Hy). congruence.
      * intros k. rewrite L3. unfold start_row.
        destruct (bankruptcy_information s d); reflexivity.
  - split; [intros y _; reflexivity|reflexivity].
Qed.

(** Running [add_bankruptcy_data_to_docket] a second time with the same
    metadata changes nothing. *)
Theorem add_bankruptcy_data_to_docket_idem s d metadata :
  add_bankruptcy_data_to_docket fields bankr_default
    (add_bankruptcy_data_to_docket fields bankr_default s d metadata) d metadata
  = add_bankruptcy_data_to_docket fields bankr_default s d metadata.
Proof.
  pose proof (bankr_loop_inv metadata fields [] false (start_row s d)
                (fun f Hf => match Hf with end)) as Hinv.
  destruct (bankr_loop_spec metadata fields false (start_row s d)) as (L1 & L2 & _).
  rewrite (add_bankruptcy_unfold s d metadata).
  destruct (bankr_loop metadata fields (false, start_row s d)) as [ds b] eqn:L.
  simpl in L1, L2, Hinv. subst ds. rewrite start_row_docket in L2.
  destruct (existsb (fun f => truthy (dict_get f metadata)) fields) eqn:X.
  - rewrite add_bankruptcy_unfold.
    assert (Hs : start_row (save_bankr s b) d = b).
    { unfold start_row, bankruptcy_information, save_bankr. rewrite <- L2.
      rewrite upsert_find. reflexivity. }
    rewrite Hs, (bankr_loop_fixed metadata fields false b Hinv), X.
    unfold save_bankr. apply upsert_idem.
  - rewrite (add_bankruptcy_unfold s d metadata), L. reflexivity.
Qed.

End Facts.
End BankruptcyFacts.
